(** * BluffBattler: a shallow embedding of the rule engine

    The JavaScript classes [Card], [Player], [GridSystem], [BattleSystem] and
    [ChallengeSystem] are embedded as functions over an explicit object store.

    Conventions of the embedding.
    - JavaScript numbers that hold scores, positions and timestamps are
      integers; they are modelled by [Z].
    - Objects that are mutated through shared references ([Player], [Card])
      live in a store indexed by reference; [===] on objects is equality of
      references.
    - [Date.now()] reads the [clock] field of the world.
    - [eventBus.emit] appends to an event log; listeners are not part of the
      rule engine.
    - [setTimeout]/[clearTimeout] manage a set of pending timer handles.
    - [DEBUG.ENABLED] is the constant [false] (Constants.js), so the guarded
      [console.log] calls are never executed and are left out.
    - A [throw] is the [Throw] result of the monad [M]; the message is kept
      without the values the source interpolates into it.
    - [EVENTS] is defined in Constants.js with all its members, so the
      emissions guarded by [typeof EVENTS !== "undefined"] always happen. *)

From stdpp Require Import gmap strings list.
From Stdlib Require Import ZArith Sorted.

Open Scope Z_scope.

(** ** Constants.js *)

Inductive CardType := ROCK | PAPER | SCISSORS.

#[global] Instance CardType_eq_dec : EqDecision CardType.
Proof. solve_decision. Defined.

#[global] Instance CardType_countable : Countable CardType.
Proof.
  refine (inj_countable'
    (fun t => match t with ROCK => 0%nat | PAPER => 1%nat | SCISSORS => 2%nat end)
    (fun n => match n with O => ROCK | S O => PAPER | _ => SCISSORS end) _).
  by intros [].
Defined.

(** The string value of each member of [CARD_TYPES]. *)
Definition CARD_TYPES (t : CardType) : string :=
  match t with
  | ROCK => "rock"
  | PAPER => "paper"
  | SCISSORS => "scissors"
  end.

Module CardInfo.
(** An entry of [CARD_INFO]; the [icon] field (an emoji used for display
    only) is not represented. *)
Record t := mk { name : string; defeats : CardType; defeatedBy : CardType }.
End CardInfo.

Definition CARD_INFO (t : CardType) : CardInfo.t :=
  match t with
  | ROCK => CardInfo.mk "Rock" SCISSORS PAPER
  | PAPER => CardInfo.mk "Paper" ROCK SCISSORS
  | SCISSORS => CardInfo.mk "Scissors" PAPER ROCK
  end.

Module GAME_CONFIG.
Definition GRID_WIDTH : Z := 5.
Definition GRID_HEIGHT : Z := 3.
Definition TOTAL_POSITIONS : Z := 15.
Definition CARDS_PER_HAND : Z := 5.
Definition VICTORY_POINTS : Z := 10.
Definition MIN_VICTORY_LEAD : Z := 1.
End GAME_CONFIG.

Module SCORING.
Definition ADVANCEMENT : Z := 1.
Definition CONTROL : Z := 1.
Definition BATTLE_WIN : Z := 1.
Definition CHALLENGE_PENALTY : Z := 1.
End SCORING.

Inductive PlayerType := HUMAN | AI.

Inductive BattleResult := WIN | LOSE | ADVANCE.

Inductive ChallengeResult := SUCCESSFUL | FAILED | TRUTHFUL.

Inductive PositionState := EMPTY | OCCUPIED | POS_SELECTED | HIGHLIGHTED.

Inductive CardState := IN_HAND | SELECTED | PLACED | REVEALED.

#[global] Instance ChallengeResult_eq_dec : EqDecision ChallengeResult.
Proof. solve_decision. Defined.

#[global] Instance PositionState_eq_dec : EqDecision PositionState.
Proof. solve_decision. Defined.

#[global] Instance CardState_eq_dec : EqDecision CardState.
Proof. solve_decision. Defined.

(** References into the object store. *)
Abbreviation PlayerRef := nat.
Abbreviation CardRef := nat.
Abbreviation TimerId := positive.

(** ** Card.js *)

Module BattleRecord.
(** An entry of [card.battleHistory], as pushed by
    [BattleSystem.processBattle]; [result = None] is the string "tie". *)
Record t := mk {
  timestamp : Z;
  opponent : string;
  opponentType : CardType;
  result : option BattleResult;
  position : Z;
  opponentPosition : Z }.
End BattleRecord.

Module Card.
Record t := mk {
  id : string;
  type : CardType;
  state : CardState;
  claimedType : option CardType;
  owner : option PlayerRef;
  position : option Z;
  isRevealed : bool;
  battleHistory : list BattleRecord.t;
  createdAt : Z;
  placedAt : option Z;
  revealedAt : option Z }.

(** [new Card(type, id)] with an explicit id, created at time [now]. *)
Definition new (ty : CardType) (i : string) (now : Z) : t :=
  mk i ty IN_HAND None None None false [] now None None.

Definition set_claimedType (v : option CardType) (c : t) : t :=
  mk (id c) (type c) (state c) v (owner c) (position c)
     (isRevealed c) (battleHistory c) (createdAt c) (placedAt c) (revealedAt c).

(** [setClaim]: the membership test on [CARD_TYPES] always passes for a
    [CardType]. *)
Definition setClaim (claimed : CardType) (c : t) : t :=
  set_claimedType (Some claimed) c.

Definition setOwner (p : PlayerRef) (c : t) : t :=
  mk (id c) (type c) (state c) (claimedType c) (Some p) (position c)
     (isRevealed c) (battleHistory c) (createdAt c) (placedAt c) (revealedAt c).

Definition isBluffing (c : t) : bool :=
  match claimedType c with
  | None => false
  | Some ct => negb (bool_decide (ct = type c))
  end.

Definition isTruthful (c : t) : bool :=
  match claimedType c with
  | None => false
  | Some ct => bool_decide (ct = type c)
  end.

(** The assignments of [place], after its range check. *)
Definition placed (pos now : Z) (c : t) : t :=
  mk (id c) (type c) PLACED (claimedType c) (owner c) (Some pos)
     (isRevealed c) (battleHistory c) (createdAt c) (Some now) (revealedAt c).

(** The assignments of [reveal]. *)
Definition revealed (now : Z) (c : t) : t :=
  mk (id c) (type c) REVEALED (claimedType c) (owner c) (position c)
     true (battleHistory c) (createdAt c) (placedAt c) (Some now).
End Card.

(** ** BattleSystem.js: determineBattleOutcome *)

Inductive Outcome := tie | card1_wins | card2_wins.

Module BattleOutcome.
Record t := mk { outcome : Outcome; explanation : string }.
End BattleOutcome.

Definition determineBattleOutcome (card1 card2 : Card.t) : BattleOutcome.t :=
  let type1 := Card.type card1 in
  let type2 := Card.type card2 in
  if bool_decide (type1 = type2) then
    BattleOutcome.mk tie
      ("Both cards are " +:+ CardInfo.name (CARD_INFO type1) +:+ " - tie!")
  else if bool_decide (CardInfo.defeats (CARD_INFO type1) = type2) then
    BattleOutcome.mk card1_wins
      (CardInfo.name (CARD_INFO type1) +:+ " defeats " +:+ CardInfo.name (CARD_INFO type2))
  else
    BattleOutcome.mk card2_wins
      (CardInfo.name (CARD_INFO type2) +:+ " defeats " +:+ CardInfo.name (CARD_INFO type1)).

(** The rule as the specification words it: rock beats scissors, paper beats
    rock, scissors beats paper, equal types tie. *)
Definition resolve (a b : CardType) : Outcome :=
  match a, b with
  | ROCK, ROCK | PAPER, PAPER | SCISSORS, SCISSORS => tie
  | ROCK, SCISSORS | PAPER, ROCK | SCISSORS, PAPER => card1_wins
  | _, _ => card2_wins
  end.

(** ** Player: the record and its statistics *)

(** A JavaScript quotient [num / den] of two integers, kept symbolic: the
    behaviour profile stores such ratios and nothing in the rule engine
    computes with them. *)
Module Quot.
Record t := mk { num : Z; den : Z }.

Definition zero : t := mk 0 1.

(** [q || 0]: the quotient is falsy exactly when the numerator is 0 (it is
    then 0, -0 or NaN). *)
Definition orZero (q : t) : t := if num q =? 0 then zero else q.
End Quot.

Module Stats.
(** [truthfulPlays] is absent from the object until
    [processChallenge] first writes it. *)
Record t := mk {
  gamesPlayed : Z;
  gamesWon : Z;
  roundsWon : Z;
  cardsPlayed : Z;
  bluffsAttempted : Z;
  bluffsSuccessful : Z;
  challengesMade : Z;
  challengesSuccessful : Z;
  battlesWon : Z;
  battlesLost : Z;
  totalPoints : Z;
  truthfulPlays : option Z }.

Definition new : t := mk 0 0 0 0 0 0 0 0 0 0 0 None.

Definition set_cardsPlayed (v : Z) (s : t) : t :=
  mk (gamesPlayed s) (gamesWon s) (roundsWon s) v (bluffsAttempted s)
     (bluffsSuccessful s) (challengesMade s) (challengesSuccessful s)
     (battlesWon s) (battlesLost s) (totalPoints s) (truthfulPlays s).

Definition set_bluffsAttempted (v : Z) (s : t) : t :=
  mk (gamesPlayed s) (gamesWon s) (roundsWon s) (cardsPlayed s) v
     (bluffsSuccessful s) (challengesMade s) (challengesSuccessful s)
     (battlesWon s) (battlesLost s) (totalPoints s) (truthfulPlays s).

Definition set_challengesSuccessful (v : Z) (s : t) : t :=
  mk (gamesPlayed s) (gamesWon s) (roundsWon s) (cardsPlayed s)
     (bluffsAttempted s) (bluffsSuccessful s) (challengesMade s) v
     (battlesWon s) (battlesLost s) (totalPoints s) (truthfulPlays s).

Definition set_totalPoints (v : Z) (s : t) : t :=
  mk (gamesPlayed s) (gamesWon s) (roundsWon s) (cardsPlayed s)
     (bluffsAttempted s) (bluffsSuccessful s) (challengesMade s)
     (challengesSuccessful s) (battlesWon s) (battlesLost s) v
     (truthfulPlays s).

Definition set_truthfulPlays (v : Z) (s : t) : t :=
  mk (gamesPlayed s) (gamesWon s) (roundsWon s) (cardsPlayed s)
     (bluffsAttempted s) (bluffsSuccessful s) (challengesMade s)
     (challengesSuccessful s) (battlesWon s) (battlesLost s)
     (totalPoints s) (Some v).
End Stats.

Inductive ActionType := cardPlayed | challengeMade | challengeReceived.

(** The [actionData] objects built by the callers of
    [updateBehaviorProfile]. *)
Inductive ActionData :=
  | CardPlayedData (actualType claimedType : CardType) (position : Z)
      (wasBluff : bool)
  | ChallengeMadeData (opponent : string) (wasCorrect : bool)
      (challengedCard claimedType : CardType)
  | ChallengeReceivedData (challenger : string) (wasBluff : bool)
      (cardType claimedType : CardType) (challengeResult : ChallengeResult).

Module Action.
Record t := mk { type : ActionType; data : ActionData; timestamp : Z }.
End Action.

Module BehaviorProfile.
Record t := mk {
  bluffingFrequency : Quot.t;
  challengingFrequency : Quot.t;
  cardTypePreferences : gmap CardType Z;
  positionPreferences : gmap Z Z;
  recentActions : list Action.t }.

Definition new : t := mk Quot.zero Quot.zero ∅ ∅ [].
End BehaviorProfile.

Module Player.
Record t := mk {
  id : string;
  name : string;
  type : PlayerType;
  score : Z;
  hand : list CardRef;
  placedCards : list CardRef;
  selectedCard : option CardRef;
  isActive : bool;
  stats : Stats.t;
  behaviorProfile : BehaviorProfile.t;
  createdAt : Z }.

(** [new Player(id, name, type)], created at time [now]. *)
Definition new (i n : string) (ty : PlayerType) (now : Z) : t :=
  mk i n ty 0 [] [] None false Stats.new BehaviorProfile.new now.

Definition set_score (v : Z) (p : t) : t :=
  mk (id p) (name p) (type p) v (hand p) (placedCards p) (selectedCard p)
     (isActive p) (stats p) (behaviorProfile p) (createdAt p).

(** The assignments of [playCard] to [hand], [placedCards] and
    [selectedCard]. *)
Definition set_cards (h pc : list CardRef) (sel : option CardRef) (p : t) : t :=
  mk (id p) (name p) (type p) (score p) h pc sel (isActive p) (stats p)
     (behaviorProfile p) (createdAt p).

Definition set_stats (v : Stats.t) (p : t) : t :=
  mk (id p) (name p) (type p) (score p) (hand p) (placedCards p)
     (selectedCard p) (isActive p) v (behaviorProfile p) (createdAt p).

Definition set_behaviorProfile (v : BehaviorProfile.t) (p : t) : t :=
  mk (id p) (name p) (type p) (score p) (hand p) (placedCards p)
     (selectedCard p) (isActive p) (stats p) v (createdAt p).

(** [hasWon] only reads the two players. *)
Definition hasWon (this opponent : t) : bool :=
  (GAME_CONFIG.VICTORY_POINTS <=? score this)
  && (score opponent + GAME_CONFIG.MIN_VICTORY_LEAD <=? score this).

(** The effect of [updateBehaviorProfile] on the player object, [now] being
    the value of [Date.now()]. The "challengeReceived" action has no case in
    the [switch]; the "cardPlayed" case reads [actualType] and [position]
    from the data its caller [playCard] builds. *)
Definition updatedBehaviorProfile (actionType : ActionType)
    (actionData : ActionData) (now : Z) (p : t) : t :=
  let bp := behaviorProfile p in
  let pushed := BehaviorProfile.recentActions bp ++ [Action.mk actionType actionData now] in
  let recent := if (20 <? Z.of_nat (length pushed)) then tail pushed else pushed in
  let bp' :=
    match actionType with
    | cardPlayed =>
        let totalPlays := Stats.cardsPlayed (stats p) in
        let freq := Quot.orZero (Quot.mk (Stats.bluffsAttempted (stats p)) totalPlays) in
        match actionData with
        | CardPlayedData actualType _ position _ =>
            let ctp := BehaviorProfile.cardTypePreferences bp in
            let pp := BehaviorProfile.positionPreferences bp in
            BehaviorProfile.mk freq (BehaviorProfile.challengingFrequency bp)
              (<[actualType := default 0 (ctp !! actualType) + 1]> ctp)
              (<[position := default 0 (pp !! position) + 1]> pp)
              recent
        | _ =>
            BehaviorProfile.mk freq (BehaviorProfile.challengingFrequency bp)
              (BehaviorProfile.cardTypePreferences bp)
              (BehaviorProfile.positionPreferences bp) recent
        end
    | challengeMade =>
        let totalChallenges := Stats.challengesMade (stats p) in
        BehaviorProfile.mk (BehaviorProfile.bluffingFrequency bp)
          (Quot.orZero (Quot.mk totalChallenges (Z.max 1 (Stats.cardsPlayed (stats p)))))
          (BehaviorProfile.cardTypePreferences bp)
          (BehaviorProfile.positionPreferences bp) recent
    | challengeReceived =>
        BehaviorProfile.mk (BehaviorProfile.bluffingFrequency bp)
          (BehaviorProfile.challengingFrequency bp)
          (BehaviorProfile.cardTypePreferences bp)
          (BehaviorProfile.positionPreferences bp) recent
    end in
  set_behaviorProfile bp' p.
End Player.

(** ** The objects of ChallengeSystem, GridSystem and BattleSystem *)

Module Play.
(** The object stored in [lastPlayedCard] by [registerPlay]. The claimed
    type is a member of [CARD_TYPES]: [Game.executePlay] validates it before
    the play is registered. *)
Record t := mk {
  card : CardRef;
  player : PlayerRef;
  claimedType : CardType;
  actualType : CardType;
  position : Z;
  timestamp : Z;
  challengeable : bool }.

Definition set_challengeable (v : bool) (p : t) : t :=
  mk (card p) (player p) (claimedType p) (actualType p) (position p)
     (timestamp p) v.
End Play.

Module ChallengeOutcome.
(** The object returned by [processChallenge]. *)
Record t := mk {
  result : ChallengeResult;
  wasBluff : bool;
  explanation : string;
  pointsChanged : Z;
  cardRevealed : bool;
  challenger : PlayerRef;
  defendingPlayer : PlayerRef;
  card : CardRef }.
End ChallengeOutcome.

Module ChallengeRecord.
(** An entry of [challengeHistory]. *)
Record t := mk {
  challenger : PlayerRef;
  defendingPlayer : PlayerRef;
  card : CardRef;
  claimedType : CardType;
  actualType : CardType;
  result : ChallengeResult;
  timestamp : Z;
  pointsChanged : Z }.
End ChallengeRecord.

Module MakeChallengeResult.
(** The object returned by [makeChallenge]. *)
Record t := mk {
  success : bool;
  error : option string;
  result : option ChallengeOutcome.t }.
End MakeChallengeResult.

Module ChallengeSystem.
(** [pendingChallenges] is only ever assigned the empty array. *)
Record t := mk {
  challengeHistory : list ChallengeRecord.t;
  lastPlayedCard : option Play.t;
  challengeTimeWindow : Z;
  challengeTimer : option TimerId }.

Definition new : t := mk [] None 5000 None.

Definition set_challengeHistory (v : list ChallengeRecord.t) (c : t) : t :=
  mk v (lastPlayedCard c) (challengeTimeWindow c) (challengeTimer c).

Definition set_lastPlayedCard (v : option Play.t) (c : t) : t :=
  mk (challengeHistory c) v (challengeTimeWindow c) (challengeTimer c).

Definition set_challengeTimer (v : option TimerId) (c : t) : t :=
  mk (challengeHistory c) (lastPlayedCard c) (challengeTimeWindow c) v.
End ChallengeSystem.

Module Change.
(** An entry of the grid's [changeHistory]. *)
Record t := mk {
  action : string;
  position : Z;
  cardId : option string;
  timestamp : Z }.
End Change.

Module GridSystem.
Record t := mk {
  width : Z;
  height : Z;
  totalPositions : Z;
  grid : list (option CardRef);
  positionStates : list PositionState;
  lastModified : Z;
  changeHistory : list Change.t }.

(** [new GridSystem(width, height)], created at time [now]. *)
Definition new (w h now : Z) : t :=
  mk w h (w * h) (replicate (Z.to_nat (w * h)) None)
     (replicate (Z.to_nat (w * h)) EMPTY) now [].

Definition set_grid (v : list (option CardRef)) (g : t) : t :=
  mk (width g) (height g) (totalPositions g) v (positionStates g)
     (lastModified g) (changeHistory g).

Definition set_positionStates (v : list PositionState) (g : t) : t :=
  mk (width g) (height g) (totalPositions g) (grid g) v
     (lastModified g) (changeHistory g).

Definition set_lastModified (v : Z) (g : t) : t :=
  mk (width g) (height g) (totalPositions g) (grid g) (positionStates g)
     v (changeHistory g).

Definition set_changeHistory (v : list Change.t) (g : t) : t :=
  mk (width g) (height g) (totalPositions g) (grid g) (positionStates g)
     (lastModified g) v.
End GridSystem.

Module Coords.
Record t := mk { row : Z; col : Z }.
End Coords.

Module Battle.
(** A battle pair, as built by [getBattlePairs] and [identifyBattles]. *)
Record t := mk {
  position1 : Z;
  card1 : CardRef;
  position2 : Z;
  card2 : CardRef;
  type : string }.
End Battle.

Module BattleSystem.
(** Of the fields of [BattleSystem], [identifyBattles] touches
    [battleQueue] only (and reads the grid). *)
Record t := mk { battleQueue : list Battle.t; isProcessing : bool }.

Definition new : t := mk [] false.

Definition set_battleQueue (v : list Battle.t) (b : t) : t :=
  mk v (isProcessing b).
End BattleSystem.

(** ** The event bus, as a log of emitted events

    A payload that is an object reference to a play is recorded by the value
    the object has when the event is emitted. *)
Inductive Event :=
  | SCORE_UPDATE (player : PlayerRef) (oldScore newScore pointsAdded : Z)
  | CHALLENGE_WINDOW_OPEN (play : Play.t) (timeWindow : Z)
  | CHALLENGE_WINDOW_CLOSED (lastPlay : option Play.t)
  | CHALLENGE_MADE (challenger defendingPlayer : PlayerRef)
      (challengeResult : ChallengeOutcome.t)
  | PLAY_CONFIRMED (player : PlayerRef) (card : CardRef) (position : Z)
      (claim : CardType)
  | UI_UPDATE (action : string) (card : CardRef) (position : Z).

(** ** The world: object store, singletons of the game, environment *)

Module World.
Record t := mk {
  players : gmap PlayerRef Player.t;
  cards : gmap CardRef Card.t;
  challengeSystem : ChallengeSystem.t;
  gridSystem : GridSystem.t;
  battleSystem : BattleSystem.t;
  clock : Z;
  timers : gset TimerId;
  nextTimer : TimerId;
  events : list Event }.

Definition set_players (v : gmap PlayerRef Player.t) (w : t) : t :=
  mk v (cards w) (challengeSystem w) (gridSystem w) (battleSystem w)
     (clock w) (timers w) (nextTimer w) (events w).

Definition set_cards (v : gmap CardRef Card.t) (w : t) : t :=
  mk (players w) v (challengeSystem w) (gridSystem w) (battleSystem w)
     (clock w) (timers w) (nextTimer w) (events w).

Definition set_challengeSystem (v : ChallengeSystem.t) (w : t) : t :=
  mk (players w) (cards w) v (gridSystem w) (battleSystem w)
     (clock w) (timers w) (nextTimer w) (events w).

Definition set_gridSystem (v : GridSystem.t) (w : t) : t :=
  mk (players w) (cards w) (challengeSystem w) v (battleSystem w)
     (clock w) (timers w) (nextTimer w) (events w).

Definition set_battleSystem (v : BattleSystem.t) (w : t) : t :=
  mk (players w) (cards w) (challengeSystem w) (gridSystem w) v
     (clock w) (timers w) (nextTimer w) (events w).

Definition set_clock (v : Z) (w : t) : t :=
  mk (players w) (cards w) (challengeSystem w) (gridSystem w)
     (battleSystem w) v (timers w) (nextTimer w) (events w).

Definition set_timers (v : gset TimerId) (w : t) : t :=
  mk (players w) (cards w) (challengeSystem w) (gridSystem w)
     (battleSystem w) (clock w) v (nextTimer w) (events w).

Definition set_nextTimer (v : TimerId) (w : t) : t :=
  mk (players w) (cards w) (challengeSystem w) (gridSystem w)
     (battleSystem w) (clock w) (timers w) v (events w).

Definition set_events (v : list Event) (w : t) : t :=
  mk (players w) (cards w) (challengeSystem w) (gridSystem w)
     (battleSystem w) (clock w) (timers w) (nextTimer w) v.
End World.

(** ** The monad of the engine: state over the world, with exceptions *)

Inductive Result (A : Type) :=
  | Ok (a : A)
  | Throw (msg : string).
Arguments Ok {A} a.
Arguments Throw {A} msg.

Definition M (A : Type) : Type := World.t -> Result (A * World.t).

Definition ret {A} (a : A) : M A := fun w => Ok (a, w).

Definition bind {A B} (m : M A) (k : A -> M B) : M B :=
  fun w =>
    match m w with
    | Ok (a, w') => k a w'
    | Throw msg => Throw msg
    end.

Definition throw {A} (msg : string) : M A := fun _ => Throw msg.

Definition gets {A} (f : World.t -> A) : M A := fun w => Ok (f w, w).

Definition modify (f : World.t -> World.t) : M unit := fun w => Ok (tt, f w).

Notation "'let*' x ':=' m 'in' k" := (bind m (fun x => k))
  (at level 10, x name, m at level 100, k at level 200).
Notation "m ;;; k" := (bind m (fun _ => k))
  (at level 100, k at level 200, right associativity).

(** [Date.now()]. *)
Definition now : M Z := gets World.clock.

(** [eventBus.emit]. *)
Definition emit (e : Event) : M unit :=
  modify (fun w => World.set_events (World.events w ++ [e]) w).

(** [setTimeout] of the challenge-window callback: the handle is a positive
    number (hence truthy), [nextTimer] being the next one to hand out. *)
Definition setTimeout : M TimerId :=
  fun w =>
    let h := World.nextTimer w in
    Ok (h, World.set_nextTimer (Pos.succ h)
             (World.set_timers ({[h]} ∪ World.timers w) w)).

Definition clearTimeout (h : TimerId) : M unit :=
  modify (fun w => World.set_timers (World.timers w ∖ {[h]}) w).

(** Reading an object through a reference; a reference to no object stands
    for a value that is not an instance of the class. *)
Definition getPlayer (r : PlayerRef) : M Player.t :=
  fun w =>
    match World.players w !! r with
    | Some p => Ok (p, w)
    | None => Throw "not a Player"
    end.

Definition getCard (r : CardRef) : M Card.t :=
  fun w =>
    match World.cards w !! r with
    | Some c => Ok (c, w)
    | None => Throw "not a Card"
    end.

Definition setPlayer (r : PlayerRef) (p : Player.t) : M unit :=
  modify (fun w => World.set_players (<[r := p]> (World.players w)) w).

Definition setCard (r : CardRef) (c : Card.t) : M unit :=
  modify (fun w => World.set_cards (<[r := c]> (World.cards w)) w).

Definition getChallengeSystem : M ChallengeSystem.t := gets World.challengeSystem.

Definition setChallengeSystem (c : ChallengeSystem.t) : M unit :=
  modify (World.set_challengeSystem c).

Definition getGridSystem : M GridSystem.t := gets World.gridSystem.

Definition setGridSystem (g : GridSystem.t) : M unit :=
  modify (World.set_gridSystem g).

(** [x instanceof Player], [x instanceof Card]. *)
Definition isPlayer (r : PlayerRef) : M bool :=
  gets (fun w => bool_decide (is_Some (World.players w !! r))).

Definition isCard (r : CardRef) : M bool :=
  gets (fun w => bool_decide (is_Some (World.cards w !! r))).

(** ** Player: the methods that change the store *)

Definition addScore (this : PlayerRef) (points : Z) : M unit :=
  let* p := getPlayer this in
  let oldScore := Player.score p in
  let p1 := Player.set_score (Z.max 0 (Player.score p + points)) p in
  let p2 :=
    if 0 <? points
    then Player.set_stats
           (Stats.set_totalPoints (Stats.totalPoints (Player.stats p1) + points)
              (Player.stats p1)) p1
    else p1 in
  setPlayer this p2 ;;;
  emit (SCORE_UPDATE this oldScore (Player.score p2) points).

Definition updateBehaviorProfile (this : PlayerRef) (actionType : ActionType)
    (actionData : ActionData) : M unit :=
  let* p := getPlayer this in
  let* t := now in
  setPlayer this (Player.updatedBehaviorProfile actionType actionData t p).

(** [hand.splice(hand.indexOf(card), 1)] for a card that is in the hand. *)
Fixpoint spliceOut (card : CardRef) (hand : list CardRef) : list CardRef :=
  match hand with
  | [] => []
  | c :: rest => if bool_decide (c = card) then rest else c :: spliceOut card rest
  end.

(** ** Card: the methods that change the store *)

Definition place (this : CardRef) (position : Z) : M unit :=
  if (position <? 0) || (GAME_CONFIG.TOTAL_POSITIONS <=? position)
  then throw "Invalid grid position"
  else
    let* c := getCard this in
    let* t := now in
    setCard this (Card.placed position t c).

Definition reveal (this : CardRef) : M unit :=
  let* c := getCard this in
  let* t := now in
  setCard this (Card.revealed t c).

(** [Player.playCard]; the claimed type is a member of [CARD_TYPES], and
    [setClaim] is the first call on the card. *)
Definition playCard (this : PlayerRef) (card : CardRef) (position : Z)
    (claimedType : CardType) : M bool :=
  let* okCard := isCard card in
  if negb okCard then throw "Invalid card"
  else
    let* p := getPlayer this in
    if negb (bool_decide (card ∈ Player.hand p)) then throw "Card not in player hand"
    else if (position <? 0) || (GAME_CONFIG.TOTAL_POSITIONS <=? position)
    then throw "Invalid grid position"
    else
      setPlayer this
        (Player.set_cards (spliceOut card (Player.hand p)) (Player.placedCards p)
           (Player.selectedCard p) p) ;;;
      let* c := getCard card in
      setCard card (Card.setClaim claimedType c) ;;;
      place card position ;;;
      let* p := getPlayer this in
      setPlayer this
        (Player.set_cards (Player.hand p) (Player.placedCards p ++ [card]) None p) ;;;
      let* p := getPlayer this in
      setPlayer this
        (Player.set_stats
           (Stats.set_cardsPlayed (Stats.cardsPlayed (Player.stats p) + 1)
              (Player.stats p)) p) ;;;
      let* c := getCard card in
      let* p := getPlayer this in
      (if Card.isBluffing c
       then setPlayer this
              (Player.set_stats
                 (Stats.set_bluffsAttempted
                    (Stats.bluffsAttempted (Player.stats p) + 1) (Player.stats p)) p)
       else ret tt) ;;;
      let* c := getCard card in
      updateBehaviorProfile this cardPlayed
        (CardPlayedData (Card.type c) claimedType position (Card.isBluffing c)) ;;;
      emit (PLAY_CONFIRMED this card position claimedType) ;;;
      ret true.

(** ** ChallengeSystem *)

Definition registerPlay (card : CardRef) (player : PlayerRef)
    (claimedType : CardType) (position : Z) : M unit :=
  let* okCard := isCard card in
  let* okPlayer := isPlayer player in
  if negb okCard || negb okPlayer
  then throw "Invalid card or player for challenge registration"
  else
    let* cs := getChallengeSystem in
    match ChallengeSystem.challengeTimer cs with
    | Some h => clearTimeout h
    | None => ret tt
    end ;;;
    let* c := getCard card in
    let* t := now in
    let play := Play.mk card player claimedType (Card.type c) position t true in
    let* cs := getChallengeSystem in
    setChallengeSystem (ChallengeSystem.set_lastPlayedCard (Some play) cs) ;;;
    let* h := setTimeout in
    let* cs := getChallengeSystem in
    setChallengeSystem (ChallengeSystem.set_challengeTimer (Some h) cs) ;;;
    let* cs := getChallengeSystem in
    emit (CHALLENGE_WINDOW_OPEN play (ChallengeSystem.challengeTimeWindow cs)).

Definition processChallenge (challenger : PlayerRef) (playData : Play.t)
    : M ChallengeOutcome.t :=
  let card := Play.card playData in
  let player := Play.player playData in
  let claimedType := Play.claimedType playData in
  let actualType := Play.actualType playData in
  let wasBluff := negb (bool_decide (claimedType = actualType)) in
  let* verdict :=
    (if wasBluff then
      let* pl := getPlayer player in
      let explanation :=
        Player.name pl +:+ " was bluffing! Claimed "
          +:+ CardInfo.name (CARD_INFO claimedType) +:+ " but played "
          +:+ CardInfo.name (CARD_INFO actualType) in
      let* ch := getPlayer challenger in
      setPlayer challenger
        (Player.set_stats
           (Stats.set_challengesSuccessful
              (Stats.challengesSuccessful (Player.stats ch) + 1) (Player.stats ch))
           ch) ;;;
      let* pl := getPlayer player in
      setPlayer player
        (Player.set_stats
           (Stats.set_bluffsAttempted
              (Stats.bluffsAttempted (Player.stats pl) - 1) (Player.stats pl))
           pl) ;;;
      ret (SUCCESSFUL, 0, explanation)
    else
      let* pl := getPlayer player in
      let explanation :=
        Player.name pl
          +:+ " was telling the truth! Both claimed and actual type are "
          +:+ CardInfo.name (CARD_INFO actualType) in
      addScore challenger (- SCORING.CHALLENGE_PENALTY) ;;;
      let* pl := getPlayer player in
      setPlayer player
        (Player.set_stats
           (Stats.set_truthfulPlays
              (default 0 (Stats.truthfulPlays (Player.stats pl)) + 1)
              (Player.stats pl))
           pl) ;;;
      ret (FAILED, - SCORING.CHALLENGE_PENALTY, explanation))
    : M (ChallengeResult * Z * string) in
  let '(result, pointsChanged, explanation) := verdict in
  reveal card ;;;
  let* pl := getPlayer player in
  updateBehaviorProfile challenger challengeMade
    (ChallengeMadeData (Player.id pl)
       (bool_decide (result = SUCCESSFUL)) actualType claimedType) ;;;
  let* ch := getPlayer challenger in
  updateBehaviorProfile player challengeReceived
    (ChallengeReceivedData (Player.id ch) wasBluff actualType claimedType result) ;;;
  ret (ChallengeOutcome.mk result wasBluff explanation pointsChanged true
         challenger player card).

Definition noChallengeablePlay : MakeChallengeResult.t :=
  MakeChallengeResult.mk false (Some "No challengeable play available") None.

Definition ownPlay : MakeChallengeResult.t :=
  MakeChallengeResult.mk false (Some "Cannot challenge your own play") None.

Definition makeChallenge (challenger : PlayerRef) : M MakeChallengeResult.t :=
  let* okChallenger := isPlayer challenger in
  if negb okChallenger then throw "Invalid challenger"
  else
    let* cs := getChallengeSystem in
    match ChallengeSystem.lastPlayedCard cs with
    | None => ret noChallengeablePlay
    | Some play =>
        if negb (Play.challengeable play) then ret noChallengeablePlay
        else if bool_decide (challenger = Play.player play) then ret ownPlay
        else
          match ChallengeSystem.challengeTimer cs with
          | Some h =>
              clearTimeout h ;;;
              setChallengeSystem (ChallengeSystem.set_challengeTimer None cs)
          | None => ret tt
          end ;;;
          let* challengeResult := processChallenge challenger play in
          let* t := now in
          let* cs := getChallengeSystem in
          setChallengeSystem
            (ChallengeSystem.set_challengeHistory
               (ChallengeSystem.challengeHistory cs ++
                  [ChallengeRecord.mk challenger (Play.player play)
                     (Play.card play) (Play.claimedType play)
                     (Play.actualType play)
                     (ChallengeOutcome.result challengeResult) t
                     (ChallengeOutcome.pointsChanged challengeResult)])
               cs) ;;;
          let* cs := getChallengeSystem in
          setChallengeSystem
            (ChallengeSystem.set_lastPlayedCard
               (Play.set_challengeable false <$> ChallengeSystem.lastPlayedCard cs)
               cs) ;;;
          emit (CHALLENGE_MADE challenger (Play.player play) challengeResult) ;;;
          ret (MakeChallengeResult.mk true None (Some challengeResult))
    end.

Definition closeChallengeWindow : M unit :=
  let* cs := getChallengeSystem in
  setChallengeSystem
    (ChallengeSystem.set_lastPlayedCard
       (Play.set_challengeable false <$> ChallengeSystem.lastPlayedCard cs) cs) ;;;
  let* cs := getChallengeSystem in
  match ChallengeSystem.challengeTimer cs with
  | Some h =>
      clearTimeout h ;;;
      setChallengeSystem (ChallengeSystem.set_challengeTimer None cs)
  | None => ret tt
  end ;;;
  let* cs := getChallengeSystem in
  emit (CHALLENGE_WINDOW_CLOSED (ChallengeSystem.lastPlayedCard cs)).

Definition canChallenge : M bool :=
  let* cs := getChallengeSystem in
  let* t := now in
  ret match ChallengeSystem.lastPlayedCard cs with
      | None => false
      | Some play =>
          Play.challengeable play
          && (t - Play.timestamp play <? ChallengeSystem.challengeTimeWindow cs)
      end.

Definition forceCloseChallenges : M unit := closeChallengeWindow.

(** The environment runs the callback of a pending timer: the callback that
    [registerPlay] schedules is [closeChallengeWindow]. A handle that is not
    pending (cleared, or already run) does nothing. *)
Definition fireTimer (h : TimerId) : M unit :=
  let* pending := gets (fun w => bool_decide (h ∈ World.timers w)) in
  if pending
  then modify (fun w => World.set_timers (World.timers w ∖ {[h]}) w) ;;;
       closeChallengeWindow
  else ret tt.

(** ** GridSystem *)

(** [this.grid[position]] for an integer index: [None] when the index is
    outside the array ([undefined]), [Some None] for [null]. *)
Definition gridSlot (g : GridSystem.t) (position : Z) : option (option CardRef) :=
  if position <? 0 then None else GridSystem.grid g !! Z.to_nat position.

Definition coordsToPosition (row col : Z) : M Z :=
  let* g := getGridSystem in
  if (row <? 0) || (GridSystem.height g <=? row)
     || (col <? 0) || (GridSystem.width g <=? col)
  then throw "Invalid coordinates"
  else ret (row * GridSystem.width g + col).

(** [Math.floor(position / width)] is the floor quotient and [%] the
    truncated remainder, for a width that is not 0. *)
Definition positionToCoords (position : Z) : M Coords.t :=
  let* g := getGridSystem in
  if (position <? 0) || (GridSystem.totalPositions g <=? position)
  then throw "Invalid position"
  else ret (Coords.mk (position / GridSystem.width g)
                      (Z.rem position (GridSystem.width g))).

Definition isPositionAvailable (position : Z) : M bool :=
  let* g := getGridSystem in
  ret ((0 <=? position) && (position <? GridSystem.totalPositions g)
       && bool_decide (gridSlot g position = Some None)).

Definition isPositionOccupied (position : Z) : M bool :=
  let* g := getGridSystem in
  ret ((0 <=? position) && (position <? GridSystem.totalPositions g)
       && negb (bool_decide (gridSlot g position = Some None))).

Definition getCardAt (position : Z) : M (option CardRef) :=
  let* g := getGridSystem in
  if (position <? 0) || (GridSystem.totalPositions g <=? position)
  then ret None
  else ret (default None (gridSlot g position)).

(** [recordChange] with a card argument and the default empty metadata. *)
Definition recordChange (action : string) (position : Z) (card : CardRef) : M unit :=
  let* c := getCard card in
  let* t := now in
  let change := Change.mk action position (Some (Card.id c)) t in
  let* g := getGridSystem in
  setGridSystem (GridSystem.set_changeHistory (GridSystem.changeHistory g ++ [change]) g) ;;;
  let* t := now in
  let* g := getGridSystem in
  setGridSystem (GridSystem.set_lastModified t g) ;;;
  let* g := getGridSystem in
  if 100 <? Z.of_nat (length (GridSystem.changeHistory g))
  then setGridSystem (GridSystem.set_changeHistory (tail (GridSystem.changeHistory g)) g)
  else ret tt.

(** The two array writes of [placeCard] and [removeCard] use a position that
    passed the range check; the arrays have [totalPositions] slots. *)
Definition placeCard (card : CardRef) (position : Z) : M bool :=
  let* okCard := isCard card in
  if negb okCard then throw "Invalid card instance"
  else
    let* available := isPositionAvailable position in
    if negb available then throw "Position is not available"
    else
      let* g := getGridSystem in
      setGridSystem
        (GridSystem.set_grid (<[Z.to_nat position := Some card]> (GridSystem.grid g)) g) ;;;
      let* g := getGridSystem in
      setGridSystem
        (GridSystem.set_positionStates
           (<[Z.to_nat position := OCCUPIED]> (GridSystem.positionStates g)) g) ;;;
      place card position ;;;
      recordChange "place" position card ;;;
      emit (UI_UPDATE "card_placed" card position) ;;;
      ret true.

Definition removeCard (position : Z) : M (option CardRef) :=
  let* g := getGridSystem in
  if (position <? 0) || (GridSystem.totalPositions g <=? position)
  then throw "Invalid position"
  else
    match default None (gridSlot g position) with
    | Some card =>
        setGridSystem
          (GridSystem.set_grid (<[Z.to_nat position := None]> (GridSystem.grid g)) g) ;;;
        let* g := getGridSystem in
        setGridSystem
          (GridSystem.set_positionStates
             (<[Z.to_nat position := EMPTY]> (GridSystem.positionStates g)) g) ;;;
        recordChange "remove" position card ;;;
        emit (UI_UPDATE "card_removed" card position) ;;;
        ret (Some card)
    | None => ret None
    end.

(** The body of the loop of [getBattlePairs], run [n] times from
    [position] on. *)
Fixpoint getBattlePairs_loop (n : nat) (position : Z) (battles : list Battle.t)
    : M (list Battle.t) :=
  match n with
  | O => ret battles
  | S n' =>
      let* currentCard := getCardAt position in
      let* nextCard := getCardAt (position + 1) in
      let* currentCoords := positionToCoords position in
      let* nextCoords := positionToCoords (position + 1) in
      let battles' :=
        match currentCard, nextCard with
        | Some c1, Some c2 =>
            if (Coords.row currentCoords =? Coords.row nextCoords)
               && (Coords.col nextCoords =? Coords.col currentCoords + 1)
            then battles ++ [Battle.mk position c1 (position + 1) c2 "horizontal"]
            else battles
        | _, _ => battles
        end in
      getBattlePairs_loop n' (position + 1) battles'
  end.

(** [for (position = 0; position < totalPositions - 1; position++)] runs
    [totalPositions - 1] times, or not at all. *)
Definition getBattlePairs : M (list Battle.t) :=
  let* g := getGridSystem in
  getBattlePairs_loop (Z.to_nat (GridSystem.totalPositions g - 1)) 0 [].

(** ** BattleSystem: identifyBattles *)

Definition pushBattle (b : Battle.t) : M unit :=
  modify (fun w =>
    World.set_battleSystem
      (BattleSystem.set_battleQueue
         (BattleSystem.battleQueue (World.battleSystem w) ++ [b])
         (World.battleSystem w)) w).

Fixpoint identifyBattles_loop (n : nat) (position : Z) : M unit :=
  match n with
  | O => ret tt
  | S n' =>
      let* card1 := getCardAt position in
      let* card2 := getCardAt (position + 1) in
      match card1, card2 with
      | Some c1, Some c2 =>
          let* coords1 := positionToCoords position in
          let* coords2 := positionToCoords (position + 1) in
          if (Coords.row coords1 =? Coords.row coords2)
             && (Coords.col coords2 =? Coords.col coords1 + 1)
          then pushBattle (Battle.mk position c1 (position + 1) c2 "horizontal")
          else ret tt
      | _, _ => ret tt
      end ;;;
      identifyBattles_loop n' (position + 1)
  end.

Definition identifyBattles : M unit :=
  let* g := getGridSystem in
  identifyBattles_loop (Z.to_nat (GridSystem.totalPositions g - 1)) 0.

(** ** Runs of several calls *)

(** A sequence of [addScore] calls on one player; the result lists the score
    read after each call. *)
Fixpoint addScores (this : PlayerRef) (points : list Z) : M (list Z) :=
  match points with
  | [] => ret []
  | pts :: rest =>
      addScore this pts ;;;
      let* p := getPlayer this in
      let* later := addScores this rest in
      ret (Player.score p :: later)
  end.

(** The scores that clamping at 0 gives from score [s] on. *)
Fixpoint clampedScores (s : Z) (points : list Z) : list Z :=
  match points with
  | [] => []
  | pts :: rest =>
      let s' := Z.max 0 (s + pts) in
      s' :: clampedScores s' rest
  end.

(** What can happen to a registered play before the next one is registered:
    a player challenges, the window is closed by hand, or a timer runs. *)
Inductive ChallengeOp :=
  | DoMakeChallenge (challenger : PlayerRef)
  | DoCloseChallengeWindow
  | DoFireTimer (h : TimerId).

(** One such call made by the game loop, which catches an exception of the
    call ([Game.handleChallenge]); the first component tells whether the call
    was a successful challenge. *)
Definition stepOp (op : ChallengeOp) (w : World.t) : bool * World.t :=
  match op with
  | DoMakeChallenge challenger =>
      match makeChallenge challenger w with
      | Ok (r, w') => (MakeChallengeResult.success r, w')
      | Throw _ => (false, w)
      end
  | DoCloseChallengeWindow =>
      match closeChallengeWindow w with
      | Ok (_, w') => (false, w')
      | Throw _ => (false, w)
      end
  | DoFireTimer h =>
      match fireTimer h w with
      | Ok (_, w') => (false, w')
      | Throw _ => (false, w)
      end
  end.

(** The number of successful challenges in a run, and the world it ends in. *)
Fixpoint runOps (ops : list ChallengeOp) (w : World.t) : nat * World.t :=
  match ops with
  | [] => (O, w)
  | op :: rest =>
      let '(ok, w') := stepOp op w in
      let '(n, w'') := runOps rest w' in
      ((if ok then S n else n), w'')
  end.

(** ** The grid of the specification *)

Module GridSpec.
(** A grid as its constructor leaves it and [placeCard]/[removeCard] keep
    it: [width * height] slots in each array. *)
Definition wf (g : GridSystem.t) : Prop :=
  0 <= GridSystem.width g /\ 0 <= GridSystem.height g
  /\ GridSystem.totalPositions g = GridSystem.width g * GridSystem.height g
  /\ Z.of_nat (length (GridSystem.grid g)) = GridSystem.totalPositions g
  /\ Z.of_nat (length (GridSystem.positionStates g)) = GridSystem.totalPositions g.

(** Row-major indexing: [index = row * width + col]. *)
Definition row (g : GridSystem.t) (p : Z) : Z := p / GridSystem.width g.
Definition col (g : GridSystem.t) (p : Z) : Z := p mod GridSystem.width g.

(** The card held by slot [p], if any. *)
Definition cardIn (g : GridSystem.t) (p : Z) : option CardRef :=
  mjoin (GridSystem.grid g !! Z.to_nat p).

(** [p] and [p + 1] lie in the same row, [p + 1] in the next column. *)
Definition sameRowNextCol (g : GridSystem.t) (p : Z) : bool :=
  (row g p =? row g (p + 1)) && (col g (p + 1) =? col g p + 1).

Definition pairAt (g : GridSystem.t) (p : Z) : option Battle.t :=
  match cardIn g p, cardIn g (p + 1) with
  | Some c1, Some c2 =>
      if sameRowNextCol g p
      then Some (Battle.mk p c1 (p + 1) c2 "horizontal")
      else None
  | _, _ => None
  end.

(** The occupied, same-row, column-adjacent pairs for p in 0..N-2, in
    increasing order of p. *)
Definition battlePairs (g : GridSystem.t) : list Battle.t :=
  omap (pairAt g) (seqZ 0 (GridSystem.totalPositions g - 1)).
End GridSpec.

(** ** A match in progress, used to exercise the definitions *)

Module Sample.
Definition human : PlayerRef := 0%nat.
Definition ai : PlayerRef := 1%nat.

Definition rockCard : CardRef := 0%nat.
Definition paperCard : CardRef := 1%nat.
Definition scissorsCard : CardRef := 2%nat.

(** The world after [initializeGame]: two players, three cards dealt to
    the AI, the default 5 x 3 grid, no play registered. *)
Definition world : World.t :=
  World.mk
    {[ human := Player.new "human" "Player" HUMAN 0;
       ai := Player.set_cards [rockCard; paperCard; scissorsCard] [] None
               (Player.new "ai" "AI Opponent" AI 0) ]}
    {[ rockCard := Card.setOwner ai (Card.new ROCK "card_0" 0);
       paperCard := Card.setOwner ai (Card.new PAPER "card_1" 0);
       scissorsCard := Card.setOwner ai (Card.new SCISSORS "card_2" 0) ]}
    ChallengeSystem.new
    (GridSystem.new GAME_CONFIG.GRID_WIDTH GAME_CONFIG.GRID_HEIGHT 0)
    BattleSystem.new 0 ∅ 1%positive [].

(** The world a computation ends in; the starting world if it throws. *)
Definition after {A} (m : M A) (w : World.t) : World.t :=
  match m w with
  | Ok (_, w') => w'
  | Throw _ => w
  end.

(** The human player holds [n] points. *)
Definition withHumanScore (n : Z) (w : World.t) : World.t :=
  World.set_players (alter (Player.set_score n) human (World.players w)) w.

(** [Game.executePlay] for the AI, after its validation. *)
Definition executePlay (card : CardRef) (position : Z) (claimedType : CardType)
    : M unit :=
  placeCard card position ;;;
  playCard ai card position claimedType ;;;
  registerPlay card ai claimedType position.

(** The AI plays its rock at position 3 and claims paper. *)
Definition bluffed : World.t := after (executePlay rockCard 3 PAPER) world.

(** The AI plays its rock at position 3 and claims rock. *)
Definition truthful : World.t := after (executePlay rockCard 3 ROCK) world.

(** Cards at positions 4 (the end of the first row), 5 and 6. *)
Definition crowded : World.t :=
  after (executePlay rockCard 4 ROCK ;;; executePlay paperCard 5 PAPER ;;;
         executePlay scissorsCard 6 ROCK) world.
End Sample.

(** ** GridSystem: queries, neighbours and position states *)

Module CardEntry.
(** An entry of [getAllCards]; [card = None] is the [undefined] that a slot
    beyond the array would give. *)
Record t := mk { card : option CardRef; position : Z }.
End CardEntry.

Fixpoint getAllCards_loop (n : nat) (i : Z) (cards : list CardEntry.t)
    : M (list CardEntry.t) :=
  match n with
  | O => ret cards
  | S n' =>
      let* g := getGridSystem in
      let cards' :=
        if negb (bool_decide (gridSlot g i = Some None))
        then cards ++ [CardEntry.mk (mjoin (gridSlot g i)) i]
        else cards in
      getAllCards_loop n' (i + 1) cards'
  end.

Definition getAllCards : M (list CardEntry.t) :=
  let* g := getGridSystem in
  getAllCards_loop (Z.to_nat (GridSystem.totalPositions g)) 0 [].

Fixpoint getEmptyPositions_loop (n : nat) (i : Z) (empty : list Z) : M (list Z) :=
  match n with
  | O => ret empty
  | S n' =>
      let* g := getGridSystem in
      let empty' :=
        if bool_decide (gridSlot g i = Some None) then empty ++ [i] else empty in
      getEmptyPositions_loop n' (i + 1) empty'
  end.

Definition getEmptyPositions : M (list Z) :=
  let* g := getGridSystem in
  getEmptyPositions_loop (Z.to_nat (GridSystem.totalPositions g)) 0 [].

(** The direction vectors of [getAdjacentPositions], in the order of the
    source. *)
Definition directions4 : list (Z * Z) := [(-1, 0); (0, -1); (0, 1); (1, 0)].

Definition directions8 : list (Z * Z) :=
  [(-1, -1); (-1, 0); (-1, 1); (0, -1); (0, 1); (1, -1); (1, 0); (1, 1)].

Fixpoint getAdjacentPositions_loop (directions : list (Z * Z)) (coords : Coords.t)
    (adjacent : list Z) : M (list Z) :=
  match directions with
  | [] => ret adjacent
  | (dRow, dCol) :: rest =>
      let* g := getGridSystem in
      let newRow := Coords.row coords + dRow in
      let newCol := Coords.col coords + dCol in
      if (0 <=? newRow) && (newRow <? GridSystem.height g)
         && (0 <=? newCol) && (newCol <? GridSystem.width g)
      then
        let* q := coordsToPosition newRow newCol in
        getAdjacentPositions_loop rest coords (adjacent ++ [q])
      else getAdjacentPositions_loop rest coords adjacent
  end.

Definition getAdjacentPositions (position : Z) (includeAdjoining : bool)
    : M (list Z) :=
  let* g := getGridSystem in
  if (position <? 0) || (GridSystem.totalPositions g <=? position)
  then ret []
  else
    let* coords := positionToCoords position in
    getAdjacentPositions_loop
      (if includeAdjoining then directions8 else directions4) coords [].

Module HorizontalNeighbors.
Record t := mk { left : option Z; right : option Z }.
End HorizontalNeighbors.

Definition getHorizontalNeighbors (position : Z) : M HorizontalNeighbors.t :=
  let* coords := positionToCoords position in
  let* g := getGridSystem in
  let* l :=
    (if 0 <? Coords.col coords
     then let* q := coordsToPosition (Coords.row coords) (Coords.col coords - 1) in
          ret (Some q)
     else ret None) : M (option Z) in
  let* r :=
    (if Coords.col coords <? GridSystem.width g - 1
     then let* q := coordsToPosition (Coords.row coords) (Coords.col coords + 1) in
          ret (Some q)
     else ret None) : M (option Z) in
  ret (HorizontalNeighbors.mk l r).

Definition getDistance (pos1 pos2 : Z) : M Z :=
  let* coords1 := positionToCoords pos1 in
  let* coords2 := positionToCoords pos2 in
  ret (Z.abs (Coords.row coords1 - Coords.row coords2)
       + Z.abs (Coords.col coords1 - Coords.col coords2)).

Definition setPositionState (position : Z) (state : PositionState) : M unit :=
  let* g := getGridSystem in
  if (0 <=? position) && (position <? GridSystem.totalPositions g)
  then setGridSystem
         (GridSystem.set_positionStates
            (<[Z.to_nat position := state]> (GridSystem.positionStates g)) g)
  else ret tt.

(** [getPositionState]; [None] is the [undefined] of an index beyond the
    array. *)
Definition getPositionState (position : Z) : M (option PositionState) :=
  let* g := getGridSystem in
  if (0 <=? position) && (position <? GridSystem.totalPositions g)
  then ret (GridSystem.positionStates g !! Z.to_nat position)
  else ret (Some EMPTY).

Fixpoint clearAllStates_loop (n : nat) (i : Z) : M unit :=
  match n with
  | O => ret tt
  | S n' =>
      let* g := getGridSystem in
      (if negb (bool_decide (gridSlot g i = Some None))
       then setGridSystem
              (GridSystem.set_positionStates
                 (<[Z.to_nat i := OCCUPIED]> (GridSystem.positionStates g)) g)
       else ret tt) ;;;
      clearAllStates_loop n' (i + 1)
  end.

Definition clearAllStates : M unit :=
  let* g := getGridSystem in
  setGridSystem
    (GridSystem.set_positionStates
       (replicate (length (GridSystem.positionStates g)) EMPTY) g) ;;;
  let* g := getGridSystem in
  clearAllStates_loop (Z.to_nat (GridSystem.totalPositions g)) 0.

(** The two loops over the slots, as filters of the positions. *)
Definition entryAt (g : GridSystem.t) (i : Z) : option CardEntry.t :=
  (fun c => CardEntry.mk (Some c) i) <$> GridSpec.cardIn g i.

Definition emptyAt (g : GridSystem.t) (i : Z) : option Z :=
  match GridSpec.cardIn g i with
  | Some _ => None
  | None => Some i
  end.

(** The position one step from [coords] in direction [d], when it is on the
    grid. *)
Definition stepTo (g : GridSystem.t) (coords : Coords.t) (d : Z * Z) : option Z :=
  let newRow := Coords.row coords + d.1 in
  let newCol := Coords.col coords + d.2 in
  if (0 <=? newRow) && (newRow <? GridSystem.height g)
     && (0 <=? newCol) && (newCol <? GridSystem.width g)
  then Some (newRow * GridSystem.width g + newCol)
  else None.

(** The distance that makes two positions adjacent: Manhattan distance for
    the four directions, Chebyshev distance with the diagonals. *)
Definition adjacency (g : GridSystem.t) (includeAdjoining : bool) (p q : Z) : Z :=
  let dRow := Z.abs (GridSpec.row g p - GridSpec.row g q) in
  let dCol := Z.abs (GridSpec.col g p - GridSpec.col g q) in
  if includeAdjoining then Z.max dRow dCol else dRow + dCol.

Module SampleWide.
(** The sample match on a grid of 6 x 3 slots, three more than the 15
    positions [Card.place] accepts. *)
Definition world : World.t :=
  World.set_gridSystem (GridSystem.new 6 3 0) Sample.world.
End SampleWide.

(** The change history after one more entry: the oldest entry is dropped
    once there are more than 100. *)
Definition pushChange (history : list Change.t) (change : Change.t) : list Change.t :=
  if 100 <? Z.of_nat (length (history ++ [change]))
  then tail (history ++ [change])
  else history ++ [change].

(** The position state that matches a slot. *)
Definition stateOfSlot (slot : option CardRef) : PositionState :=
  match slot with
  | Some _ => OCCUPIED
  | None => EMPTY
  end.

(** ** Card.js: battles between types, state checks, serialisation *)

Definition determineBattleResult (type1 type2 : CardType) : BattleResult :=
  if bool_decide (type1 = type2) then ADVANCE
  else if bool_decide (CardInfo.defeats (CARD_INFO type1) = type2) then WIN
  else LOSE.

Definition canDefeat (c : Card.t) (otherType : CardType) : bool :=
  bool_decide (CardInfo.defeats (CARD_INFO (Card.type c)) = otherType).

Definition isPlaced (c : Card.t) : bool :=
  bool_decide (Card.state c = PLACED) || bool_decide (Card.state c = REVEALED).

Module CardData.
(** The object built by [Card.serialize]; [owner] is the owner's id. *)
Record t := mk {
  id : string;
  type : CardType;
  state : CardState;
  claimedType : option CardType;
  position : option Z;
  isRevealed : bool;
  createdAt : Z;
  placedAt : option Z;
  revealedAt : option Z;
  battleHistory : list BattleRecord.t;
  owner : option string }.
End CardData.

Module CardMethods.
(** [validate]: a [CardState], a [CardType] and a claimed [CardType] are
    members of their enumerations, so the first three checks pass; in the
    comparisons of the fourth a [null] position counts as 0. *)
Definition validate (c : Card.t) : bool :=
  if isPlaced c
     && match Card.position c with
        | Some p => (p <? 0) || (GAME_CONFIG.TOTAL_POSITIONS <=? p)
        | None => false
        end
  then false
  else if isPlaced c && bool_decide (Card.position c = None) then false
  else true.

(** [serialize] reads the id of the owner, if there is one. *)
Definition serialize (this : CardRef) : M CardData.t :=
  let* c := getCard this in
  let* owner :=
    match Card.owner c with
    | Some o => let* p := getPlayer o in ret (Some (Player.id p))
    | None => ret None
    end in
  ret (CardData.mk (Card.id c) (Card.type c) (Card.state c)
         (Card.claimedType c) (Card.position c) (Card.isRevealed c)
         (Card.createdAt c) (Card.placedAt c) (Card.revealedAt c)
         (Card.battleHistory c) owner).

(** [Card.deserialize]: the constructor takes the id of the data unless it
    is the empty string, in which case it generates one ([fresh]); it stamps
    the card with the current time, which [deserialize] then overwrites. The
    owner is left [null]. *)
Definition deserialize (data : CardData.t) (fresh : string) (now : Z) : Card.t :=
  let card :=
    Card.new (CardData.type data)
      (if bool_decide (CardData.id data = EmptyString) then fresh
       else CardData.id data) now in
  Card.mk (Card.id card) (Card.type card) (CardData.state data)
    (CardData.claimedType data) (Card.owner card) (CardData.position data)
    (CardData.isRevealed data) (CardData.battleHistory data)
    (CardData.createdAt data) (CardData.placedAt data)
    (CardData.revealedAt data).
End CardMethods.

(** ** GridSystem.validate *)

Module GridMethods.
(** The first loop of [validate], from position [i] on: an occupied slot
    holds a valid card that records this position. *)
Fixpoint validate_cards (w : World.t) (n : nat) (i : Z) : bool :=
  match n with
  | O => true
  | S n' =>
      match gridSlot (World.gridSystem w) i with
      | Some None => validate_cards w n' (i + 1)
      | Some (Some card) =>
          match World.cards w !! card with
          | None => false
          | Some c =>
              if negb (CardMethods.validate c) then false
              else if negb (bool_decide (Card.position c = Some i)) then false
              else validate_cards w n' (i + 1)
          end
      | None => false
      end
  end.

(** The second loop: a slot holds a card exactly when its state is
    OCCUPIED. *)
Fixpoint validate_states (g : GridSystem.t) (n : nat) (i : Z) : bool :=
  match n with
  | O => true
  | S n' =>
      let hasCard := negb (bool_decide (gridSlot g i = Some None)) in
      let stateOccupied :=
        bool_decide (GridSystem.positionStates g !! Z.to_nat i = Some OCCUPIED) in
      if negb (Bool.eqb hasCard stateOccupied) then false
      else validate_states g n' (i + 1)
  end.

Definition validate : M bool :=
  let* g := getGridSystem in
  if (GridSystem.width g <=? 0) || (GridSystem.height g <=? 0) then ret false
  else if negb (Z.of_nat (length (GridSystem.grid g)) =? GridSystem.totalPositions g)
  then ret false
  else
    let* cardsOk :=
      gets (fun w => validate_cards w (Z.to_nat (GridSystem.totalPositions g)) 0) in
    if negb cardsOk then ret false
    else if negb (validate_states g (Z.to_nat (GridSystem.totalPositions g)) 0)
    then ret false
    else ret true.
End GridMethods.

(** What the two loops of [validate] ask of one position. *)
Definition cardSlotOk (w : World.t) (j : Z) : bool :=
  match gridSlot (World.gridSystem w) j with
  | Some None => true
  | Some (Some card) =>
      match World.cards w !! card with
      | Some c => CardMethods.validate c && bool_decide (Card.position c = Some j)
      | None => false
      end
  | None => false
  end.

Definition stateSlotOk (g : GridSystem.t) (j : Z) : bool :=
  Bool.eqb (negb (bool_decide (gridSlot g j = Some None)))
    (bool_decide (GridSystem.positionStates g !! Z.to_nat j = Some OCCUPIED)).

(** ** Player: queries on the hand

    The hand holds cards of the store ([dealCards] checks each one). *)

Fixpoint filterByType (cardType : CardType) (hand : list CardRef)
    : M (list CardRef) :=
  match hand with
  | [] => ret []
  | card :: rest =>
      let* c := getCard card in
      let* later := filterByType cardType rest in
      ret (if bool_decide (Card.type c = cardType) then card :: later else later)
  end.

Definition getCardsOfType (this : PlayerRef) (cardType : CardType)
    : M (list CardRef) :=
  let* p := getPlayer this in
  filterByType cardType (Player.hand p).

(** The second loop of [getHandComposition]; every key was set to 0 by the
    first. *)
Fixpoint countTypes (hand : list CardRef) (composition : gmap CardType Z)
    : M (gmap CardType Z) :=
  match hand with
  | [] => ret composition
  | card :: rest =>
      let* c := getCard card in
      countTypes rest
        (<[Card.type c := default 0 (composition !! Card.type c) + 1]> composition)
  end.

Definition getHandComposition (this : PlayerRef) : M (gmap CardType Z) :=
  let* p := getPlayer this in
  countTypes (Player.hand p)
    (<[SCISSORS := 0]> (<[PAPER := 0]> (<[ROCK := 0]> ∅))).

Definition canMove (this : PlayerRef) : M bool :=
  let* p := getPlayer this in
  ret (0 <? Z.of_nat (length (Player.hand p))).

(** ** ChallengeSystem: the window and its reset *)

Module ChallengeInfo.
(** The object returned by [getChallengeablePlay]. *)
Record t := mk {
  player : string;
  claimedType : CardType;
  position : Z;
  timeRemaining : Z }.
End ChallengeInfo.

Module ChallengeMethods.
Definition set_challengeTimeWindow (v : Z) (c : ChallengeSystem.t) : ChallengeSystem.t :=
  ChallengeSystem.mk (ChallengeSystem.challengeHistory c)
    (ChallengeSystem.lastPlayedCard c) v (ChallengeSystem.challengeTimer c).

(** [setChallengeTimeWindow] for an integer number of milliseconds. *)
Definition setChallengeTimeWindow (milliseconds : Z) : M unit :=
  let* cs := getChallengeSystem in
  setChallengeSystem
    (set_challengeTimeWindow (Z.max 1000 (Z.min 30000 milliseconds)) cs).

Definition clear : M unit :=
  let* cs := getChallengeSystem in
  setChallengeSystem (ChallengeSystem.set_challengeHistory [] cs) ;;;
  let* cs := getChallengeSystem in
  setChallengeSystem (ChallengeSystem.set_lastPlayedCard None cs) ;;;
  let* cs := getChallengeSystem in
  match ChallengeSystem.challengeTimer cs with
  | Some h =>
      clearTimeout h ;;;
      setChallengeSystem (ChallengeSystem.set_challengeTimer None cs)
  | None => ret tt
  end.

(** [getChallengeablePlay] reads the clock a second time for the time that
    remains. *)
Definition getChallengeablePlay : M (option ChallengeInfo.t) :=
  let* can := canChallenge in
  if negb can then ret None
  else
    let* cs := getChallengeSystem in
    match ChallengeSystem.lastPlayedCard cs with
    | Some play =>
        let* pl := getPlayer (Play.player play) in
        let* t := now in
        ret (Some (ChallengeInfo.mk (Player.name pl) (Play.claimedType play)
                     (Play.position play)
                     (Z.max 0 (ChallengeSystem.challengeTimeWindow cs
                               - (t - Play.timestamp play)))))
    | None => throw "TypeError"
    end.
End ChallengeMethods.

(** The pending timers are at most the one the challenge system holds. *)
Definition timersTracked (w : World.t) : Prop :=
  World.timers w
  ⊆ match ChallengeSystem.challengeTimer (World.challengeSystem w) with
    | Some h => {[h]}
    | None => ∅
    end.

(** The cards of a hand that have the given type in the store. *)
Definition ofType (w : World.t) (cardType : CardType) (hand : list CardRef)
    : list CardRef :=
  filter (fun card => Card.type <$> World.cards w !! card = Some cardType) hand.

(** ** BattleSystem: resolving a battle, advancement

    The battle system emits events of its own. They are logged beside the
    world's log, each with the number of events the world's log held when it
    was emitted, so that the two logs together give the order of emission. *)

Module BattleResultData.
(** The object returned by [processBattle]. *)
Record t := mk {
  battle : Battle.t;
  outcome : Outcome;
  winner : option CardRef;
  loser : option CardRef;
  pointsAwarded : Z;
  explanation : string }.
End BattleResultData.

Inductive BattleEvent :=
  | BATTLE_START (battle : Battle.t)
  | BATTLE_RESULT (result : BattleResultData.t)
  | POINTS_AWARDED (card : CardRef) (player : option PlayerRef)
      (advancement : bool) (controlPoints totalPoints : Z).

Module Arena.
(** The world together with what [processBattle] and
    [processCardAdvancement] touch besides: the field [currentBattle] of the
    battle system and the log of its events. *)
Record t := mk {
  world : World.t;
  currentBattle : option Battle.t;
  battleEvents : list (nat * BattleEvent) }.

Definition set_world (v : World.t) (a : t) : t :=
  mk v (currentBattle a) (battleEvents a).

Definition set_currentBattle (v : option Battle.t) (a : t) : t :=
  mk (world a) v (battleEvents a).

Definition set_battleEvents (v : list (nat * BattleEvent)) (a : t) : t :=
  mk (world a) (currentBattle a) v.
End Arena.

Definition B (A : Type) : Type := Arena.t -> Result (A * Arena.t).

Definition retB {A} (x : A) : B A := fun a => Ok (x, a).

Definition bindB {A C} (m : B A) (k : A -> B C) : B C :=
  fun a =>
    match m a with
    | Ok (x, a') => k x a'
    | Throw msg => Throw msg
    end.

(** A computation on the world, run in the arena. *)
Definition liftM {A} (m : M A) : B A :=
  fun a =>
    match m (Arena.world a) with
    | Ok (x, w') => Ok (x, Arena.set_world w' a)
    | Throw msg => Throw msg
    end.

Notation "'let+' x ':=' m 'in' k" := (bindB m (fun x => k))
  (at level 10, x name, m at level 100, k at level 200).
Notation "m ;;+ k" := (bindB m (fun _ => k))
  (at level 100, k at level 200, right associativity).

Definition setCurrentBattle (v : option Battle.t) : B unit :=
  fun a => Ok (tt, Arena.set_currentBattle v a).

Definition emitBattle (e : BattleEvent) : B unit :=
  fun a =>
    Ok (tt, Arena.set_battleEvents
              (Arena.battleEvents a
                 ++ [(length (World.events (Arena.world a)), e)]) a).

(** [card.battleHistory.push(record)]. *)
Definition pushBattleRecord (record : BattleRecord.t) (c : Card.t) : Card.t :=
  Card.mk (Card.id c) (Card.type c) (Card.state c) (Card.claimedType c)
    (Card.owner c) (Card.position c) (Card.isRevealed c)
    (Card.battleHistory c ++ [record]) (Card.createdAt c) (Card.placedAt c)
    (Card.revealedAt c).

(** [stats.battlesWon++] and [stats.battlesLost++]. *)
Definition countBattleWon (s : Stats.t) : Stats.t :=
  Stats.mk (Stats.gamesPlayed s) (Stats.gamesWon s) (Stats.roundsWon s)
    (Stats.cardsPlayed s) (Stats.bluffsAttempted s) (Stats.bluffsSuccessful s)
    (Stats.challengesMade s) (Stats.challengesSuccessful s)
    (Stats.battlesWon s + 1) (Stats.battlesLost s) (Stats.totalPoints s)
    (Stats.truthfulPlays s).

Definition countBattleLost (s : Stats.t) : Stats.t :=
  Stats.mk (Stats.gamesPlayed s) (Stats.gamesWon s) (Stats.roundsWon s)
    (Stats.cardsPlayed s) (Stats.bluffsAttempted s) (Stats.bluffsSuccessful s)
    (Stats.challengesMade s) (Stats.challengesSuccessful s)
    (Stats.battlesWon s) (Stats.battlesLost s + 1) (Stats.totalPoints s)
    (Stats.truthfulPlays s).

(** [if (card && card.owner) f(card.owner)] for a card reference or null. *)
Definition withOwner (card : option CardRef) (f : PlayerRef -> M unit) : M unit :=
  match card with
  | Some r =>
      let* c := getCard r in
      match Card.owner c with
      | Some o => f o
      | None => ret tt
      end
  | None => ret tt
  end.

(** The body of [processBattle]; it has no [await], so it runs to its end
    when it is called. The test [winner === card1] compares references. *)
Definition processBattle (battle : Battle.t) : B BattleResultData.t :=
  let card1 := Battle.card1 battle in
  let card2 := Battle.card2 battle in
  let position1 := Battle.position1 battle in
  let position2 := Battle.position2 battle in
  setCurrentBattle (Some battle) ;;+
  emitBattle (BATTLE_START battle) ;;+
  let+ c1 := liftM (getCard card1) in
  let+ c2 := liftM (getCard card2) in
  let battleResult := determineBattleOutcome c1 c2 in
  let '(winner, loser, points) :=
    match BattleOutcome.outcome battleResult with
    | card1_wins => (Some card1, Some card2, SCORING.BATTLE_WIN)
    | card2_wins => (Some card2, Some card1, SCORING.BATTLE_WIN)
    | tie => (None, None, 0)
    end in
  liftM (withOwner winner (fun o => addScore o points)) ;;+
  let+ t := liftM now in
  let+ named := liftM (getCard (default card2 loser)) in
  let battleRecord :=
    BattleRecord.mk t (Card.id named) (Card.type named)
      (if bool_decide (winner = Some card1) then Some WIN
       else if bool_decide (winner = Some card2) then Some LOSE
       else None)
      position1 position2 in
  let+ c1 := liftM (getCard card1) in
  liftM (setCard card1 (pushBattleRecord battleRecord c1)) ;;+
  let+ c1 := liftM (getCard card1) in
  let+ c2 := liftM (getCard card2) in
  liftM (setCard card2
           (pushBattleRecord
              (BattleRecord.mk t (Card.id c1) (Card.type c1)
                 (if bool_decide (winner = Some card2) then Some WIN
                  else if bool_decide (winner = Some card1) then Some LOSE
                  else None)
                 position2 position1) c2)) ;;+
  let result :=
    BattleResultData.mk battle (BattleOutcome.outcome battleResult) winner loser
      points (BattleOutcome.explanation battleResult) in
  liftM (withOwner winner (fun o =>
           let* p := getPlayer o in
           setPlayer o (Player.set_stats (countBattleWon (Player.stats p)) p))) ;;+
  liftM (withOwner loser (fun o =>
           let* p := getPlayer o in
           setPlayer o (Player.set_stats (countBattleLost (Player.stats p)) p))) ;;+
  emitBattle (BATTLE_RESULT result) ;;+
  setCurrentBattle None ;;+
  retB result.

(** [simulateBattle] reads the two cards. *)
Definition simulateBattle (card1 card2 : CardRef) : M BattleOutcome.t :=
  let* c1 := getCard card1 in
  let* c2 := getCard card2 in
  ret (determineBattleOutcome c1 c2).

Inductive ScenarioOutcome := scenario_win | scenario_lose | scenario_tie.

Module Scenario.
(** An entry of the result of [analyzePotentialBattles]; [type] is
    "left_battle" or "right_battle". *)
Record t := mk {
  type : string;
  opponent : CardRef;
  position : Z;
  outcome : ScenarioOutcome;
  explanation : string }.
End Scenario.

Definition analyzePotentialBattles (position : Z) (newCard : CardRef)
    : M (list Scenario.t) :=
  let* neighbors := getHorizontalNeighbors position in
  let* scenarios :=
    match HorizontalNeighbors.left neighbors with
    | Some l =>
        let* leftCard := getCardAt l in
        match leftCard with
        | Some lc =>
            let* battleResult := simulateBattle lc newCard in
            ret [Scenario.mk "left_battle" lc l
                   match BattleOutcome.outcome battleResult with
                   | card2_wins => scenario_win
                   | card1_wins => scenario_lose
                   | tie => scenario_tie
                   end
                   (BattleOutcome.explanation battleResult)]
        | None => ret []
        end
    | None => ret []
    end in
  match HorizontalNeighbors.right neighbors with
  | Some r =>
      let* rightCard := getCardAt r in
      match rightCard with
      | Some rc =>
          let* battleResult := simulateBattle newCard rc in
          ret (scenarios
               ++ [Scenario.mk "right_battle" rc r
                     match BattleOutcome.outcome battleResult with
                     | card1_wins => scenario_win
                     | card2_wins => scenario_lose
                     | tie => scenario_tie
                     end
                     (BattleOutcome.explanation battleResult)])
      | None => ret scenarios
      end
  | None => ret scenarios
  end.

(** The owners that [processBattle] rewards and charges, from the two
    cards of the battle. *)
Definition ownerOfWinner (c1 c2 : Card.t) : option PlayerRef :=
  match BattleOutcome.outcome (determineBattleOutcome c1 c2) with
  | card1_wins => Card.owner c1
  | card2_wins => Card.owner c2
  | tie => None
  end.

Definition ownerOfLoser (c1 c2 : Card.t) : option PlayerRef :=
  match BattleOutcome.outcome (determineBattleOutcome c1 c2) with
  | card1_wins => Card.owner c2
  | card2_wins => Card.owner c1
  | tie => None
  end.

(** The loop of [processCardAdvancement] over the adjacent positions. The
    comparison [adjCard.owner === card.owner] also holds for two cards
    without owner. *)
Fixpoint controlPoints_loop (adjacentPositions : list Z) (card : CardRef)
    (controlPoints : Z) : M Z :=
  match adjacentPositions with
  | [] => ret controlPoints
  | adjPos :: rest =>
      let* adjCard := getCardAt adjPos in
      let* points :=
        match adjCard with
        | Some ac =>
            let* a := getCard ac in
            let* c := getCard card in
            ret (if bool_decide (Card.owner a = Card.owner c)
                 then controlPoints + SCORING.CONTROL
                 else controlPoints)
        | None => ret controlPoints
        end in
      controlPoints_loop rest card points
  end.

(** The body of [processCardAdvancement]; it has no [await]. *)
Definition processCardAdvancement (card : CardRef) (currentPosition : Z) : B unit :=
  let+ neighbors := liftM (getHorizontalNeighbors currentPosition) in
  let+ advanced :=
    liftM (match HorizontalNeighbors.right neighbors with
           | Some r => isPositionAvailable r
           | None => ret false
           end) in
  let points := if advanced then SCORING.ADVANCEMENT else 0 in
  let+ adjacentPositions := liftM (getAdjacentPositions currentPosition false) in
  let+ controlPoints := liftM (controlPoints_loop adjacentPositions card 0) in
  let totalPoints := points + controlPoints in
  liftM (if 0 <? totalPoints
         then withOwner (Some card) (fun o => addScore o totalPoints)
         else ret tt) ;;+
  if advanced || (0 <? controlPoints)
  then
    let+ c := liftM (getCard card) in
    emitBattle (POINTS_AWARDED card (Card.owner c) advanced controlPoints totalPoints)
  else retB tt.

(** Slot [q] holds a card of the given owner. *)
Definition friendAt (w : World.t) (owner : option PlayerRef) (q : Z) : bool :=
  match GridSpec.cardIn (World.gridSystem w) q with
  | Some ac =>
      match World.cards w !! ac with
      | Some a => bool_decide (Card.owner a = owner)
      | None => false
      end
  | None => false
  end.

(** The control points of a card of the given owner at position [p]: the
    slots above, left, right and below that hold a card of the same owner. *)
Definition controlOf (w : World.t) (owner : option PlayerRef) (p : Z) : Z :=
  let g := World.gridSystem w in
  Z.of_nat
    (length
       (filter (fun q => friendAt w owner q = true)
          (omap (stepTo g (Coords.mk (GridSpec.row g p) (GridSpec.col g p)))
             directions4))).

(** The card at [p] can advance: the slot to its right, in its row, is
    free. *)
Definition canAdvance (g : GridSystem.t) (p : Z) : bool :=
  (GridSpec.col g p <? GridSystem.width g - 1)
  && bool_decide (GridSpec.cardIn g (p + 1) = None).

(** ** Reading the arena *)

Definition runsB {A} (m : B A) (a : Arena.t) (Q : A -> Arena.t -> Prop) : Prop :=
  exists x a', m a = Ok (x, a') /\ Q x a'.

(** What [processBattle] asks of its result, for the battle of two different
    cards of the store. *)
Definition battleDone (a : Arena.t) (battle : Battle.t) (c1 c2 : Card.t)
    (result : BattleResultData.t) (a' : Arena.t) : Prop :=
  let w := Arena.world a in
  let w' := Arena.world a' in
  let outcome := BattleOutcome.outcome (determineBattleOutcome c1 c2) in
  result
  = BattleResultData.mk battle outcome
      match outcome with
      | card1_wins => Some (Battle.card1 battle)
      | card2_wins => Some (Battle.card2 battle)
      | tie => None
      end
      match outcome with
      | card1_wins => Some (Battle.card2 battle)
      | card2_wins => Some (Battle.card1 battle)
      | tie => None
      end
      match outcome with tie => 0 | _ => SCORING.BATTLE_WIN end
      (BattleOutcome.explanation (determineBattleOutcome c1 c2))
  /\ (forall r p,
        World.players w !! r = Some p ->
        exists p',
          World.players w' !! r = Some p'
          /\ Player.score p'
             = (if bool_decide (ownerOfWinner c1 c2 = Some r)
                then Z.max 0 (Player.score p + SCORING.BATTLE_WIN)
                else Player.score p)
          /\ Stats.battlesWon (Player.stats p')
             = Stats.battlesWon (Player.stats p)
               + (if bool_decide (ownerOfWinner c1 c2 = Some r) then 1 else 0)
          /\ Stats.battlesLost (Player.stats p')
             = Stats.battlesLost (Player.stats p)
               + (if bool_decide (ownerOfLoser c1 c2 = Some r) then 1 else 0)
          /\ Player.hand p' = Player.hand p
          /\ Player.placedCards p' = Player.placedCards p)
  /\ World.cards w'
     = <[Battle.card2 battle :=
           pushBattleRecord
             (BattleRecord.mk (World.clock w) (Card.id c1) (Card.type c1)
                match outcome with
                | card1_wins => Some LOSE
                | card2_wins => Some WIN
                | tie => None
                end
                (Battle.position2 battle) (Battle.position1 battle)) c2]>
         (<[Battle.card1 battle :=
              pushBattleRecord
                (BattleRecord.mk (World.clock w)
                   match outcome with
                   | card2_wins => Card.id c1
                   | _ => Card.id c2
                   end
                   match outcome with
                   | card2_wins => Card.type c1
                   | _ => Card.type c2
                   end
                   match outcome with
                   | card1_wins => Some WIN
                   | card2_wins => Some LOSE
                   | tie => None
                   end
                   (Battle.position1 battle) (Battle.position2 battle)) c1]>
            (World.cards w))
  /\ World.gridSystem w' = World.gridSystem w
  /\ World.challengeSystem w' = World.challengeSystem w
  /\ World.events w'
     = World.events w
       ++ match ownerOfWinner c1 c2 with
          | Some o =>
              match World.players w !! o with
              | Some p =>
                  [SCORE_UPDATE o (Player.score p)
                     (Z.max 0 (Player.score p + SCORING.BATTLE_WIN))
                     SCORING.BATTLE_WIN]
              | None => []
              end
          | None => []
          end
  /\ Arena.currentBattle a' = None
  /\ Arena.battleEvents a'
     = Arena.battleEvents a
       ++ [(length (World.events w), BATTLE_START battle);
           (length (World.events w'), BATTLE_RESULT result)].

Module SampleArena.
(** The arena before the battle of the cards at positions 5 and 6. *)
Definition arena : Arena.t := Arena.mk Sample.crowded None [].

Definition battle : Battle.t :=
  Battle.mk 5 Sample.paperCard 6 Sample.scissorsCard "horizontal".

Definition paper : Card.t :=
  default (Card.new PAPER "card_1" 0)
    (World.cards Sample.crowded !! Sample.paperCard).

Definition scissors : Card.t :=
  default (Card.new SCISSORS "card_2" 0)
    (World.cards Sample.crowded !! Sample.scissorsCard).
End SampleArena.

(** The entry of a battle history for a result of [Card]'s rule: a tie is
    recorded as the string "tie". *)
Definition recorded (r : BattleResult) : option BattleResult :=
  match r with
  | ADVANCE => None
  | _ => Some r
  end.

(** A result of [Card]'s rule, as the outcome of a scenario. *)
Definition perspective (r : BattleResult) : ScenarioOutcome :=
  match r with
  | WIN => scenario_win
  | LOSE => scenario_lose
  | ADVANCE => scenario_tie
  end.

(** ** Game.js: checkVictoryConditions

    [humanPlayer] and [aiPlayer] are the two player fields of the game. *)
Definition checkVictoryConditions (humanPlayer aiPlayer : PlayerRef)
    : M (option PlayerRef) :=
  let* h := getPlayer humanPlayer in
  let* a := getPlayer aiPlayer in
  if Player.hasWon h a then ret (Some humanPlayer)
  else
    let* a := getPlayer aiPlayer in
    let* h := getPlayer humanPlayer in
    if Player.hasWon a h then ret (Some aiPlayer) else ret None.

Module SampleFull.
(** Entries of a change history: the oldest one, and a later one. *)
Definition oldest : Change.t := Change.mk "place" 0 (Some "card_9") 0.
Definition later : Change.t := Change.mk "remove" 0 (Some "card_9") 0.

(** The crowded grid with a change history of 100 entries. *)
Definition world : World.t :=
  World.set_gridSystem
    (GridSystem.set_changeHistory (oldest :: replicate 99 later)
       (World.gridSystem Sample.crowded)) Sample.crowded.
End SampleFull.

(** ** Reading the monad

    [runs m w Q]: from [w] the computation [m] returns, and its result and
    final world satisfy [Q]. [preserves f m]: whenever [m] returns, the
    component [f] of the world is what it was. *)

Definition runs {A} (m : M A) (w : World.t) (Q : A -> World.t -> Prop) : Prop :=
  exists a w', m w = Ok (a, w') /\ Q a w'.

Definition preserves {A X} (f : World.t -> X) (m : M A) : Prop :=
  forall w a w', m w = Ok (a, w') -> f w' = f w.

(** [player.score] for the player behind a reference. *)
Definition scoreOf (w : World.t) (r : PlayerRef) : option Z :=
  Player.score <$> World.players w !! r.

(** No play can be challenged: there is no pending play, or the pending
    play is no longer challengeable. *)
Definition closed (w : World.t) : Prop :=
  match ChallengeSystem.lastPlayedCard (World.challengeSystem w) with
  | None => True
  | Some play => Play.challengeable play = false
  end.

(** * Properties *)

(** ** Battle resolution *)

Lemma determineBattleOutcome_resolve (card1 card2 : Card.t) :
  BattleOutcome.outcome (determineBattleOutcome card1 card2)
  = resolve (Card.type card1) (Card.type card2).
Proof.
  unfold determineBattleOutcome.
  destruct (Card.type card1), (Card.type card2); reflexivity.
Qed.

(** C1. The outcome of a battle is determined by the actual types of the two
    cards: a tie exactly for equal types, a win of the first card exactly for
    rock against scissors, paper against rock and scissors against paper, a
    win of the second card in every other case; and changing the claimed type
    of either card changes nothing of the result. *)
Theorem determineBattleOutcome_actual_types (card1 card2 : Card.t) :
  let a := Card.type card1 in
  let b := Card.type card2 in
  let o := BattleOutcome.outcome (determineBattleOutcome card1 card2) in
  (o = tie <-> a = b)
  /\ (o = card1_wins <->
        (a = ROCK /\ b = SCISSORS) \/ (a = PAPER /\ b = ROCK)
        \/ (a = SCISSORS /\ b = PAPER))
  /\ (o = card2_wins <->
        a <> b /\ ~ ((a = ROCK /\ b = SCISSORS) \/ (a = PAPER /\ b = ROCK)
                     \/ (a = SCISSORS /\ b = PAPER)))
  /\ o = resolve a b
  /\ (forall claim1 claim2 : option CardType,
        determineBattleOutcome (Card.set_claimedType claim1 card1)
                               (Card.set_claimedType claim2 card2)
        = determineBattleOutcome card1 card2).
Proof.
  cbv zeta. rewrite determineBattleOutcome_resolve.
  split; [| split; [| split; [| split]]].
  - destruct (Card.type card1), (Card.type card2); cbn; split; congruence.
  - destruct (Card.type card1), (Card.type card2); cbn;
      split; intuition congruence.
  - destruct (Card.type card1), (Card.type card2); cbn;
      split; intuition congruence.
  - reflexivity.
  - intros claim1 claim2. reflexivity.
Qed.

(** ** Scores *)

Lemma bind_Ok {A B} (m : M A) (k : A -> M B) (w w' : World.t) (a : A) :
  m w = Ok (a, w') -> bind m k w = k a w'.
Proof. intros H. unfold bind. rewrite H. reflexivity. Qed.

Lemma getPlayer_Some (w : World.t) (r : PlayerRef) (p : Player.t) :
  World.players w !! r = Some p -> getPlayer r w = Ok (p, w).
Proof. intros H. unfold getPlayer. rewrite H. reflexivity. Qed.

Lemma getCard_Some (w : World.t) (r : CardRef) (c : Card.t) :
  World.cards w !! r = Some c -> getCard r w = Ok (c, w).
Proof. intros H. unfold getCard. rewrite H. reflexivity. Qed.

(** One call of [addScore] on a player of the store: it returns, and the
    player then holds the clamped sum; nothing but this player and the event
    log changes. *)
Lemma addScore_Some (w : World.t) (this : PlayerRef) (p : Player.t) (points : Z) :
  World.players w !! this = Some p ->
  exists p' w',
    addScore this points w = Ok (tt, w')
    /\ World.players w' = <[this := p']> (World.players w)
    /\ Player.score p' = Z.max 0 (Player.score p + points)
    /\ Player.id p' = Player.id p /\ Player.name p' = Player.name p
    /\ World.cards w' = World.cards w
    /\ World.challengeSystem w' = World.challengeSystem w
    /\ World.gridSystem w' = World.gridSystem w
    /\ World.clock w' = World.clock w
    /\ World.timers w' = World.timers w.
Proof.
  intros Hp. unfold addScore.
  rewrite (bind_Ok _ _ _ _ _ (getPlayer_Some _ _ _ Hp)).
  destruct (0 <? points); eexists; eexists; (split; [reflexivity |]);
    cbn; auto 10.
Qed.

(** C2. Whatever the score of a player of the store and whatever the points
    of a sequence of [addScore] calls (positive, negative, the challenge
    penalty), every call returns and the score read after each call is at
    least 0; it is the sum clamped at 0. *)
Theorem addScores_nonneg (w : World.t) (this : PlayerRef) (p : Player.t)
    (points : list Z) :
  World.players w !! this = Some p ->
  exists scores w',
    addScores this points w = Ok (scores, w')
    /\ scores = clampedScores (Player.score p) points
    /\ length scores = length points
    /\ Forall (fun s => 0 <= s) scores.
Proof.
  revert w p. induction points as [| pts rest IH]; intros w p Hp.
  - exists [], w. repeat split; constructor.
  - destruct (addScore_Some w this p pts Hp)
      as (p' & w1 & Hrun & Hplayers & Hscore & _).
    assert (Hp' : World.players w1 !! this = Some p')
      by (rewrite Hplayers; apply lookup_insert_eq).
    destruct (IH w1 p' Hp') as (scores & w2 & Hrest & Heq & Hlen & Hall).
    exists (Player.score p' :: scores), w2. cbn [addScores].
    rewrite (bind_Ok _ _ _ _ _ Hrun).
    rewrite (bind_Ok _ _ _ _ _ (getPlayer_Some _ _ _ Hp')).
    rewrite (bind_Ok _ _ _ _ _ Hrest).
    repeat split.
    + cbn. rewrite Heq, Hscore. reflexivity.
    + cbn. congruence.
    + constructor; [rewrite Hscore; lia | exact Hall].
Qed.

(** A run of [addScore] calls on the human player of the sample match, the
    challenge penalty among them. *)
Lemma addScores_nonneg_witness :
  exists scores w',
    addScores Sample.human [2; - SCORING.CHALLENGE_PENALTY; -5; 3] Sample.world
      = Ok (scores, w')
    /\ scores = clampedScores 0 [2; - SCORING.CHALLENGE_PENALTY; -5; 3]
    /\ length scores = 4%nat
    /\ Forall (fun s => 0 <= s) scores.
Proof.
  apply (addScores_nonneg Sample.world Sample.human
           (Player.new "human" "Player" HUMAN 0)).
  reflexivity.
Defined.

(** ** Victory *)

(** C7, as the code has it: with VICTORY_POINTS = 10 and MIN_VICTORY_LEAD = 1
    a player at exactly 10 points against an opponent at 9 has won; the lead
    of 1 meets the required lead. *)
Theorem hasWon_10_against_9 (this opponent : Player.t) :
  GAME_CONFIG.VICTORY_POINTS = 10 /\ GAME_CONFIG.MIN_VICTORY_LEAD = 1
  /\ Player.hasWon (Player.set_score 10 this) (Player.set_score 9 opponent) = true.
Proof. repeat split. Qed.

(** C7 as stated fails: the human player at 10 against the AI at 9 does not
    get [false] from [hasWon]. *)
Lemma hasWon_at_10_9_is_not_false :
  Player.hasWon
    (Player.set_score 10 (Player.new "human" "Player" HUMAN 0))
    (Player.set_score 9 (Player.new "ai" "AI Opponent" AI 0))
  <> false.
Proof. discriminate. Qed.

Lemma hasWon_true (this opponent : Player.t) :
  Player.hasWon this opponent = true <->
  GAME_CONFIG.VICTORY_POINTS <= Player.score this
  /\ Player.score opponent + GAME_CONFIG.MIN_VICTORY_LEAD <= Player.score this.
Proof.
  unfold Player.hasWon. rewrite andb_true_iff, !Z.leb_le. reflexivity.
Qed.

(** C9, as the code has it: when a player has won at one snapshot and the
    lead has not decreased at another, the player has won at the other
    snapshot exactly when the own score there still reaches VICTORY_POINTS;
    this is so in particular when the own score has not decreased. *)
Theorem hasWon_monotone_above_threshold (this opponent this' opponent' : Player.t) :
  Player.hasWon this opponent = true ->
  Player.score this' - Player.score opponent'
    >= Player.score this - Player.score opponent ->
  (Player.hasWon this' opponent' = true
     <-> GAME_CONFIG.VICTORY_POINTS <= Player.score this')
  /\ (Player.score this <= Player.score this' ->
      Player.hasWon this' opponent' = true).
Proof.
  intros Hwon Hlead. apply hasWon_true in Hwon. destruct Hwon as [Hvp Hl].
  rewrite hasWon_true. unfold GAME_CONFIG.MIN_VICTORY_LEAD in *.
  split; [split |]; intros; repeat split; lia.
Qed.

Lemma hasWon_monotone_above_threshold_witness :
  (Player.hasWon
     (Player.set_score 11 (Player.new "human" "Player" HUMAN 0))
     (Player.set_score 7 (Player.new "ai" "AI Opponent" AI 0)) = true
     <-> GAME_CONFIG.VICTORY_POINTS <= 11)
  /\ (10 <= 11 ->
      Player.hasWon
        (Player.set_score 11 (Player.new "human" "Player" HUMAN 0))
        (Player.set_score 7 (Player.new "ai" "AI Opponent" AI 0)) = true).
Proof.
  apply (hasWon_monotone_above_threshold
           (Player.set_score 10 (Player.new "human" "Player" HUMAN 0))
           (Player.set_score 9 (Player.new "ai" "AI Opponent" AI 0))
           (Player.set_score 11 (Player.new "human" "Player" HUMAN 0))
           (Player.set_score 7 (Player.new "ai" "AI Opponent" AI 0))).
  - reflexivity.
  - cbn. lia.
Defined.

(** C9 as stated fails: the player has won at 10 against 9; after each
    player lost one point the lead is still 1, and the player has not won
    at 9 against 8. *)
Lemma hasWon_not_monotone_in_lead :
  ~ (forall this opponent this' opponent' : Player.t,
       Player.hasWon this opponent = true ->
       Player.score this' - Player.score opponent'
         >= Player.score this - Player.score opponent ->
       Player.hasWon this' opponent' = true).
Proof.
  intros H.
  specialize (H (Player.set_score 10 (Player.new "human" "Player" HUMAN 0))
                (Player.set_score 9 (Player.new "ai" "AI Opponent" AI 0))
                (Player.set_score 9 (Player.new "human" "Player" HUMAN 0))
                (Player.set_score 8 (Player.new "ai" "AI Opponent" AI 0))).
  cbn in H. discriminate H; [reflexivity | lia].
Qed.

(** ** Rules for [runs] and [preserves] *)

Section Rules.
Context {A B : Type}.

Lemma runs_ret (a : A) w (Q : A -> World.t -> Prop) :
  Q a w -> runs (ret a) w Q.
Proof. intros H. exists a, w. split; [reflexivity | exact H]. Qed.

Lemma runs_bind (m : M A) (k : A -> M B) w (Q : B -> World.t -> Prop) :
  runs m w (fun a w' => runs (k a) w' Q) -> runs (bind m k) w Q.
Proof.
  intros (a & w' & Hm & b & w'' & Hk & HQ). exists b, w''.
  split; [| exact HQ]. rewrite (bind_Ok _ _ _ _ _ Hm). exact Hk.
Qed.

Lemma runs_gets (f : World.t -> A) w (Q : A -> World.t -> Prop) :
  Q (f w) w -> runs (gets f) w Q.
Proof. intros H. exists (f w), w. split; [reflexivity | exact H]. Qed.

Lemma runs_weaken (m : M A) w (Q Q' : A -> World.t -> Prop) :
  runs m w Q -> (forall a w', Q a w' -> Q' a w') -> runs m w Q'.
Proof. intros (a & w' & Hm & HQ) H. exists a, w'. auto. Qed.

Context {X : Type} (f : World.t -> X).

Lemma preserves_ret (a : A) : preserves f (ret a).
Proof. intros w a' w' H. injection H as _ <-. reflexivity. Qed.

Lemma preserves_throw (msg : string) : preserves f (@throw A msg).
Proof. intros w a w' H. discriminate H. Qed.

Lemma preserves_gets (g : World.t -> A) : preserves f (gets g).
Proof. intros w a' w' H. injection H as _ <-. reflexivity. Qed.

Lemma preserves_bind (m : M A) (k : A -> M B) :
  preserves f m -> (forall a, preserves f (k a)) -> preserves f (bind m k).
Proof.
  intros Hm Hk w b w''. unfold bind.
  destruct (m w) as [[a w'] | msg] eqn:E; [| discriminate].
  intros H. rewrite (Hk a _ _ _ H). exact (Hm _ _ _ E).
Qed.
End Rules.

Lemma runs_modify (g : World.t -> World.t) w (Q : unit -> World.t -> Prop) :
  Q tt (g w) -> runs (modify g) w Q.
Proof. intros H. exists tt, (g w). split; [reflexivity | exact H]. Qed.

Lemma runs_getPlayer r p w (Q : Player.t -> World.t -> Prop) :
  World.players w !! r = Some p -> Q p w -> runs (getPlayer r) w Q.
Proof. intros Hp H. exists p, w. split; [by apply getPlayer_Some | exact H]. Qed.

Lemma runs_getCard r c w (Q : Card.t -> World.t -> Prop) :
  World.cards w !! r = Some c -> Q c w -> runs (getCard r) w Q.
Proof. intros Hc H. exists c, w. split; [by apply getCard_Some | exact H]. Qed.

Lemma preserves_modify {X} (f : World.t -> X) (g : World.t -> World.t) :
  (forall w, f (g w) = f w) -> preserves f (modify g).
Proof. intros Hg w a w' H. injection H as _ <-. apply Hg. Qed.

Lemma preserves_getPlayer {X} (f : World.t -> X) r : preserves f (getPlayer r).
Proof.
  intros w a w'. unfold getPlayer.
  destruct (World.players w !! r); [| discriminate].
  intros H. injection H as _ <-. reflexivity.
Qed.

Lemma preserves_getCard {X} (f : World.t -> X) r : preserves f (getCard r).
Proof.
  intros w a w'. unfold getCard.
  destruct (World.cards w !! r); [| discriminate].
  intros H. injection H as _ <-. reflexivity.
Qed.

Ltac world_simpl :=
  cbn [World.players World.cards World.challengeSystem World.gridSystem
       World.battleSystem World.clock World.timers World.nextTimer World.events
       World.set_players World.set_cards World.set_challengeSystem
       World.set_gridSystem World.set_battleSystem World.set_clock
       World.set_timers World.set_nextTimer World.set_events].

Ltac solve_lookup :=
  world_simpl;
  repeat first [ rewrite lookup_insert_eq | rewrite lookup_insert_ne by done ];
  first [ reflexivity | eassumption ].

(** One step of symbolic execution of a computation that returns. *)
Ltac wp_step :=
  lazymatch goal with
  | |- runs (bind _ _) _ _ => apply runs_bind
  | |- runs (ret _) _ _ => apply runs_ret
  | |- runs (getPlayer _) _ _ => eapply runs_getPlayer; [solve_lookup |]
  | |- runs (getCard _) _ _ => eapply runs_getCard; [solve_lookup |]
  | |- runs (setPlayer _ _) _ _ => apply runs_modify
  | |- runs (setCard _ _) _ _ => apply runs_modify
  | |- runs (setChallengeSystem _) _ _ => apply runs_modify
  | |- runs (setGridSystem _) _ _ => apply runs_modify
  | |- runs getChallengeSystem _ _ => apply runs_gets
  | |- runs getGridSystem _ _ => apply runs_gets
  | |- runs now _ _ => apply runs_gets
  | |- runs (emit _) _ _ => apply runs_modify
  | |- runs (clearTimeout _) _ _ => apply runs_modify
  | |- runs (modify _) _ _ => apply runs_modify
  | |- runs (gets _) _ _ => apply runs_gets
  | |- runs (isPlayer _) _ _ => apply runs_gets
  | |- runs (isCard _) _ _ => apply runs_gets
  | |- runs (addScore _ _) _ _ => unfold addScore
  | |- runs (reveal _) _ _ => unfold reveal
  | |- runs (updateBehaviorProfile _ _ _) _ _ => unfold updateBehaviorProfile
  end.

(** One step of the proof that a computation leaves a component alone. *)
Ltac frame_step :=
  lazymatch goal with
  | |- preserves _ (bind _ _) => apply preserves_bind; [| intros ?]
  | |- preserves _ (ret _) => apply preserves_ret
  | |- preserves _ (throw _) => apply preserves_throw
  | |- preserves _ (getPlayer _) => apply preserves_getPlayer
  | |- preserves _ (getCard _) => apply preserves_getCard
  | |- preserves _ (gets _) => apply preserves_gets
  | |- preserves _ now => apply preserves_gets
  | |- preserves _ (isPlayer _) => apply preserves_gets
  | |- preserves _ (isCard _) => apply preserves_gets
  | |- preserves _ getChallengeSystem => apply preserves_gets
  | |- preserves _ getGridSystem => apply preserves_gets
  | |- preserves _ (setPlayer _ _) => apply preserves_modify; intros ?; reflexivity
  | |- preserves _ (setCard _ _) => apply preserves_modify; intros ?; reflexivity
  | |- preserves _ (emit _) => apply preserves_modify; intros ?; reflexivity
  | |- preserves _ (modify _) => apply preserves_modify; intros ?; reflexivity
  | |- preserves _ (if ?b then _ else _) => destruct b
  | |- preserves _ (match ?x with _ => _ end) => destruct x
  end.

Lemma scoreOf_insert (k r : PlayerRef) (p : Player.t)
    (m : gmap PlayerRef Player.t) :
  Player.score <$> (<[k := p]> m) !! r
  = if decide (k = r) then Some (Player.score p) else Player.score <$> m !! r.
Proof. rewrite lookup_insert. case_decide; reflexivity. Qed.

(** ** Challenges *)

(** [processChallenge] changes players, cards and nothing else. *)
Lemma processChallenge_frame (challenger : PlayerRef) (playData : Play.t) :
  preserves World.challengeSystem (processChallenge challenger playData)
  /\ preserves World.timers (processChallenge challenger playData)
  /\ preserves World.gridSystem (processChallenge challenger playData).
Proof.
  unfold processChallenge, addScore, reveal, updateBehaviorProfile.
  repeat split; repeat frame_step.
Qed.

(** The truthful branch of [processChallenge], for a challenger other than
    the defending player, both players and the card being in the store. *)
Lemma processChallenge_runs_truthful (w : World.t) (challenger : PlayerRef)
    (playData : Play.t) (pc pd : Player.t) (c : Card.t) :
  Play.claimedType playData = Play.actualType playData ->
  challenger <> Play.player playData ->
  World.players w !! challenger = Some pc ->
  World.players w !! Play.player playData = Some pd ->
  World.cards w !! Play.card playData = Some c ->
  runs (processChallenge challenger playData) w (fun r w' =>
    ChallengeOutcome.result r = FAILED
    /\ ChallengeOutcome.wasBluff r = false
    /\ ChallengeOutcome.pointsChanged r = - SCORING.CHALLENGE_PENALTY
    /\ scoreOf w' challenger
       = Some (Z.max 0 (Player.score pc - SCORING.CHALLENGE_PENALTY))
    /\ (forall r', r' <> challenger -> scoreOf w' r' = scoreOf w r')).
Proof.
  intros Htruth Hne Hpc Hpd Hc.
  unfold processChallenge.
  rewrite Htruth, bool_decide_eq_true_2 by reflexivity. cbn [negb].
  repeat wp_step. unfold scoreOf. world_simpl.
  split; [reflexivity | split; [reflexivity | split; [reflexivity | split]]].
  - rewrite !scoreOf_insert. repeat case_decide; try congruence. reflexivity.
  - intros r' Hr'. rewrite !scoreOf_insert.
    repeat case_decide; try congruence.
    subst r'. rewrite Hpd. reflexivity.
Qed.

(** C3. A challenge of a truthful play, made by a player other than the one
    who played (the only challenges [makeChallenge] lets through), returns
    CHALLENGE_FAILED; the challenger's score becomes the old score minus
    CHALLENGE_PENALTY clamped at 0 (1 becomes 0, 0 stays 0), and the score of
    the defending player, as of every player but the challenger, is what it
    was. *)
Theorem processChallenge_truthful (w : World.t) (challenger : PlayerRef)
    (playData : Play.t) (pc pd : Player.t) (c : Card.t) :
  Play.claimedType playData = Play.actualType playData ->
  challenger <> Play.player playData ->
  World.players w !! challenger = Some pc ->
  World.players w !! Play.player playData = Some pd ->
  World.cards w !! Play.card playData = Some c ->
  exists r w',
    processChallenge challenger playData w = Ok (r, w')
    /\ ChallengeOutcome.result r = FAILED
    /\ ChallengeOutcome.wasBluff r = false
    /\ ChallengeOutcome.pointsChanged r = - SCORING.CHALLENGE_PENALTY
    /\ scoreOf w' challenger
       = Some (Z.max 0 (Player.score pc - SCORING.CHALLENGE_PENALTY))
    /\ (SCORING.CHALLENGE_PENALTY <= Player.score pc ->
        scoreOf w' challenger = Some (Player.score pc - SCORING.CHALLENGE_PENALTY))
    /\ (Player.score pc = 1 -> scoreOf w' challenger = Some 0)
    /\ (Player.score pc = 0 -> scoreOf w' challenger = Some 0)
    /\ scoreOf w' (Play.player playData) = Some (Player.score pd)
    /\ (forall r', r' <> challenger -> scoreOf w' r' = scoreOf w r').
Proof.
  intros Htruth Hne Hpc Hpd Hc.
  destruct (processChallenge_runs_truthful w challenger playData pc pd c
              Htruth Hne Hpc Hpd Hc)
    as (r & w' & Hrun & Hres & Hbluff & Hpts & Hch & Hothers).
  exists r, w'. repeat split; try assumption.
  - intros Hge. rewrite Hch. f_equal. lia.
  - intros H1. rewrite Hch, H1. reflexivity.
  - intros H0. rewrite Hch, H0. reflexivity.
  - rewrite Hothers by congruence. unfold scoreOf. rewrite Hpd. reflexivity.
Qed.

(** In the sample match the human player, holding 1 point, challenges the
    truthful play of the AI. *)
Lemma processChallenge_truthful_witness :
  exists r w',
    processChallenge Sample.human
      (Play.mk Sample.rockCard Sample.ai ROCK ROCK 3 0 true)
      (Sample.withHumanScore 1 Sample.truthful) = Ok (r, w')
    /\ ChallengeOutcome.result r = FAILED
    /\ scoreOf w' Sample.human = Some 0
    /\ scoreOf w' Sample.ai = Some 0.
Proof.
  destruct (processChallenge_truthful
              (Sample.withHumanScore 1 Sample.truthful) Sample.human
              (Play.mk Sample.rockCard Sample.ai ROCK ROCK 3 0 true)
              (Player.set_score 1 (Player.new "human" "Player" HUMAN 0))
              (default (Player.new "ai" "AI Opponent" AI 0)
                 (World.players Sample.truthful !! Sample.ai))
              (default (Card.new ROCK "card_0" 0)
                 (World.cards Sample.truthful !! Sample.rockCard)))
    as (r & w' & Hrun & Hres & _ & _ & _ & _ & H1 & _ & Hd & _).
  - reflexivity.
  - discriminate.
  - vm_compute. reflexivity.
  - vm_compute. reflexivity.
  - vm_compute. reflexivity.
  - exists r, w'. split; [exact Hrun |]. split; [exact Hres |].
    split; [apply H1; reflexivity | exact Hd].
Defined.

(** The bluff branch of [processChallenge]; the challenger may even be the
    defending player here. *)
Lemma processChallenge_runs_bluff (w : World.t) (challenger : PlayerRef)
    (playData : Play.t) (pc pd : Player.t) (c : Card.t) :
  Play.claimedType playData <> Play.actualType playData ->
  World.players w !! challenger = Some pc ->
  World.players w !! Play.player playData = Some pd ->
  World.cards w !! Play.card playData = Some c ->
  runs (processChallenge challenger playData) w (fun r w' =>
    ChallengeOutcome.result r = SUCCESSFUL
    /\ ChallengeOutcome.wasBluff r = true
    /\ ChallengeOutcome.pointsChanged r = 0
    /\ ChallengeOutcome.cardRevealed r = true
    /\ World.cards w' !! Play.card playData
       = Some (Card.revealed (World.clock w) c)
    /\ (forall r', scoreOf w' r' = scoreOf w r')).
Proof.
  intros Hbluff Hpc Hpd Hc.
  unfold processChallenge.
  rewrite bool_decide_eq_false_2 by exact Hbluff. cbn [negb].
  destruct (decide (challenger = Play.player playData)) as [Heq | Hne].
  - rewrite <- Heq in *. assert (pd = pc) as -> by congruence.
    repeat wp_step. unfold scoreOf. world_simpl.
    repeat split; [solve_lookup |].
    intros r'. rewrite !scoreOf_insert.
    repeat case_decide; try congruence.
    subst r'. rewrite Hpc. reflexivity.
  - repeat wp_step. unfold scoreOf. world_simpl.
    repeat split; [solve_lookup |].
    intros r'. rewrite !scoreOf_insert.
    repeat case_decide; try congruence; subst r'.
    + rewrite Hpd. reflexivity.
    + rewrite Hpc. reflexivity.
Qed.

(** C4. A challenge of a bluffing play returns CHALLENGE_SUCCESSFUL with
    [wasBluff] true and no points changed; the challenged card is revealed,
    and no player's score changes: not the challenger's, not the defending
    player's. *)
Theorem processChallenge_bluff (w : World.t) (challenger : PlayerRef)
    (playData : Play.t) (pc pd : Player.t) (c : Card.t) :
  Play.claimedType playData <> Play.actualType playData ->
  World.players w !! challenger = Some pc ->
  World.players w !! Play.player playData = Some pd ->
  World.cards w !! Play.card playData = Some c ->
  exists r w' c',
    processChallenge challenger playData w = Ok (r, w')
    /\ ChallengeOutcome.result r = SUCCESSFUL
    /\ ChallengeOutcome.wasBluff r = true
    /\ ChallengeOutcome.pointsChanged r = 0
    /\ ChallengeOutcome.cardRevealed r = true
    /\ World.cards w' !! Play.card playData = Some c'
    /\ Card.isRevealed c' = true
    /\ Card.state c' = REVEALED
    /\ Card.type c' = Card.type c
    /\ scoreOf w' challenger = scoreOf w challenger
    /\ scoreOf w' (Play.player playData) = scoreOf w (Play.player playData)
    /\ (forall r', scoreOf w' r' = scoreOf w r').
Proof.
  intros Hbluff Hpc Hpd Hc.
  destruct (processChallenge_runs_bluff w challenger playData pc pd c
              Hbluff Hpc Hpd Hc)
    as (r & w' & Hrun & Hres & Hwas & Hpts & Hrev & Hcard & Hscores).
  exists r, w', (Card.revealed (World.clock w) c).
  repeat split; auto.
Qed.

(** The scenario of the specification: the AI claims paper while holding a
    rock at position 3, and the human player challenges. *)
Lemma processChallenge_bluff_witness :
  exists r w' c',
    processChallenge Sample.human
      (Play.mk Sample.rockCard Sample.ai PAPER ROCK 3 0 true)
      Sample.bluffed = Ok (r, w')
    /\ ChallengeOutcome.result r = SUCCESSFUL
    /\ World.cards w' !! Sample.rockCard = Some c'
    /\ Card.isRevealed c' = true
    /\ Card.type c' = ROCK
    /\ scoreOf w' Sample.human = Some 0
    /\ scoreOf w' Sample.ai = Some 0.
Proof.
  destruct (processChallenge_bluff Sample.bluffed Sample.human
              (Play.mk Sample.rockCard Sample.ai PAPER ROCK 3 0 true)
              (Player.new "human" "Player" HUMAN 0)
              (default (Player.new "ai" "AI Opponent" AI 0)
                 (World.players Sample.bluffed !! Sample.ai))
              (default (Card.new ROCK "card_0" 0)
                 (World.cards Sample.bluffed !! Sample.rockCard)))
    as (r & w' & c' & Hrun & Hres & _ & _ & _ & Hc' & Hrev & _ & Hty & Hh & Ha & _).
  - discriminate.
  - vm_compute. reflexivity.
  - vm_compute. reflexivity.
  - vm_compute. reflexivity.
  - exists r, w', c'. repeat split; assumption.
Defined.

Lemma bind_inv {A B} (m : M A) (k : A -> M B) (w w'' : World.t) (b : B) :
  bind m k w = Ok (b, w'') ->
  exists a w', m w = Ok (a, w') /\ k a w' = Ok (b, w'').
Proof.
  unfold bind. destruct (m w) as [[a w'] | msg]; [| discriminate].
  intros H. exists a, w'. split; [reflexivity | exact H].
Qed.

(** A call of [makeChallenge] throws, or fails and changes nothing, or
    succeeds on a play that was challengeable and no longer is. *)
Lemma makeChallenge_cases (challenger : PlayerRef) (w : World.t) :
  (exists msg, makeChallenge challenger w = Throw msg)
  \/ (exists r, makeChallenge challenger w = Ok (r, w)
                /\ MakeChallengeResult.success r = false)
  \/ (exists r w', makeChallenge challenger w = Ok (r, w')
                   /\ MakeChallengeResult.success r = true
                   /\ ~ closed w /\ closed w').
Proof.
  destruct (makeChallenge challenger w) as [[r w'] | msg] eqn:E;
    [| left; eauto].
  right. unfold makeChallenge in E.
  apply bind_inv in E as (ok & w0 & Hok & E).
  injection Hok as <- <-.
  destruct (bool_decide (is_Some (World.players w !! challenger)));
    cbn [negb] in E; [| discriminate].
  apply bind_inv in E as (cs & w0 & Hcs & E). injection Hcs as <- <-.
  destruct (ChallengeSystem.lastPlayedCard (World.challengeSystem w))
    as [play |] eqn:Hlast.
  2: { injection E as <- <-. left. eexists. split; reflexivity. }
  destruct (Play.challengeable play) eqn:Hch; cbn [negb] in E.
  2: { injection E as <- <-. left. eexists. split; reflexivity. }
  destruct (bool_decide (challenger = Play.player play)).
  { injection E as <- <-. left. eexists. split; reflexivity. }
  right. exists r, w'. split; [reflexivity |].
  apply bind_inv in E as (u & w0 & Htimer & E).
  assert (Hlast0 : ChallengeSystem.lastPlayedCard (World.challengeSystem w0)
                   = Some play).
  { destruct (ChallengeSystem.challengeTimer (World.challengeSystem w));
      injection Htimer as _ <-; exact Hlast. }
  apply bind_inv in E as (cr & w1 & Hproc & E).
  assert (Hlast1 : ChallengeSystem.lastPlayedCard (World.challengeSystem w1)
                   = Some play).
  { rewrite (proj1 (processChallenge_frame challenger play) _ _ _ Hproc).
    exact Hlast0. }
  injection E as <- <-.
  split; [reflexivity |]. split.
  - unfold closed. rewrite Hlast, Hch. intros Hfalse. discriminate Hfalse.
  - unfold closed. world_simpl. cbn. rewrite Hlast1. reflexivity.
Qed.

Lemma closed_makeChallenge (challenger : PlayerRef) (w : World.t) :
  closed w ->
  is_Some (World.players w !! challenger) ->
  makeChallenge challenger w = Ok (noChallengeablePlay, w).
Proof.
  intros Hclosed Hplayer. unfold makeChallenge, bind, isPlayer, gets.
  rewrite bool_decide_eq_true_2 by exact Hplayer. cbn.
  unfold closed in Hclosed.
  destruct (ChallengeSystem.lastPlayedCard (World.challengeSystem w));
    [rewrite Hclosed |]; reflexivity.
Qed.

(** [closeChallengeWindow] always returns. It leaves no play challengeable
    and no timer recorded, it changes the challenge system, the pending
    timers and the event log only, and it emits one event. *)
Lemma closeChallengeWindow_spec (w : World.t) :
  exists w',
    closeChallengeWindow w = Ok (tt, w')
    /\ closed w'
    /\ ChallengeSystem.lastPlayedCard (World.challengeSystem w')
       = Play.set_challengeable false
           <$> ChallengeSystem.lastPlayedCard (World.challengeSystem w)
    /\ ChallengeSystem.challengeTimer (World.challengeSystem w') = None
    /\ ChallengeSystem.challengeHistory (World.challengeSystem w')
       = ChallengeSystem.challengeHistory (World.challengeSystem w)
    /\ ChallengeSystem.challengeTimeWindow (World.challengeSystem w')
       = ChallengeSystem.challengeTimeWindow (World.challengeSystem w)
    /\ World.timers w'
       = match ChallengeSystem.challengeTimer (World.challengeSystem w) with
         | Some h => World.timers w ∖ {[h]}
         | None => World.timers w
         end
    /\ World.players w' = World.players w
    /\ World.cards w' = World.cards w
    /\ World.gridSystem w' = World.gridSystem w
    /\ World.battleSystem w' = World.battleSystem w
    /\ World.clock w' = World.clock w
    /\ World.nextTimer w' = World.nextTimer w
    /\ World.events w'
       = World.events w
         ++ [CHALLENGE_WINDOW_CLOSED
               (ChallengeSystem.lastPlayedCard (World.challengeSystem w'))].
Proof.
  unfold closeChallengeWindow, closed.
  destruct w as [ps cs [hist last window timer] g b t ts nt ev].
  destruct timer as [h |], last as [play |];
    (eexists; split; [reflexivity |]); cbn; repeat split; reflexivity.
Qed.






(** A challenge of a challengeable play by another player goes through. *)
Lemma makeChallenge_succeeds (w : World.t) (challenger : PlayerRef)
    (play : Play.t) (pc pd : Player.t) (c : Card.t) :
  ChallengeSystem.lastPlayedCard (World.challengeSystem w) = Some play ->
  Play.challengeable play = true ->
  challenger <> Play.player play ->
  World.players w !! challenger = Some pc ->
  World.players w !! Play.player play = Some pd ->
  World.cards w !! Play.card play = Some c ->
  exists r w',
    makeChallenge challenger w = Ok (r, w')
    /\ MakeChallengeResult.success r = true
    /\ closed w'.
Proof.
  intros Hlast Hch Hne Hpc Hpd Hc.
  destruct (makeChallenge_cases challenger w)
    as [[msg E] | [(r & E & Hr) | (r & w' & E & Hr & _ & Hclosed)]].
  - exfalso. revert E. unfold makeChallenge, bind at 1, isPlayer, gets.
    rewrite bool_decide_eq_true_2 by (rewrite Hpc; eauto). cbn [negb].
    unfold bind at 1, getChallengeSystem, gets. rewrite Hlast, Hch. cbn [negb].
    rewrite bool_decide_eq_false_2 by exact Hne.
    assert (Hw0 : exists w0,
      (match ChallengeSystem.challengeTimer (World.challengeSystem w) with
       | Some h =>
           clearTimeout h ;;;
           setChallengeSystem
             (ChallengeSystem.set_challengeTimer None (World.challengeSystem w))
       | None => ret tt
       end) w = Ok (tt, w0)
      /\ World.players w0 = World.players w /\ World.cards w0 = World.cards w).
    { destruct (ChallengeSystem.challengeTimer (World.challengeSystem w));
        eexists; (split; [reflexivity |]); split; reflexivity. }
    destruct Hw0 as (w0 & Hw0 & Hps & Hcs).
    rewrite (bind_Ok _ _ _ _ _ Hw0).
    rewrite <- Hps in Hpc, Hpd. rewrite <- Hcs in Hc.
    destruct (decide (Play.claimedType play = Play.actualType play)) as [Ht | Hb].
    + destruct (processChallenge_runs_truthful w0 challenger play pc pd c
                  Ht Hne Hpc Hpd Hc) as (r & w1 & Hrun & _).
      rewrite (bind_Ok _ _ _ _ _ Hrun). discriminate.
    + destruct (processChallenge_runs_bluff w0 challenger play pc pd c
                  Hb Hpc Hpd Hc) as (r & w1 & Hrun & _).
      rewrite (bind_Ok _ _ _ _ _ Hrun). discriminate.
  - exfalso. revert E Hr. unfold makeChallenge, bind at 1, isPlayer, gets.
    rewrite bool_decide_eq_true_2 by (rewrite Hpc; eauto). cbn [negb].
    unfold bind at 1, getChallengeSystem, gets. rewrite Hlast, Hch. cbn [negb].
    rewrite bool_decide_eq_false_2 by exact Hne.
    intros E Hr.
    apply bind_inv in E as (u & w0 & _ & E).
    apply bind_inv in E as (cr & w1 & _ & E).
    injection E as <- _. discriminate Hr.
  - exists r, w'. auto.
Qed.

(** The scenarios of the specification at the level of [makeChallenge]: a
    challenge by another player of a challengeable play goes through
    [processChallenge] and nothing after it touches a score or a card. *)
Lemma makeChallenge_truthful (w : World.t) (challenger : PlayerRef)
    (play : Play.t) (pc pd : Player.t) (c : Card.t) :
  ChallengeSystem.lastPlayedCard (World.challengeSystem w) = Some play ->
  Play.challengeable play = true ->
  Play.claimedType play = Play.actualType play ->
  challenger <> Play.player play ->
  World.players w !! challenger = Some pc ->
  World.players w !! Play.player play = Some pd ->
  World.cards w !! Play.card play = Some c ->
  exists cr w',
    makeChallenge challenger w
    = Ok (MakeChallengeResult.mk true None (Some cr), w')
    /\ ChallengeOutcome.result cr = FAILED
    /\ scoreOf w' challenger
       = Some (Z.max 0 (Player.score pc - SCORING.CHALLENGE_PENALTY))
    /\ (forall r', r' <> challenger -> scoreOf w' r' = scoreOf w r').
Proof.
  intros Hlast Hch Htruth Hne Hpc Hpd Hc.
  assert (Hrun : runs (makeChallenge challenger) w (fun r w' =>
    exists cr, r = MakeChallengeResult.mk true None (Some cr)
    /\ ChallengeOutcome.result cr = FAILED
    /\ scoreOf w' challenger
       = Some (Z.max 0 (Player.score pc - SCORING.CHALLENGE_PENALTY))
    /\ (forall r', r' <> challenger -> scoreOf w' r' = scoreOf w r'))).
  { unfold makeChallenge. apply runs_bind, runs_gets.
    rewrite bool_decide_eq_true_2 by (rewrite Hpc; eauto). cbn [negb].
    apply runs_bind, runs_gets. rewrite Hlast, Hch. cbn [negb].
    rewrite bool_decide_eq_false_2 by exact Hne.
    apply runs_bind.
    destruct (ChallengeSystem.challengeTimer (World.challengeSystem w));
      repeat wp_step;
      (eapply runs_weaken;
       [ apply (processChallenge_runs_truthful _ challenger play pc pd c
                  Htruth Hne); solve_lookup
       | intros cr w1 (Hres & _ & _ & Hscore & Hothers);
         repeat wp_step; exists cr; auto ]). }
  destruct Hrun as (r & w' & Hrun & cr & -> & H). exists cr, w'. auto.
Qed.

Lemma makeChallenge_bluff (w : World.t) (challenger : PlayerRef)
    (play : Play.t) (pc pd : Player.t) (c : Card.t) :
  ChallengeSystem.lastPlayedCard (World.challengeSystem w) = Some play ->
  Play.challengeable play = true ->
  Play.claimedType play <> Play.actualType play ->
  challenger <> Play.player play ->
  World.players w !! challenger = Some pc ->
  World.players w !! Play.player play = Some pd ->
  World.cards w !! Play.card play = Some c ->
  exists cr w',
    makeChallenge challenger w
    = Ok (MakeChallengeResult.mk true None (Some cr), w')
    /\ ChallengeOutcome.result cr = SUCCESSFUL
    /\ ChallengeOutcome.pointsChanged cr = 0
    /\ World.cards w' !! Play.card play = Some (Card.revealed (World.clock w) c)
    /\ (forall r', scoreOf w' r' = scoreOf w r').
Proof.
  intros Hlast Hch Hbluff Hne Hpc Hpd Hc.
  assert (Hrun : runs (makeChallenge challenger) w (fun r w' =>
    exists cr, r = MakeChallengeResult.mk true None (Some cr)
    /\ ChallengeOutcome.result cr = SUCCESSFUL
    /\ ChallengeOutcome.pointsChanged cr = 0
    /\ World.cards w' !! Play.card play = Some (Card.revealed (World.clock w) c)
    /\ (forall r', scoreOf w' r' = scoreOf w r'))).
  { unfold makeChallenge. apply runs_bind, runs_gets.
    rewrite bool_decide_eq_true_2 by (rewrite Hpc; eauto). cbn [negb].
    apply runs_bind, runs_gets. rewrite Hlast, Hch. cbn [negb].
    rewrite bool_decide_eq_false_2 by exact Hne.
    apply runs_bind.
    destruct (ChallengeSystem.challengeTimer (World.challengeSystem w));
      repeat wp_step;
      (eapply runs_weaken;
       [ apply (processChallenge_runs_bluff _ challenger play pc pd c Hbluff);
         solve_lookup
       | intros cr w1 (Hres & _ & Hpts & _ & Hcard & Hscores);
         repeat wp_step; exists cr; auto ]). }
  destruct Hrun as (r & w' & Hrun & cr & -> & H). exists cr, w'. auto.
Qed.



(** The bound is reached: the first of these challenges succeeds. *)
Example runOps_one_success :
  fst (runOps [DoMakeChallenge Sample.human; DoMakeChallenge Sample.human;
               DoMakeChallenge Sample.human] Sample.bluffed) = 1%nat.
Proof. vm_compute. reflexivity. Qed.

(** ** Closing the challenge window *)

(** C8, as the code has it: [closeChallengeWindow] always returns, and a
    second call in a row leaves the challenge system, the pending timers,
    the players, the cards, the grid and the clock as the first call left
    them: the pending play stays non-challengeable and the timer stays
    cancelled. Each call emits one [CHALLENGE_WINDOW_CLOSED] event, so the
    world after the second call is the world after the first with that event
    emitted once more. *)
Theorem closeChallengeWindow_idempotent_state (w : World.t) :
  exists w1 w2,
    closeChallengeWindow w = Ok (tt, w1)
    /\ closeChallengeWindow w1 = Ok (tt, w2)
    /\ World.challengeSystem w2 = World.challengeSystem w1
    /\ World.timers w2 = World.timers w1
    /\ World.players w2 = World.players w1
    /\ World.cards w2 = World.cards w1
    /\ World.gridSystem w2 = World.gridSystem w1
    /\ World.clock w2 = World.clock w1
    /\ closed w1 /\ closed w2
    /\ ChallengeSystem.challengeTimer (World.challengeSystem w1) = None
    /\ ChallengeSystem.challengeTimer (World.challengeSystem w2) = None
    /\ World.events w1
       = World.events w
         ++ [CHALLENGE_WINDOW_CLOSED
               (ChallengeSystem.lastPlayedCard (World.challengeSystem w1))]
    /\ w2 = World.set_events
              (World.events w1
               ++ [CHALLENGE_WINDOW_CLOSED
                     (ChallengeSystem.lastPlayedCard (World.challengeSystem w1))])
              w1.
Proof.
  unfold closeChallengeWindow, closed.
  destruct w as [ps cs [hist last window timer] g b t ts nt ev].
  destruct timer as [h |], last as [play |];
    (eexists; eexists; split; [reflexivity |]; split; [reflexivity |]);
    cbn; repeat split; reflexivity.
Qed.

(** C8 as stated fails: in the sample match, with the bluff pending, the
    second call of [closeChallengeWindow] emits the event again, so two
    calls do not end where one call ends. *)
Lemma closeChallengeWindow_emits_again :
  World.events
    (Sample.after closeChallengeWindow
       (Sample.after closeChallengeWindow Sample.bluffed))
  <> World.events (Sample.after closeChallengeWindow Sample.bluffed)
  /\ Sample.after closeChallengeWindow
       (Sample.after closeChallengeWindow Sample.bluffed)
     <> Sample.after closeChallengeWindow Sample.bluffed.
Proof.
  assert (Hlen :
    length (World.events
              (Sample.after closeChallengeWindow
                 (Sample.after closeChallengeWindow Sample.bluffed)))
    <> length (World.events (Sample.after closeChallengeWindow Sample.bluffed))).
  { vm_compute. intros H. discriminate H. }
  split; intros H; apply Hlen; rewrite H; reflexivity.
Qed.

(** ** Battle pairs *)

Section BattlePairs.
Variable w : World.t.
Local Abbreviation g := (World.gridSystem w).
Hypothesis Hwf : GridSpec.wf g.

Lemma getCardAt_in_range (p : Z) :
  0 <= p < GridSystem.totalPositions g ->
  getCardAt p w = Ok (GridSpec.cardIn g p, w).
Proof.
  intros Hp. unfold getCardAt, bind, getGridSystem, gets, ret.
  replace (p <? 0) with false by lia.
  replace (GridSystem.totalPositions g <=? p) with false by lia.
  cbn. unfold gridSlot, GridSpec.cardIn.
  replace (p <? 0) with false by lia.
  destruct (GridSystem.grid g !! Z.to_nat p); reflexivity.
Qed.

Lemma positionToCoords_in_range (p : Z) :
  0 <= p < GridSystem.totalPositions g ->
  positionToCoords p w
  = Ok (Coords.mk (p / GridSystem.width g) (Z.rem p (GridSystem.width g)), w).
Proof.
  intros Hp. unfold positionToCoords, bind, getGridSystem, gets, ret.
  replace (p <? 0) with false by lia.
  replace (GridSystem.totalPositions g <=? p) with false by lia.
  reflexivity.
Qed.

Lemma width_pos : 0 < GridSystem.totalPositions g -> 0 < GridSystem.width g.
Proof. destruct Hwf as (Hw & Hh & Htot & _). nia. Qed.

(** The test of the loop body is the test of the specification. *)
Lemma coords_test (p : Z) :
  0 <= p -> p + 1 < GridSystem.totalPositions g ->
  (p / GridSystem.width g =? (p + 1) / GridSystem.width g)
    && (Z.rem (p + 1) (GridSystem.width g) =? Z.rem p (GridSystem.width g) + 1)
  = GridSpec.sameRowNextCol g p.
Proof.
  intros Hp Hp1. unfold GridSpec.sameRowNextCol, GridSpec.row, GridSpec.col.
  pose proof width_pos as Hpos.
  rewrite !Z.rem_mod_nonneg by lia. reflexivity.
Qed.

Lemma getBattlePairs_loop_spec (n : nat) (p : Z) (battles : list Battle.t) :
  0 <= p -> p + Z.of_nat n = Z.max 0 (GridSystem.totalPositions g - 1) ->
  getBattlePairs_loop n p battles w
  = Ok (battles ++ omap (GridSpec.pairAt g) (seqZ p (Z.of_nat n)), w).
Proof.
  revert p battles. induction n as [| n IH]; intros p battles Hp Hend.
  - cbn. rewrite app_nil_r. reflexivity.
  - cbn [getBattlePairs_loop].
    rewrite (bind_Ok _ _ _ _ _ (getCardAt_in_range p ltac:(lia))).
    rewrite (bind_Ok _ _ _ _ _ (getCardAt_in_range (p + 1) ltac:(lia))).
    rewrite (bind_Ok _ _ _ _ _ (positionToCoords_in_range p ltac:(lia))).
    rewrite (bind_Ok _ _ _ _ _ (positionToCoords_in_range (p + 1) ltac:(lia))).
    cbn [Coords.row Coords.col].
    rewrite coords_test by lia.
    rewrite IH by lia.
    rewrite (seqZ_cons p (Z.of_nat (S n))) by lia.
    replace (Z.pred (Z.of_nat (S n))) with (Z.of_nat n) by lia.
    replace (Z.succ p) with (p + 1) by lia.
    cbn [omap list_omap]. unfold GridSpec.pairAt at 2.
    destruct (GridSpec.cardIn g p) as [c1 |],
             (GridSpec.cardIn g (p + 1)) as [c2 |];
      try reflexivity.
    destruct (GridSpec.sameRowNextCol g p);
      [rewrite <- app_assoc |]; reflexivity.
Qed.

Lemma getBattlePairs_refines : getBattlePairs w = Ok (GridSpec.battlePairs g, w).
Proof.
  unfold getBattlePairs, bind at 1, getGridSystem, gets.
  rewrite getBattlePairs_loop_spec by lia.
  unfold GridSpec.battlePairs. cbn [app].
  destruct (Z.le_gt_cases (GridSystem.totalPositions g - 1) 0).
  - rewrite !seqZ_nil by lia. reflexivity.
  - rewrite Z2Nat.id by lia. reflexivity.
Qed.

(** [identifyBattles] appends the same pairs to the battle queue. *)
Lemma identifyBattles_loop_spec (n : nat) (p : Z) (w0 : World.t) :
  World.gridSystem w0 = g ->
  0 <= p -> p + Z.of_nat n = Z.max 0 (GridSystem.totalPositions g - 1) ->
  identifyBattles_loop n p w0
  = Ok (tt, World.set_battleSystem
              (BattleSystem.set_battleQueue
                 (BattleSystem.battleQueue (World.battleSystem w0)
                  ++ omap (GridSpec.pairAt g) (seqZ p (Z.of_nat n)))
                 (World.battleSystem w0)) w0).
Proof.
  revert p w0. induction n as [| n IH]; intros p w0 Hg Hp Hend.
  - cbn. rewrite app_nil_r. destruct w0 as [? ? ? ? [] ? ? ? ?]. reflexivity.
  - cbn [identifyBattles_loop].
    assert (Hcard : forall q, 0 <= q < GridSystem.totalPositions g ->
              getCardAt q w0 = Ok (GridSpec.cardIn g q, w0)).
    { intros q Hq. pose proof (getCardAt_in_range q Hq) as H.
      revert H. unfold getCardAt, bind, getGridSystem, gets, ret.
      rewrite Hg.
      destruct ((q <? 0) || (GridSystem.totalPositions g <=? q));
        intros H; injection H as <-; reflexivity. }
    assert (Hcoords : forall q, 0 <= q < GridSystem.totalPositions g ->
              positionToCoords q w0
              = Ok (Coords.mk (q / GridSystem.width g)
                              (Z.rem q (GridSystem.width g)), w0)).
    { intros q Hq. unfold positionToCoords, bind, getGridSystem, gets, ret.
      rewrite Hg.
      replace (q <? 0) with false by lia.
      replace (GridSystem.totalPositions g <=? q) with false by lia.
      reflexivity. }
    rewrite (seqZ_cons p (Z.of_nat (S n))) by lia.
    replace (Z.pred (Z.of_nat (S n))) with (Z.of_nat n) by lia.
    replace (Z.succ p) with (p + 1) by lia.
    cbn [omap list_omap]. unfold GridSpec.pairAt at 1.
    rewrite (bind_Ok _ _ _ _ _ (Hcard p ltac:(lia))).
    rewrite (bind_Ok _ _ _ _ _ (Hcard (p + 1) ltac:(lia))).
    destruct (GridSpec.cardIn g p) as [c1 |],
             (GridSpec.cardIn g (p + 1)) as [c2 |];
      try (unfold bind at 1, ret; rewrite IH by (try exact Hg; lia);
           reflexivity).
    unfold bind at 1.
    rewrite (bind_Ok _ _ _ _ _ (Hcoords p ltac:(lia))).
    rewrite (bind_Ok _ _ _ _ _ (Hcoords (p + 1) ltac:(lia))).
    cbn [Coords.row Coords.col]. rewrite coords_test by lia.
    destruct (GridSpec.sameRowNextCol g p).
    + unfold pushBattle, modify. rewrite IH by (try exact Hg; lia).
      cbn. rewrite <- app_assoc. reflexivity.
    + unfold ret. rewrite IH by (try exact Hg; lia). reflexivity.
Qed.
End BattlePairs.

Lemma identifyBattles_refines (w : World.t) :
  GridSpec.wf (World.gridSystem w) ->
  identifyBattles w
  = Ok (tt, World.set_battleSystem
              (BattleSystem.set_battleQueue
                 (BattleSystem.battleQueue (World.battleSystem w)
                  ++ GridSpec.battlePairs (World.gridSystem w))
                 (World.battleSystem w)) w).
Proof.
  intros Hwf. unfold identifyBattles, bind at 1, getGridSystem, gets.
  rewrite (identifyBattles_loop_spec w Hwf) by (reflexivity || lia).
  unfold GridSpec.battlePairs.
  destruct (Z.le_gt_cases (GridSystem.totalPositions (World.gridSystem w) - 1) 0).
  - rewrite !seqZ_nil by lia. reflexivity.
  - rewrite Z2Nat.id by lia. reflexivity.
Qed.

Lemma pairAt_Some (g : GridSystem.t) (p : Z) (b : Battle.t) :
  GridSpec.pairAt g p = Some b <->
  Battle.position1 b = p /\ Battle.position2 b = p + 1
  /\ GridSpec.cardIn g p = Some (Battle.card1 b)
  /\ GridSpec.cardIn g (p + 1) = Some (Battle.card2 b)
  /\ GridSpec.sameRowNextCol g p = true
  /\ Battle.type b = "horizontal".
Proof.
  unfold GridSpec.pairAt.
  destruct (GridSpec.cardIn g p) as [c1 |],
           (GridSpec.cardIn g (p + 1)) as [c2 |],
           (GridSpec.sameRowNextCol g p); destruct b as [p1 b1 p2 b2 ty]; cbn;
    split; try (intros H; discriminate H);
    try (intros (_ & _ & H & _); discriminate H);
    try (intros (_ & _ & _ & H & _); discriminate H);
    try (intros (_ & _ & _ & _ & H & _); discriminate H).
  - intros H. injection H as <- <- <- <- <-. auto 10.
  - intros (-> & -> & H1 & H2 & _ & ->).
    injection H1 as ->. injection H2 as ->. reflexivity.
Qed.

Lemma battlePairs_elem (g : GridSystem.t) (b : Battle.t) :
  b ∈ GridSpec.battlePairs g <->
  (0 <= Battle.position1 b
   /\ Battle.position1 b + 1 < GridSystem.totalPositions g)
  /\ Battle.position2 b = Battle.position1 b + 1
  /\ GridSpec.cardIn g (Battle.position1 b) = Some (Battle.card1 b)
  /\ GridSpec.cardIn g (Battle.position2 b) = Some (Battle.card2 b)
  /\ GridSpec.row g (Battle.position1 b) = GridSpec.row g (Battle.position2 b)
  /\ GridSpec.col g (Battle.position2 b) = GridSpec.col g (Battle.position1 b) + 1
  /\ Battle.type b = "horizontal".
Proof.
  unfold GridSpec.battlePairs. rewrite list_elem_of_omap. split.
  - intros (p & Hp & Hpair). apply elem_of_seqZ in Hp.
    apply pairAt_Some in Hpair as (H1 & H2 & Hc1 & Hc2 & Hadj & Hty).
    unfold GridSpec.sameRowNextCol in Hadj.
    apply andb_true_iff in Hadj as [Hrow Hcol].
    apply Z.eqb_eq in Hrow, Hcol.
    rewrite H1, H2. repeat split; try assumption; lia.
  - intros ([Hlo Hhi] & H2 & Hc1 & Hc2 & Hrow & Hcol & Hty).
    exists (Battle.position1 b). split; [apply elem_of_seqZ; lia |].
    apply pairAt_Some. rewrite H2 in *.
    repeat split; try assumption.
    unfold GridSpec.sameRowNextCol.
    apply andb_true_iff. split; apply Z.eqb_eq; assumption.
Qed.

Lemma battlePairs_sorted_from (g : GridSystem.t) (n : nat) (p : Z) :
  StronglySorted Z.lt
    (Battle.position1 <$> omap (GridSpec.pairAt g) (seqZ p (Z.of_nat n)))
  /\ Forall (fun q => p <= q)
       (Battle.position1 <$> omap (GridSpec.pairAt g) (seqZ p (Z.of_nat n))).
Proof.
  revert p. induction n as [| n IH]; intros p.
  - rewrite seqZ_nil by lia. split; constructor.
  - rewrite seqZ_cons by lia.
    replace (Z.pred (Z.of_nat (S n))) with (Z.of_nat n) by lia.
    destruct (IH (Z.succ p)) as [Hsorted Hall].
    assert (Hall' : Forall (fun q => p < q)
              (Battle.position1 <$>
                 omap (GridSpec.pairAt g) (seqZ (Z.succ p) (Z.of_nat n)))).
    { eapply Forall_impl; [exact Hall |]. cbn. intros q Hq. lia. }
    cbn [omap list_omap].
    destruct (GridSpec.pairAt g p) as [b |] eqn:Hpair.
    + apply pairAt_Some in Hpair as (H1 & _).
      cbn [fmap list_fmap]. rewrite H1. split.
      * constructor; assumption.
      * constructor; [lia |].
        eapply Forall_impl; [exact Hall' |]. cbn. intros q Hq. lia.
    + split; [exact Hsorted |].
      eapply Forall_impl; [exact Hall' |]. cbn. intros q Hq. lia.
Qed.

Lemma battlePairs_sorted (g : GridSystem.t) :
  StronglySorted Z.lt (Battle.position1 <$> GridSpec.battlePairs g).
Proof.
  unfold GridSpec.battlePairs.
  destruct (Z.le_gt_cases (GridSystem.totalPositions g - 1) 0).
  - rewrite seqZ_nil by lia. constructor.
  - rewrite <- (Z2Nat.id (GridSystem.totalPositions g - 1)) by lia.
    apply battlePairs_sorted_from.
Qed.

(** C6. On a grid of [width * height] slots, [getBattlePairs] returns, without
    changing anything, exactly the pairs (p, p + 1) for p from 0 to N - 2, in
    increasing order of p, whose two slots hold a card and lie in the same
    row, p + 1 in the next column. No pair starts in the last column: on a
    grid of width 5, position 4 is never paired with position 5. *)
Theorem getBattlePairs_same_row_adjacent (w : World.t) :
  GridSpec.wf (World.gridSystem w) ->
  getBattlePairs w = Ok (GridSpec.battlePairs (World.gridSystem w), w)
  /\ (forall b, b ∈ GridSpec.battlePairs (World.gridSystem w) <->
        (0 <= Battle.position1 b
         /\ Battle.position1 b + 1 < GridSystem.totalPositions (World.gridSystem w))
        /\ Battle.position2 b = Battle.position1 b + 1
        /\ GridSpec.cardIn (World.gridSystem w) (Battle.position1 b)
           = Some (Battle.card1 b)
        /\ GridSpec.cardIn (World.gridSystem w) (Battle.position2 b)
           = Some (Battle.card2 b)
        /\ GridSpec.row (World.gridSystem w) (Battle.position1 b)
           = GridSpec.row (World.gridSystem w) (Battle.position2 b)
        /\ GridSpec.col (World.gridSystem w) (Battle.position2 b)
           = GridSpec.col (World.gridSystem w) (Battle.position1 b) + 1
        /\ Battle.type b = "horizontal")
  /\ StronglySorted Z.lt
       (Battle.position1 <$> GridSpec.battlePairs (World.gridSystem w))
  /\ (forall b, b ∈ GridSpec.battlePairs (World.gridSystem w) ->
        GridSpec.col (World.gridSystem w) (Battle.position1 b) + 1
        < GridSystem.width (World.gridSystem w))
  /\ (GridSystem.width (World.gridSystem w) = 5 ->
      forall b, b ∈ GridSpec.battlePairs (World.gridSystem w) ->
        Battle.position1 b <> 4).
Proof.
  intros Hwf.
  assert (Hcol : forall b, b ∈ GridSpec.battlePairs (World.gridSystem w) ->
            GridSpec.col (World.gridSystem w) (Battle.position1 b) + 1
            < GridSystem.width (World.gridSystem w)).
  { intros b Hb. apply battlePairs_elem in Hb as ([Hlo Hhi] & _ & _ & _ & _ & Hc & _).
    rewrite <- Hc. unfold GridSpec.col.
    apply Z.mod_pos_bound. apply (width_pos w Hwf). lia. }
  split; [apply getBattlePairs_refines; exact Hwf |].
  split; [apply battlePairs_elem |].
  split; [apply battlePairs_sorted |].
  split; [exact Hcol |].
  intros H5 b Hb H4. specialize (Hcol b Hb).
  unfold GridSpec.col in Hcol. rewrite H5, H4 in Hcol.
  vm_compute in Hcol. discriminate Hcol.
Qed.

(** In the sample match with cards at positions 4, 5 and 6, the only pair
    is (5, 6): positions 4 and 5 are both occupied, and are not paired. *)
Lemma getBattlePairs_same_row_adjacent_witness :
  getBattlePairs Sample.crowded
  = Ok (GridSpec.battlePairs (World.gridSystem Sample.crowded), Sample.crowded)
  /\ GridSpec.battlePairs (World.gridSystem Sample.crowded)
     = [Battle.mk 5 Sample.paperCard 6 Sample.scissorsCard "horizontal"]
  /\ GridSpec.cardIn (World.gridSystem Sample.crowded) 4 = Some Sample.rockCard.
Proof.
  destruct (getBattlePairs_same_row_adjacent Sample.crowded) as (H & _).
  - unfold GridSpec.wf. vm_compute.
    repeat split; try reflexivity; intros Hcmp; discriminate Hcmp.
  - split; [exact H |]. split; vm_compute; reflexivity.
Defined.

(** ** Removing a card from the grid *)

Ltac wp_grid :=
  first
    [ wp_step
    | lazymatch goal with
      | |- runs (recordChange _ _ _) _ _ => unfold recordChange
      | |- runs (if ?b then _ else _) _ _ => destruct b
      end ].

Lemma cardIn_Some (g : GridSystem.t) (p : Z) (card : CardRef) :
  GridSpec.cardIn g p = Some card ->
  GridSystem.grid g !! Z.to_nat p = Some (Some card).
Proof.
  unfold GridSpec.cardIn.
  destruct (GridSystem.grid g !! Z.to_nat p) as [[c |] |]; cbn; congruence.
Qed.

(** [removeCard] on an occupied slot whose card is in the store. *)
Lemma removeCard_runs (w : World.t) (p : Z) (card : CardRef) (c : Card.t) :
  0 <= p < GridSystem.totalPositions (World.gridSystem w) ->
  GridSpec.cardIn (World.gridSystem w) p = Some card ->
  World.cards w !! card = Some c ->
  runs (removeCard p) w (fun r w' =>
    r = Some card
    /\ GridSystem.grid (World.gridSystem w')
       = <[Z.to_nat p := None]> (GridSystem.grid (World.gridSystem w))
    /\ GridSystem.positionStates (World.gridSystem w')
       = <[Z.to_nat p := EMPTY]> (GridSystem.positionStates (World.gridSystem w))
    /\ GridSystem.totalPositions (World.gridSystem w')
       = GridSystem.totalPositions (World.gridSystem w)
    /\ GridSystem.width (World.gridSystem w') = GridSystem.width (World.gridSystem w)
    /\ GridSystem.height (World.gridSystem w') = GridSystem.height (World.gridSystem w)
    /\ World.cards w' = World.cards w
    /\ World.players w' = World.players w
    /\ World.challengeSystem w' = World.challengeSystem w
    /\ World.events w' = World.events w ++ [UI_UPDATE "card_removed" card p]).
Proof.
  intros Hp Hcard Hc. unfold removeCard.
  apply runs_bind, runs_gets.
  replace (p <? 0) with false by lia.
  replace (GridSystem.totalPositions (World.gridSystem w) <=? p) with false by lia.
  cbn [orb]. unfold gridSlot. replace (p <? 0) with false by lia.
  rewrite (cardIn_Some _ _ _ Hcard). cbn [default from_option id].
  repeat wp_grid; world_simpl; cbn; repeat split; reflexivity.
Qed.

(** C10. [removeCard] on an in-range position [p] whose slot holds card [c]
    returns [c] and empties the slot ([getCardAt p] is then null and the
    position state is EMPTY), and it changes no card of the store: every
    field of [c] is what it was, so a card that was placed at [p] still has
    position [p] and state 'placed' although the grid no longer holds it. *)
Theorem removeCard_leaves_card (w : World.t) (p : Z) (card : CardRef) (c : Card.t) :
  GridSpec.wf (World.gridSystem w) ->
  0 <= p < GridSystem.totalPositions (World.gridSystem w) ->
  GridSpec.cardIn (World.gridSystem w) p = Some card ->
  World.cards w !! card = Some c ->
  exists w',
    removeCard p w = Ok (Some card, w')
    /\ getCardAt p w' = Ok (None, w')
    /\ GridSpec.cardIn (World.gridSystem w') p = None
    /\ GridSystem.positionStates (World.gridSystem w') !! Z.to_nat p = Some EMPTY
    /\ (forall q, q <> p -> 0 <= q ->
          GridSpec.cardIn (World.gridSystem w') q
          = GridSpec.cardIn (World.gridSystem w) q)
    /\ World.cards w' = World.cards w
    /\ World.cards w' !! card = Some c
    /\ (Card.position c = Some p -> Card.state c = PLACED ->
        exists c', World.cards w' !! card = Some c'
                   /\ Card.position c' = Some p /\ Card.state c' = PLACED
                   /\ GridSpec.cardIn (World.gridSystem w') p = None).
Proof.
  intros Hwf Hp Hcard Hc.
  destruct (removeCard_runs w p card c Hp Hcard Hc)
    as (r & w' & Hrun & -> & Hgrid & Hstates & Htot & _ & _ & Hcards & _).
  destruct Hwf as (_ & _ & _ & Hlen & Hlens).
  assert (Hempty : GridSpec.cardIn (World.gridSystem w') p = None).
  { unfold GridSpec.cardIn. rewrite Hgrid.
    rewrite list_lookup_insert_eq by lia. reflexivity. }
  exists w'. split; [exact Hrun |]. split; [| split; [exact Hempty |]].
  { unfold getCardAt, bind, getGridSystem, gets, ret. rewrite Htot.
    replace (p <? 0) with false by lia.
    replace (GridSystem.totalPositions (World.gridSystem w) <=? p) with false by lia.
    cbn [orb]. unfold gridSlot. replace (p <? 0) with false by lia.
    unfold GridSpec.cardIn in Hempty.
    destruct (GridSystem.grid (World.gridSystem w') !! Z.to_nat p) as [[x |] |];
      cbn in *; congruence. }
  split.
  { rewrite Hstates. apply list_lookup_insert_eq. lia. }
  split.
  { intros q Hq Hq0. unfold GridSpec.cardIn. rewrite Hgrid.
    rewrite list_lookup_insert_ne by lia. reflexivity. }
  split; [exact Hcards |]. split; [rewrite Hcards; exact Hc |].
  intros Hpos Hstate. exists c. rewrite Hcards. auto.
Qed.

(** In the sample match the rock card is placed at position 4 and then
    removed: the grid forgets it, the card does not. *)
Lemma removeCard_leaves_card_witness :
  exists w' c',
    removeCard 4 Sample.crowded = Ok (Some Sample.rockCard, w')
    /\ getCardAt 4 w' = Ok (None, w')
    /\ GridSystem.positionStates (World.gridSystem w') !! 4%nat = Some EMPTY
    /\ World.cards w' !! Sample.rockCard = Some c'
    /\ Card.position c' = Some 4 /\ Card.state c' = PLACED.
Proof.
  destruct (removeCard_leaves_card Sample.crowded 4 Sample.rockCard
              (default (Card.new ROCK "card_0" 0)
                 (World.cards Sample.crowded !! Sample.rockCard)))
    as (w' & Hrun & Hget & _ & Hstate & _ & _ & _ & Hstill).
  - unfold GridSpec.wf. vm_compute.
    repeat split; try reflexivity; intros Hcmp; discriminate Hcmp.
  - vm_compute. split; [intros Hcmp; discriminate Hcmp | reflexivity].
  - vm_compute. reflexivity.
  - vm_compute. reflexivity.
  - destruct Hstill as (c' & Hc' & Hpos & Hst & _);
      [vm_compute; reflexivity | vm_compute; reflexivity |].
    exists w', c'. auto 10.
Defined.

(** ** The shape of the grid is kept *)

Lemma GridSystem_new_wf (width height t : Z) :
  0 <= width -> 0 <= height -> GridSpec.wf (GridSystem.new width height t).
Proof.
  intros Hw Hh. unfold GridSpec.wf, GridSystem.new. cbn.
  rewrite !length_replicate. repeat split; lia.
Qed.

Lemma removeCard_wf (w : World.t) (p : Z) (card : CardRef) (c : Card.t) :
  GridSpec.wf (World.gridSystem w) ->
  0 <= p < GridSystem.totalPositions (World.gridSystem w) ->
  GridSpec.cardIn (World.gridSystem w) p = Some card ->
  World.cards w !! card = Some c ->
  runs (removeCard p) w (fun _ w' => GridSpec.wf (World.gridSystem w')).
Proof.
  intros Hwf Hp Hcard Hc.
  eapply runs_weaken; [apply (removeCard_runs w p card c Hp Hcard Hc) |].
  intros r w' (_ & Hgrid & Hstates & Htot & Hwidth & Hheight & _).
  unfold GridSpec.wf in *.
  rewrite Hgrid, Hstates, Htot, Hwidth, Hheight, !length_insert. exact Hwf.
Qed.

(** [placeCard] of a card of the store on a free slot of the 15 positions a
    card accepts. *)
Lemma placeCard_runs (w : World.t) (p : Z) (card : CardRef) (c : Card.t) :
  0 <= p < GridSystem.totalPositions (World.gridSystem w) ->
  p < GAME_CONFIG.TOTAL_POSITIONS ->
  GridSystem.grid (World.gridSystem w) !! Z.to_nat p = Some None ->
  World.cards w !! card = Some c ->
  runs (placeCard card p) w (fun r w' =>
    r = true
    /\ GridSystem.grid (World.gridSystem w')
       = <[Z.to_nat p := Some card]> (GridSystem.grid (World.gridSystem w))
    /\ GridSystem.positionStates (World.gridSystem w')
       = <[Z.to_nat p := OCCUPIED]> (GridSystem.positionStates (World.gridSystem w))
    /\ GridSystem.totalPositions (World.gridSystem w')
       = GridSystem.totalPositions (World.gridSystem w)
    /\ GridSystem.width (World.gridSystem w') = GridSystem.width (World.gridSystem w)
    /\ GridSystem.height (World.gridSystem w') = GridSystem.height (World.gridSystem w)
    /\ World.cards w' = <[card := Card.placed p (World.clock w) c]> (World.cards w)).
Proof.
  intros Hp H15 Hfree Hc. unfold placeCard.
  apply runs_bind, runs_gets.
  rewrite bool_decide_eq_true_2 by (rewrite Hc; eauto). cbn [negb].
  apply runs_bind. unfold isPositionAvailable.
  apply runs_bind, runs_gets, runs_ret.
  unfold gridSlot. replace (p <? 0) with false by lia. rewrite Hfree.
  rewrite bool_decide_eq_true_2 by reflexivity.
  replace (0 <=? p) with true by lia.
  replace (p <? GridSystem.totalPositions (World.gridSystem w)) with true by lia.
  cbn [andb negb].
  unfold place.
  replace (p <? 0) with false by lia.
  replace (GAME_CONFIG.TOTAL_POSITIONS <=? p) with false by lia.
  cbn [orb].
  repeat wp_grid; world_simpl; cbn; repeat split; reflexivity.
Qed.

Lemma placeCard_wf (w : World.t) (p : Z) (card : CardRef) (c : Card.t) :
  GridSpec.wf (World.gridSystem w) ->
  0 <= p < GridSystem.totalPositions (World.gridSystem w) ->
  p < GAME_CONFIG.TOTAL_POSITIONS ->
  GridSystem.grid (World.gridSystem w) !! Z.to_nat p = Some None ->
  World.cards w !! card = Some c ->
  runs (placeCard card p) w (fun _ w' => GridSpec.wf (World.gridSystem w')).
Proof.
  intros Hwf Hp H15 Hfree Hc.
  eapply runs_weaken; [apply (placeCard_runs w p card c Hp H15 Hfree Hc) |].
  intros r w' (_ & Hgrid & Hstates & Htot & Hwidth & Hheight & _).
  unfold GridSpec.wf in *.
  rewrite Hgrid, Hstates, Htot, Hwidth, Hheight, !length_insert. exact Hwf.
Qed.


(** The plays of the sample match go through. *)
Example sample_plays_return :
  (exists w, Sample.executePlay Sample.rockCard 3 PAPER Sample.world = Ok (tt, w))
  /\ (exists w, Sample.executePlay Sample.rockCard 3 ROCK Sample.world = Ok (tt, w))
  /\ (exists w,
        (Sample.executePlay Sample.rockCard 4 ROCK ;;;
         Sample.executePlay Sample.paperCard 5 PAPER ;;;
         Sample.executePlay Sample.scissorsCard 6 ROCK) Sample.world = Ok (tt, w)).
Proof. repeat split; eexists; vm_compute; reflexivity. Qed.

(** * Further properties of the grid *)

Lemma div_mod_row_major (width r c : Z) :
  0 <= c < width -> (r * width + c) / width = r /\ (r * width + c) mod width = c.
Proof.
  intros Hc. split.
  - symmetry. apply (Z.div_unique_pos _ _ r c); lia.
  - symmetry. apply (Z.mod_unique_pos _ _ r c); lia.
Qed.

Lemma coordsToPosition_in_range (w : World.t) (row col : Z) :
  0 <= row < GridSystem.height (World.gridSystem w) ->
  0 <= col < GridSystem.width (World.gridSystem w) ->
  coordsToPosition row col w
  = Ok (row * GridSystem.width (World.gridSystem w) + col, w).
Proof.
  intros Hr Hc. unfold coordsToPosition, bind, getGridSystem, gets, ret, throw.
  replace (row <? 0) with false by lia.
  replace (GridSystem.height (World.gridSystem w) <=? row) with false by lia.
  replace (col <? 0) with false by lia.
  replace (GridSystem.width (World.gridSystem w) <=? col) with false by lia.
  reflexivity.
Qed.

Lemma coords_in_range (g : GridSystem.t) (p : Z) :
  GridSpec.wf g -> 0 <= p < GridSystem.totalPositions g ->
  0 < GridSystem.width g
  /\ 0 <= p / GridSystem.width g < GridSystem.height g
  /\ 0 <= p mod GridSystem.width g < GridSystem.width g
  /\ Z.rem p (GridSystem.width g) = p mod GridSystem.width g
  /\ p / GridSystem.width g * GridSystem.width g + p mod GridSystem.width g = p.
Proof.
  intros (Hw & Hh & Htot & _) Hp.
  assert (Hpos : 0 < GridSystem.width g) by nia.
  split; [exact Hpos |]. split; [| split; [| split]].
  - split; [apply Z.div_pos; lia |].
    apply Z.div_lt_upper_bound; [lia |]. rewrite <- Htot. lia.
  - apply Z.mod_pos_bound. lia.
  - apply Z.rem_mod_nonneg; lia.
  - pose proof (Z.div_mod p (GridSystem.width g) ltac:(lia)). lia.
Qed.

(** X1. On a grid of [width * height] slots, a position in range has
    coordinates in range, and [coordsToPosition] of these coordinates is the
    position again. *)
Theorem positionToCoords_then_coordsToPosition (w : World.t) (p : Z) :
  GridSpec.wf (World.gridSystem w) ->
  0 <= p < GridSystem.totalPositions (World.gridSystem w) ->
  exists c,
    positionToCoords p w = Ok (c, w)
    /\ 0 <= Coords.row c < GridSystem.height (World.gridSystem w)
    /\ 0 <= Coords.col c < GridSystem.width (World.gridSystem w)
    /\ coordsToPosition (Coords.row c) (Coords.col c) w = Ok (p, w).
Proof.
  intros Hwf Hp.
  destruct (coords_in_range _ p Hwf Hp) as (Hpos & Hrow & Hcol & Hrem & Hsum).
  exists (Coords.mk (p / GridSystem.width (World.gridSystem w))
                    (Z.rem p (GridSystem.width (World.gridSystem w)))).
  split; [apply positionToCoords_in_range; assumption |].
  cbn [Coords.row Coords.col]. rewrite Hrem.
  split; [exact Hrow |]. split; [exact Hcol |].
  rewrite coordsToPosition_in_range by assumption. rewrite Hsum. reflexivity.
Qed.

Lemma positionToCoords_then_coordsToPosition_witness :
  exists c,
    positionToCoords 7 Sample.world = Ok (c, Sample.world)
    /\ 0 <= Coords.row c < 3 /\ 0 <= Coords.col c < 5
    /\ coordsToPosition (Coords.row c) (Coords.col c) Sample.world
       = Ok (7, Sample.world).
Proof.
  apply (positionToCoords_then_coordsToPosition Sample.world 7).
  - unfold GridSpec.wf. vm_compute.
    repeat split; try reflexivity; intros Hcmp; discriminate Hcmp.
  - vm_compute. split; [intros Hcmp; discriminate Hcmp | reflexivity].
Defined.

(** X2. On a grid of [width * height] slots, coordinates in range give a
    position in range, namely [row * width + col], and [positionToCoords]
    of this position gives the coordinates again. *)
Theorem coordsToPosition_then_positionToCoords (w : World.t) (row col : Z) :
  GridSpec.wf (World.gridSystem w) ->
  0 <= row < GridSystem.height (World.gridSystem w) ->
  0 <= col < GridSystem.width (World.gridSystem w) ->
  exists p,
    coordsToPosition row col w = Ok (p, w)
    /\ p = row * GridSystem.width (World.gridSystem w) + col
    /\ 0 <= p < GridSystem.totalPositions (World.gridSystem w)
    /\ positionToCoords p w = Ok (Coords.mk row col, w).
Proof.
  intros Hwf Hr Hc.
  exists (row * GridSystem.width (World.gridSystem w) + col).
  assert (Hp : 0 <= row * GridSystem.width (World.gridSystem w) + col
               < GridSystem.totalPositions (World.gridSystem w)).
  { destruct Hwf as (_ & _ & Htot & _). rewrite Htot. nia. }
  split; [apply coordsToPosition_in_range; assumption |].
  split; [reflexivity |]. split; [exact Hp |].
  rewrite (positionToCoords_in_range w) by exact Hp.
  rewrite Z.rem_mod_nonneg by lia.
  destruct (div_mod_row_major _ row col Hc) as [-> ->]. reflexivity.
Qed.

Lemma coordsToPosition_then_positionToCoords_witness :
  exists p,
    coordsToPosition 2 4 Sample.world = Ok (p, Sample.world)
    /\ p = 2 * 5 + 4
    /\ 0 <= p < 15
    /\ positionToCoords p Sample.world = Ok (Coords.mk 2 4, Sample.world).
Proof.
  apply (coordsToPosition_then_positionToCoords Sample.world 2 4).
  - unfold GridSpec.wf. vm_compute.
    repeat split; try reflexivity; intros Hcmp; discriminate Hcmp.
  - vm_compute. split; [intros Hcmp; discriminate Hcmp | reflexivity].
  - vm_compute. split; [intros Hcmp; discriminate Hcmp | reflexivity].
Defined.

Lemma gridSlot_wf (g : GridSystem.t) (p : Z) :
  GridSpec.wf g -> 0 <= p < GridSystem.totalPositions g ->
  gridSlot g p = Some (GridSpec.cardIn g p).
Proof.
  intros (_ & _ & _ & Hlen & _) Hp. unfold gridSlot, GridSpec.cardIn.
  replace (p <? 0) with false by lia.
  destruct (lookup_lt_is_Some_2 (GridSystem.grid g) (Z.to_nat p) ltac:(lia))
    as [x Hx].
  rewrite Hx. reflexivity.
Qed.

Ltac occupancy_cases :=
  repeat match goal with
  | |- _ /\ _ => split
  | |- _ <-> _ => split
  | |- _ -> _ => intro
  | H : is_Some None |- _ => destruct H as [? H]; discriminate H
  | H : _ /\ _ |- _ => destruct H
  | H : Some _ = None |- _ => discriminate H
  | H : true = false |- _ => discriminate H
  | H : false = true |- _ => discriminate H
  end; try reflexivity; try lia; eauto.

(** X3. Grid occupancy: on a grid of [width * height] slots and for every
    position, in range or not, [isPositionOccupied] answers true exactly when
    [getCardAt] returns a card, and [isPositionAvailable] answers true
    exactly when the position is in range and [getCardAt] returns null. None
    of the three changes anything. *)
Theorem isPositionOccupied_iff_getCardAt (w : World.t) (p : Z) :
  GridSpec.wf (World.gridSystem w) ->
  exists occupied available card,
    isPositionOccupied p w = Ok (occupied, w)
    /\ isPositionAvailable p w = Ok (available, w)
    /\ getCardAt p w = Ok (card, w)
    /\ (occupied = true <-> is_Some card)
    /\ (available = true <->
        0 <= p < GridSystem.totalPositions (World.gridSystem w) /\ card = None)
    /\ (occupied = true -> available = false).
Proof.
  intros Hwf.
  unfold isPositionOccupied, isPositionAvailable, getCardAt, bind,
    getGridSystem, gets, ret.
  destruct (Z.lt_ge_cases p 0) as [Hneg | Hnn].
  { replace (0 <=? p) with false by lia. replace (p <? 0) with true by lia.
    cbn. eexists _, _, _. do 3 (split; [reflexivity |]). occupancy_cases. }
  destruct (Z.lt_ge_cases p (GridSystem.totalPositions (World.gridSystem w)))
    as [Hlt | Hge].
  2: { replace (p <? GridSystem.totalPositions (World.gridSystem w)) with false
         by lia.
       replace (GridSystem.totalPositions (World.gridSystem w) <=? p) with true
         by lia.
       rewrite orb_true_r, !andb_false_r. cbn.
       eexists _, _, _. do 3 (split; [reflexivity |]). occupancy_cases. }
  replace (0 <=? p) with true by lia. replace (p <? 0) with false by lia.
  replace (p <? GridSystem.totalPositions (World.gridSystem w)) with true by lia.
  replace (GridSystem.totalPositions (World.gridSystem w) <=? p) with false by lia.
  rewrite (gridSlot_wf _ p Hwf) by lia.
  destruct (GridSpec.cardIn (World.gridSystem w) p) as [c |].
  - rewrite bool_decide_eq_false_2 by discriminate. cbn.
    eexists _, _, _. do 3 (split; [reflexivity |]). occupancy_cases.
  - rewrite bool_decide_eq_true_2 by reflexivity. cbn.
    eexists _, _, _. do 3 (split; [reflexivity |]). occupancy_cases.
Qed.

Lemma isPositionOccupied_iff_getCardAt_witness :
  exists occupied available card,
    isPositionOccupied 5 Sample.crowded = Ok (occupied, Sample.crowded)
    /\ isPositionAvailable 5 Sample.crowded = Ok (available, Sample.crowded)
    /\ getCardAt 5 Sample.crowded = Ok (card, Sample.crowded)
    /\ (occupied = true <-> is_Some card)
    /\ (available = true <-> 0 <= 5 < 15 /\ card = None)
    /\ (occupied = true -> available = false).
Proof.
  apply (isPositionOccupied_iff_getCardAt Sample.crowded 5).
  unfold GridSpec.wf. vm_compute.
  repeat split; try reflexivity; intros Hcmp; discriminate Hcmp.
Defined.


Section SlotLoops.
Variable w : World.t.
Local Abbreviation g := (World.gridSystem w).
Hypothesis Hwf : GridSpec.wf g.

Lemma getAllCards_loop_spec (n : nat) (i : Z) (cards : list CardEntry.t) :
  0 <= i -> i + Z.of_nat n = GridSystem.totalPositions g ->
  getAllCards_loop n i cards w
  = Ok (cards ++ omap (entryAt g) (seqZ i (Z.of_nat n)), w).
Proof.
  revert i cards. induction n as [| n IH]; intros i cards Hi Hend.
  - cbn. rewrite app_nil_r. reflexivity.
  - cbn [getAllCards_loop]. unfold bind at 1, getGridSystem, gets.
    rewrite (gridSlot_wf g i Hwf) by lia.
    rewrite IH by lia.
    rewrite (seqZ_cons i (Z.of_nat (S n))) by lia.
    replace (Z.pred (Z.of_nat (S n))) with (Z.of_nat n) by lia.
    replace (Z.succ i) with (i + 1) by lia.
    cbn [omap list_omap]. unfold entryAt at 2.
    destruct (GridSpec.cardIn g i) as [c |].
    + rewrite bool_decide_eq_false_2 by discriminate. cbn.
      rewrite <- app_assoc. reflexivity.
    + rewrite bool_decide_eq_true_2 by reflexivity. reflexivity.
Qed.

Lemma getEmptyPositions_loop_spec (n : nat) (i : Z) (empty : list Z) :
  0 <= i -> i + Z.of_nat n = GridSystem.totalPositions g ->
  getEmptyPositions_loop n i empty w
  = Ok (empty ++ omap (emptyAt g) (seqZ i (Z.of_nat n)), w).
Proof.
  revert i empty. induction n as [| n IH]; intros i empty Hi Hend.
  - cbn. rewrite app_nil_r. reflexivity.
  - cbn [getEmptyPositions_loop]. unfold bind at 1, getGridSystem, gets.
    rewrite (gridSlot_wf g i Hwf) by lia.
    rewrite IH by lia.
    rewrite (seqZ_cons i (Z.of_nat (S n))) by lia.
    replace (Z.pred (Z.of_nat (S n))) with (Z.of_nat n) by lia.
    replace (Z.succ i) with (i + 1) by lia.
    cbn [omap list_omap]. unfold emptyAt at 2.
    destruct (GridSpec.cardIn g i) as [c |].
    + rewrite bool_decide_eq_false_2 by discriminate. reflexivity.
    + rewrite bool_decide_eq_true_2 by reflexivity.
      rewrite <- app_assoc. reflexivity.
Qed.
End SlotLoops.

Lemma entry_or_empty_length (g : GridSystem.t) (l : list Z) :
  (length (omap (entryAt g) l) + length (omap (emptyAt g) l))%nat = length l.
Proof.
  induction l as [| i l IH]; [reflexivity |].
  cbn [omap list_omap]. unfold entryAt at 1, emptyAt at 1.
  destruct (GridSpec.cardIn g i); cbn; lia.
Qed.

(** X4. On a grid of [width * height] slots, [getAllCards] and
    [getEmptyPositions] split the positions 0..N-1: the entries of the first
    are the positions in range whose slot holds a card, with that card, the
    second lists the positions in range whose slot is empty, and the two
    lengths add up to N. *)
Theorem getAllCards_getEmptyPositions_partition (w : World.t) :
  GridSpec.wf (World.gridSystem w) ->
  exists all empty,
    getAllCards w = Ok (all, w)
    /\ getEmptyPositions w = Ok (empty, w)
    /\ (forall e, e ∈ all <->
          0 <= CardEntry.position e < GridSystem.totalPositions (World.gridSystem w)
          /\ is_Some (CardEntry.card e)
          /\ GridSpec.cardIn (World.gridSystem w) (CardEntry.position e)
             = CardEntry.card e)
    /\ (forall i, i ∈ empty <->
          0 <= i < GridSystem.totalPositions (World.gridSystem w)
          /\ GridSpec.cardIn (World.gridSystem w) i = None)
    /\ Z.of_nat (length all) + Z.of_nat (length empty)
       = GridSystem.totalPositions (World.gridSystem w).
Proof.
  intros Hwf.
  assert (Hn : 0 <= GridSystem.totalPositions (World.gridSystem w)).
  { destruct Hwf as (H1 & H2 & -> & _). nia. }
  exists (omap (entryAt (World.gridSystem w))
            (seqZ 0 (GridSystem.totalPositions (World.gridSystem w)))),
         (omap (emptyAt (World.gridSystem w))
            (seqZ 0 (GridSystem.totalPositions (World.gridSystem w)))).
  split; [| split; [| split; [| split]]].
  - unfold getAllCards, bind at 1, getGridSystem, gets.
    rewrite (getAllCards_loop_spec w Hwf) by lia.
    rewrite Z2Nat.id by lia. reflexivity.
  - unfold getEmptyPositions, bind at 1, getGridSystem, gets.
    rewrite (getEmptyPositions_loop_spec w Hwf) by lia.
    rewrite Z2Nat.id by lia. reflexivity.
  - intros [card pos]. rewrite list_elem_of_omap. cbn. split.
    + intros (i & Hi & He). apply elem_of_seqZ in Hi. unfold entryAt in He.
      destruct (GridSpec.cardIn (World.gridSystem w) i) as [c |] eqn:Hc;
        [| discriminate He].
      injection He as <- <-. repeat split; eauto; lia.
    + intros (Hpos & [c ->] & Hc). exists pos.
      split; [apply elem_of_seqZ; lia |]. unfold entryAt. rewrite Hc. reflexivity.
  - intros i. rewrite list_elem_of_omap. split.
    + intros (j & Hj & He). apply elem_of_seqZ in Hj. unfold emptyAt in He.
      destruct (GridSpec.cardIn (World.gridSystem w) j) as [c |] eqn:Hc;
        [discriminate He |].
      injection He as <-. split; [lia | exact Hc].
    + intros (Hi & Hc). exists i.
      split; [apply elem_of_seqZ; lia |]. unfold emptyAt. rewrite Hc. reflexivity.
  - pose proof (entry_or_empty_length (World.gridSystem w)
                  (seqZ 0 (GridSystem.totalPositions (World.gridSystem w)))) as H.
    rewrite length_seqZ in H. lia.
Qed.

Lemma getAllCards_getEmptyPositions_partition_witness :
  exists all empty,
    getAllCards Sample.crowded = Ok (all, Sample.crowded)
    /\ getEmptyPositions Sample.crowded = Ok (empty, Sample.crowded)
    /\ Z.of_nat (length all) + Z.of_nat (length empty) = 15.
Proof.
  destruct (getAllCards_getEmptyPositions_partition Sample.crowded)
    as (all & empty & H1 & H2 & _ & _ & H3).
  - unfold GridSpec.wf. vm_compute.
    repeat split; try reflexivity; intros Hcmp; discriminate Hcmp.
  - exists all, empty. auto.
Defined.

Lemma getAdjacentPositions_loop_spec (w : World.t) (directions : list (Z * Z))
    (coords : Coords.t) (adjacent : list Z) :
  getAdjacentPositions_loop directions coords adjacent w
  = Ok (adjacent ++ omap (stepTo (World.gridSystem w) coords) directions, w).
Proof.
  revert adjacent. induction directions as [| [dRow dCol] rest IH];
    intros adjacent.
  - cbn. rewrite app_nil_r. reflexivity.
  - cbn [getAdjacentPositions_loop omap list_omap].
    unfold bind at 1, getGridSystem, gets.
    change (stepTo (World.gridSystem w) coords (dRow, dCol))
      with (if (0 <=? Coords.row coords + dRow)
               && (Coords.row coords + dRow <? GridSystem.height (World.gridSystem w))
               && (0 <=? Coords.col coords + dCol)
               && (Coords.col coords + dCol <? GridSystem.width (World.gridSystem w))
            then Some ((Coords.row coords + dRow)
                       * GridSystem.width (World.gridSystem w)
                       + (Coords.col coords + dCol))
            else None).
    destruct ((0 <=? Coords.row coords + dRow)
              && (Coords.row coords + dRow <? GridSystem.height (World.gridSystem w))
              && (0 <=? Coords.col coords + dCol)
              && (Coords.col coords + dCol <? GridSystem.width (World.gridSystem w)))
      eqn:Hin.
    + rewrite (bind_Ok _ _ _ _ _
                 (coordsToPosition_in_range w (Coords.row coords + dRow)
                    (Coords.col coords + dCol) ltac:(lia) ltac:(lia))).
      rewrite IH, <- app_assoc. reflexivity.
    + apply IH.
Qed.

Lemma getAdjacentPositions_in_range (w : World.t) (p : Z) (includeAdjoining : bool) :
  GridSpec.wf (World.gridSystem w) ->
  0 <= p < GridSystem.totalPositions (World.gridSystem w) ->
  getAdjacentPositions p includeAdjoining w
  = Ok (omap (stepTo (World.gridSystem w)
                (Coords.mk (GridSpec.row (World.gridSystem w) p)
                           (GridSpec.col (World.gridSystem w) p)))
          (if includeAdjoining then directions8 else directions4), w).
Proof.
  intros Hwf Hp. unfold getAdjacentPositions, bind at 1, getGridSystem, gets.
  replace (p <? 0) with false by lia.
  replace (GridSystem.totalPositions (World.gridSystem w) <=? p) with false by lia.
  cbn [orb].
  rewrite (bind_Ok _ _ _ _ _ (positionToCoords_in_range w p Hp)).
  rewrite getAdjacentPositions_loop_spec. cbn [app].
  destruct (coords_in_range _ p Hwf Hp) as (_ & _ & _ & -> & _). reflexivity.
Qed.

Ltac in_directions H :=
  repeat (apply elem_of_cons in H as [H | H]; [injection H as -> -> |]);
  [.. | apply elem_of_nil in H; contradiction].

Lemma stepTo_adjacent (g : GridSystem.t) (p q : Z) (includeAdjoining : bool) :
  GridSpec.wf g -> 0 <= p < GridSystem.totalPositions g ->
  q ∈ omap (stepTo g (Coords.mk (GridSpec.row g p) (GridSpec.col g p)))
        (if includeAdjoining then directions8 else directions4)
  <-> 0 <= q < GridSystem.totalPositions g
      /\ adjacency g includeAdjoining p q = 1.
Proof.
  intros Hwf Hp.
  destruct (coords_in_range g p Hwf Hp) as (Hpos & Hrow & Hcol & _ & Hsum).
  pose proof Hwf as (_ & _ & Htot & _).
  unfold adjacency, GridSpec.row, GridSpec.col in *.
  rewrite list_elem_of_omap. split.
  - intros ([dRow dCol] & Hd & Hq). unfold stepTo in Hq. cbn in Hq.
    destruct ((0 <=? p / GridSystem.width g + dRow)
              && (p / GridSystem.width g + dRow <? GridSystem.height g)
              && (0 <=? p mod GridSystem.width g + dCol)
              && (p mod GridSystem.width g + dCol <? GridSystem.width g))
      eqn:Hin; [| discriminate Hq].
    injection Hq as <-.
    destruct (div_mod_row_major (GridSystem.width g)
                (p / GridSystem.width g + dRow)
                (p mod GridSystem.width g + dCol) ltac:(lia)) as [-> ->].
    split; [rewrite Htot; nia |].
    destruct includeAdjoining;
      [unfold directions8 in Hd | unfold directions4 in Hd];
      in_directions Hd; lia.
  - intros (Hq & Hadj).
    destruct (coords_in_range g q Hwf Hq) as (_ & Hrow' & Hcol' & _ & Hsum').
    exists (q / GridSystem.width g - p / GridSystem.width g,
            q mod GridSystem.width g - p mod GridSystem.width g).
    split.
    + destruct includeAdjoining.
      * assert (Hcases :
          let dr := q / GridSystem.width g - p / GridSystem.width g in
          let dc := q mod GridSystem.width g - p mod GridSystem.width g in
          (dr = -1 /\ dc = -1) \/ (dr = -1 /\ dc = 0) \/ (dr = -1 /\ dc = 1)
          \/ (dr = 0 /\ dc = -1) \/ (dr = 0 /\ dc = 1)
          \/ (dr = 1 /\ dc = -1) \/ (dr = 1 /\ dc = 0) \/ (dr = 1 /\ dc = 1))
          by (cbv zeta; lia).
        cbv zeta in Hcases. unfold directions8.
        destruct Hcases as [[Hr Hc] | [[Hr Hc] | [[Hr Hc] | [[Hr Hc] |
          [[Hr Hc] | [[Hr Hc] | [[Hr Hc] | [Hr Hc]]]]]]]];
          rewrite Hr, Hc; apply list_elem_of_In; cbn; auto 10.
      * assert (Hcases :
          let dr := q / GridSystem.width g - p / GridSystem.width g in
          let dc := q mod GridSystem.width g - p mod GridSystem.width g in
          (dr = -1 /\ dc = 0) \/ (dr = 0 /\ dc = -1)
          \/ (dr = 0 /\ dc = 1) \/ (dr = 1 /\ dc = 0))
          by (cbv zeta; lia).
        cbv zeta in Hcases. unfold directions4.
        destruct Hcases as [[Hr Hc] | [[Hr Hc] | [[Hr Hc] | [Hr Hc]]]];
          rewrite Hr, Hc; apply list_elem_of_In; cbn; auto 10.
    + unfold stepTo. cbn [Coords.row Coords.col fst snd].
      replace (p / GridSystem.width g
               + (q / GridSystem.width g - p / GridSystem.width g))
        with (q / GridSystem.width g) by lia.
      replace (p mod GridSystem.width g
               + (q mod GridSystem.width g - p mod GridSystem.width g))
        with (q mod GridSystem.width g) by lia.
      replace (0 <=? q / GridSystem.width g) with true by lia.
      replace (q / GridSystem.width g <? GridSystem.height g) with true by lia.
      replace (0 <=? q mod GridSystem.width g) with true by lia.
      replace (q mod GridSystem.width g <? GridSystem.width g) with true by lia.
      cbn [andb]. rewrite Hsum'. reflexivity.
Qed.

Lemma omap_length_le {A B} (f : A -> option B) (l : list A) :
  (length (omap f l) <= length l)%nat.
Proof.
  induction l as [| x l IH]; [reflexivity |].
  cbn [omap list_omap]. destruct (f x); cbn; lia.
Qed.

Lemma getDistance_in_range (w : World.t) (p q : Z) :
  GridSpec.wf (World.gridSystem w) ->
  0 <= p < GridSystem.totalPositions (World.gridSystem w) ->
  0 <= q < GridSystem.totalPositions (World.gridSystem w) ->
  getDistance p q w = Ok (adjacency (World.gridSystem w) false p q, w).
Proof.
  intros Hwf Hp Hq. unfold getDistance.
  rewrite (bind_Ok _ _ _ _ _ (positionToCoords_in_range w p Hp)).
  rewrite (bind_Ok _ _ _ _ _ (positionToCoords_in_range w q Hq)).
  destruct (coords_in_range _ p Hwf Hp) as (_ & _ & _ & Hrp & _).
  destruct (coords_in_range _ q Hwf Hq) as (_ & _ & _ & Hrq & _).
  unfold ret, adjacency, GridSpec.row, GridSpec.col.
  cbn [Coords.row Coords.col]. rewrite Hrp, Hrq. reflexivity.
Qed.

(** X5. On a grid of [width * height] slots, [getAdjacentPositions] of a
    position in range returns exactly the positions in range at distance 1
    (row difference plus column difference, which is what [getDistance]
    returns; with the diagonals, the larger of the two), at most 4 of them (8
    with the diagonals), and adjacency is symmetric: the position is among
    the adjacent positions of each of them. *)
Theorem getAdjacentPositions_distance_one (w : World.t) (p : Z)
    (includeAdjoining : bool) :
  GridSpec.wf (World.gridSystem w) ->
  0 <= p < GridSystem.totalPositions (World.gridSystem w) ->
  exists adjacent,
    getAdjacentPositions p includeAdjoining w = Ok (adjacent, w)
    /\ (forall q, q ∈ adjacent <->
          0 <= q < GridSystem.totalPositions (World.gridSystem w)
          /\ adjacency (World.gridSystem w) includeAdjoining p q = 1)
    /\ (length adjacent <= if includeAdjoining then 8 else 4)%nat
    /\ (forall q, q ∈ adjacent ->
          exists back,
            getAdjacentPositions q includeAdjoining w = Ok (back, w)
            /\ p ∈ back)
    /\ (includeAdjoining = false ->
        forall q, q ∈ adjacent -> getDistance p q w = Ok (1, w)).
Proof.
  intros Hwf Hp. eexists.
  split; [apply getAdjacentPositions_in_range; assumption |].
  split; [intros q; apply stepTo_adjacent; assumption |].
  split; [| split].
  - etransitivity; [apply omap_length_le |]. destruct includeAdjoining; cbn; lia.
  - intros q Hq. apply stepTo_adjacent in Hq as [Hq Hadj]; [| assumption ..].
    eexists. split; [apply getAdjacentPositions_in_range; assumption |].
    apply stepTo_adjacent; [assumption .. |]. split; [exact Hp |].
    revert Hadj. unfold adjacency. destruct includeAdjoining; lia.
  - intros -> q Hq.
    apply (stepTo_adjacent (World.gridSystem w) p q false Hwf Hp) in Hq
      as [Hq Hadj].
    rewrite (getDistance_in_range w p q Hwf Hp Hq), Hadj. reflexivity.
Qed.

Lemma getAdjacentPositions_distance_one_witness :
  exists adjacent,
    getAdjacentPositions 4 false Sample.world = Ok (adjacent, Sample.world)
    /\ (forall q, q ∈ adjacent <->
          0 <= q < 15 /\ adjacency (World.gridSystem Sample.world) false 4 q = 1)
    /\ (length adjacent <= 4)%nat.
Proof.
  destruct (getAdjacentPositions_distance_one Sample.world 4 false)
    as (adjacent & H1 & H2 & H3 & _).
  - unfold GridSpec.wf. vm_compute.
    repeat split; try reflexivity; intros Hcmp; discriminate Hcmp.
  - vm_compute. split; [intros Hcmp; discriminate Hcmp | reflexivity].
  - exists adjacent. auto.
Defined.

Lemma sameRowNextCol_iff (g : GridSystem.t) (p : Z) :
  GridSpec.wf g -> 0 <= p < GridSystem.totalPositions g ->
  GridSpec.sameRowNextCol g p = (GridSpec.col g p <? GridSystem.width g - 1).
Proof.
  intros Hwf Hp.
  destruct (coords_in_range g p Hwf Hp) as (Hpos & Hrow & Hcol & _ & Hsum).
  unfold GridSpec.sameRowNextCol, GridSpec.row, GridSpec.col.
  destruct (Z.lt_ge_cases (p mod GridSystem.width g) (GridSystem.width g - 1))
    as [Hlt | Hge].
  - replace (p + 1)
      with (p / GridSystem.width g * GridSystem.width g
            + (p mod GridSystem.width g + 1)) by lia.
    destruct (div_mod_row_major (GridSystem.width g) (p / GridSystem.width g)
                (p mod GridSystem.width g + 1) ltac:(lia)) as [-> ->].
    lia.
  - replace (p + 1)
      with ((p / GridSystem.width g + 1) * GridSystem.width g + 0) at 2 by lia.
    destruct (div_mod_row_major (GridSystem.width g) (p / GridSystem.width g + 1)
                0 ltac:(lia)) as [_ ->].
    lia.
Qed.

Lemma coordsToPosition_beside (w : World.t) (p d : Z) :
  GridSpec.wf (World.gridSystem w) ->
  0 <= p < GridSystem.totalPositions (World.gridSystem w) ->
  0 <= p mod GridSystem.width (World.gridSystem w) + d
     < GridSystem.width (World.gridSystem w) ->
  coordsToPosition (p / GridSystem.width (World.gridSystem w))
    (p mod GridSystem.width (World.gridSystem w) + d) w
  = Ok (p + d, w).
Proof.
  intros Hwf Hp Hd.
  destruct (coords_in_range _ p Hwf Hp) as (Hpos & Hrow & Hcol & Hrem & Hsum).
  rewrite coordsToPosition_in_range by assumption. do 2 f_equal. lia.
Qed.

Lemma getHorizontalNeighbors_in_range (w : World.t) (p : Z) :
  GridSpec.wf (World.gridSystem w) ->
  0 <= p < GridSystem.totalPositions (World.gridSystem w) ->
  getHorizontalNeighbors p w
  = Ok (HorizontalNeighbors.mk
          (if 0 <? GridSpec.col (World.gridSystem w) p then Some (p - 1) else None)
          (if GridSpec.col (World.gridSystem w) p
              <? GridSystem.width (World.gridSystem w) - 1
           then Some (p + 1) else None), w).
Proof.
  intros Hwf Hp.
  destruct (coords_in_range _ p Hwf Hp) as (Hpos & Hrow & Hcol & Hrem & Hsum).
  unfold getHorizontalNeighbors.
  rewrite (bind_Ok _ _ _ _ _ (positionToCoords_in_range w p Hp)).
  unfold bind at 1, getGridSystem, gets. cbn [Coords.row Coords.col].
  rewrite Hrem. unfold GridSpec.col.
  destruct (0 <? p mod GridSystem.width (World.gridSystem w)) eqn:Hl;
    destruct (p mod GridSystem.width (World.gridSystem w)
              <? GridSystem.width (World.gridSystem w) - 1) eqn:Hr.
  - pose proof (coordsToPosition_beside w p (-1) Hwf Hp ltac:(lia)) as Hleft.
    pose proof (coordsToPosition_beside w p 1 Hwf Hp ltac:(lia)) as Hright.
    change (p mod GridSystem.width (World.gridSystem w) + -1)
      with (p mod GridSystem.width (World.gridSystem w) - 1) in Hleft.
    change (p + -1) with (p - 1) in Hleft.
    rewrite (bind_Ok _ _ _ _ _ (bind_Ok _ _ _ _ _ Hleft)).
    rewrite (bind_Ok _ _ _ _ _ (bind_Ok _ _ _ _ _ Hright)).
    reflexivity.
  - pose proof (coordsToPosition_beside w p (-1) Hwf Hp ltac:(lia)) as Hleft.
    change (p mod GridSystem.width (World.gridSystem w) + -1)
      with (p mod GridSystem.width (World.gridSystem w) - 1) in Hleft.
    change (p + -1) with (p - 1) in Hleft.
    rewrite (bind_Ok _ _ _ _ _ (bind_Ok _ _ _ _ _ Hleft)).
    reflexivity.
  - pose proof (coordsToPosition_beside w p 1 Hwf Hp ltac:(lia)) as Hright.
    unfold bind at 1, ret at 1.
    rewrite (bind_Ok _ _ _ _ _ (bind_Ok _ _ _ _ _ Hright)).
    reflexivity.
  - reflexivity.
Qed.

(** X6. On a grid of [width * height] slots, the horizontal neighbours of a
    position in range are [p - 1] unless [p] is in the first column and
    [p + 1] unless it is in the last column, both in the row of [p]; and a
    battle pair starts at [p] exactly when [p] has a right neighbour and the
    slots of both hold a card. *)
Theorem getHorizontalNeighbors_same_row (w : World.t) (p : Z) :
  GridSpec.wf (World.gridSystem w) ->
  0 <= p < GridSystem.totalPositions (World.gridSystem w) ->
  exists n,
    getHorizontalNeighbors p w = Ok (n, w)
    /\ HorizontalNeighbors.left n
       = (if 0 <? GridSpec.col (World.gridSystem w) p then Some (p - 1) else None)
    /\ HorizontalNeighbors.right n
       = (if GridSpec.col (World.gridSystem w) p
             <? GridSystem.width (World.gridSystem w) - 1
          then Some (p + 1) else None)
    /\ (forall q,
          HorizontalNeighbors.left n = Some q \/ HorizontalNeighbors.right n = Some q ->
          0 <= q < GridSystem.totalPositions (World.gridSystem w)
          /\ GridSpec.row (World.gridSystem w) q = GridSpec.row (World.gridSystem w) p)
    /\ ((exists b, b ∈ GridSpec.battlePairs (World.gridSystem w)
                   /\ Battle.position1 b = p)
        <-> exists q, HorizontalNeighbors.right n = Some q
                      /\ is_Some (GridSpec.cardIn (World.gridSystem w) p)
                      /\ is_Some (GridSpec.cardIn (World.gridSystem w) q)).
Proof.
  intros Hwf Hp.
  destruct (coords_in_range _ p Hwf Hp) as (Hpos & Hrow & Hcol & Hrem & Hsum).
  pose proof Hwf as (_ & _ & Htot & _).
  eexists. split; [apply getHorizontalNeighbors_in_range; assumption |].
  cbn [HorizontalNeighbors.left HorizontalNeighbors.right].
  split; [reflexivity |]. split; [reflexivity |]. split.
  - unfold GridSpec.col, GridSpec.row. intros q [Hq | Hq].
    + destruct (0 <? p mod GridSystem.width (World.gridSystem w)) eqn:Hl;
        [| discriminate Hq].
      injection Hq as <-.
      replace (p - 1)
        with (p / GridSystem.width (World.gridSystem w)
              * GridSystem.width (World.gridSystem w)
              + (p mod GridSystem.width (World.gridSystem w) - 1)) by lia.
      destruct (div_mod_row_major (GridSystem.width (World.gridSystem w))
                  (p / GridSystem.width (World.gridSystem w))
                  (p mod GridSystem.width (World.gridSystem w) - 1)
                  ltac:(lia)) as [-> _].
      split; [nia | reflexivity].
    + destruct (p mod GridSystem.width (World.gridSystem w)
                <? GridSystem.width (World.gridSystem w) - 1) eqn:Hr;
        [| discriminate Hq].
      injection Hq as <-.
      replace (p + 1)
        with (p / GridSystem.width (World.gridSystem w)
              * GridSystem.width (World.gridSystem w)
              + (p mod GridSystem.width (World.gridSystem w) + 1)) by lia.
      destruct (div_mod_row_major (GridSystem.width (World.gridSystem w))
                  (p / GridSystem.width (World.gridSystem w))
                  (p mod GridSystem.width (World.gridSystem w) + 1)
                  ltac:(lia)) as [-> _].
      split; [nia | reflexivity].
  - rewrite <- (sameRowNextCol_iff _ p Hwf Hp). split.
    + intros (b & Hb & Hp1).
      apply battlePairs_elem in Hb
        as (_ & Hp2 & Hc1 & Hc2 & Hr & Hc & _).
      rewrite Hp2, Hp1 in *. exists (p + 1).
      unfold GridSpec.sameRowNextCol.
      rewrite Hr, Hc, !Z.eqb_refl. cbn. rewrite Hc1, Hc2. eauto.
    + intros (q & Hq & [c1 Hc1] & [c2 Hc2]).
      destruct (GridSpec.sameRowNextCol (World.gridSystem w) p) eqn:Hadj;
        [| discriminate Hq].
      injection Hq as <-.
      exists (Battle.mk p c1 (p + 1) c2 "horizontal"). split; [| reflexivity].
      apply battlePairs_elem. cbn.
      unfold GridSpec.sameRowNextCol in Hadj.
      apply andb_true_iff in Hadj as [Hr Hc].
      apply Z.eqb_eq in Hr, Hc.
      assert (p + 1 < GridSystem.totalPositions (World.gridSystem w)).
      { unfold GridSpec.row in Hr.
        destruct (Z.eq_dec (p + 1) (GridSystem.totalPositions (World.gridSystem w)))
          as [Heq | Hne]; [| lia].
        exfalso. rewrite Heq, Htot in Hr.
        rewrite Z.mul_comm, Z.div_mul in Hr by lia. lia. }
      repeat split; try assumption; lia.
Qed.

Lemma getHorizontalNeighbors_same_row_witness :
  exists n,
    getHorizontalNeighbors 4 Sample.crowded = Ok (n, Sample.crowded)
    /\ HorizontalNeighbors.left n = Some 3
    /\ HorizontalNeighbors.right n = None.
Proof.
  destruct (getHorizontalNeighbors_same_row Sample.crowded 4)
    as (n & H1 & H2 & H3 & _).
  - unfold GridSpec.wf. vm_compute.
    repeat split; try reflexivity; intros Hcmp; discriminate Hcmp.
  - vm_compute. split; [intros Hcmp; discriminate Hcmp | reflexivity].
  - exists n. split; [exact H1 |]. split; [rewrite H2 | rewrite H3]; reflexivity.
Defined.

(** * Placing cards *)

(** [placeCard] of a card of the store on a free slot among the 15
    positions a card accepts, with everything it changes and leaves. *)
Lemma placeCard_effect (w : World.t) (p : Z) (card : CardRef) (c : Card.t) :
  0 <= p < GridSystem.totalPositions (World.gridSystem w) ->
  p < GAME_CONFIG.TOTAL_POSITIONS ->
  GridSystem.grid (World.gridSystem w) !! Z.to_nat p = Some None ->
  World.cards w !! card = Some c ->
  runs (placeCard card p) w (fun r w' =>
    r = true
    /\ GridSystem.grid (World.gridSystem w')
       = <[Z.to_nat p := Some card]> (GridSystem.grid (World.gridSystem w))
    /\ GridSystem.positionStates (World.gridSystem w')
       = <[Z.to_nat p := OCCUPIED]> (GridSystem.positionStates (World.gridSystem w))
    /\ GridSystem.totalPositions (World.gridSystem w')
       = GridSystem.totalPositions (World.gridSystem w)
    /\ GridSystem.width (World.gridSystem w') = GridSystem.width (World.gridSystem w)
    /\ GridSystem.height (World.gridSystem w') = GridSystem.height (World.gridSystem w)
    /\ World.cards w' = <[card := Card.placed p (World.clock w) c]> (World.cards w)
    /\ World.players w' = World.players w
    /\ World.challengeSystem w' = World.challengeSystem w
    /\ World.battleSystem w' = World.battleSystem w
    /\ World.clock w' = World.clock w
    /\ World.timers w' = World.timers w
    /\ World.events w' = World.events w ++ [UI_UPDATE "card_placed" card p]).
Proof.
  intros Hp H15 Hfree Hc. unfold placeCard.
  apply runs_bind, runs_gets.
  rewrite bool_decide_eq_true_2 by (rewrite Hc; eauto). cbn [negb].
  apply runs_bind. unfold isPositionAvailable.
  apply runs_bind, runs_gets, runs_ret.
  unfold gridSlot. replace (p <? 0) with false by lia. rewrite Hfree.
  rewrite bool_decide_eq_true_2 by reflexivity.
  replace (0 <=? p) with true by lia.
  replace (p <? GridSystem.totalPositions (World.gridSystem w)) with true by lia.
  cbn [andb negb].
  unfold place.
  replace (p <? 0) with false by lia.
  replace (GAME_CONFIG.TOTAL_POSITIONS <=? p) with false by lia.
  cbn [orb].
  repeat wp_grid; world_simpl; cbn; repeat split; reflexivity.
Qed.

(** X7. [placeCard] of a card of the store on a free slot of the grid, among
    the 15 positions a card accepts, returns true; afterwards [getCardAt]
    gives the card at that position, the position is no longer available and
    its state is OCCUPIED, and the card records the position and the state
    'placed' with its type and claim unchanged. Every other slot, every other
    card and every player are as before. *)
Theorem placeCard_then_getCardAt (w : World.t) (p : Z) (card : CardRef) (c : Card.t) :
  GridSpec.wf (World.gridSystem w) ->
  0 <= p < GridSystem.totalPositions (World.gridSystem w) ->
  p < GAME_CONFIG.TOTAL_POSITIONS ->
  GridSpec.cardIn (World.gridSystem w) p = None ->
  World.cards w !! card = Some c ->
  exists w' c',
    placeCard card p w = Ok (true, w')
    /\ getCardAt p w' = Ok (Some card, w')
    /\ isPositionAvailable p w' = Ok (false, w')
    /\ GridSystem.positionStates (World.gridSystem w') !! Z.to_nat p = Some OCCUPIED
    /\ World.cards w' !! card = Some c'
    /\ Card.position c' = Some p /\ Card.state c' = PLACED
    /\ Card.type c' = Card.type c /\ Card.claimedType c' = Card.claimedType c
    /\ Card.owner c' = Card.owner c
    /\ (forall q, q <> p -> 0 <= q ->
          GridSpec.cardIn (World.gridSystem w') q
          = GridSpec.cardIn (World.gridSystem w) q)
    /\ (forall r, r <> card -> World.cards w' !! r = World.cards w !! r)
    /\ World.players w' = World.players w
    /\ GridSpec.wf (World.gridSystem w').
Proof.
  intros Hwf Hp H15 Hfree Hc.
  assert (Hslot : GridSystem.grid (World.gridSystem w) !! Z.to_nat p = Some None).
  { pose proof (gridSlot_wf _ p Hwf Hp) as H. unfold gridSlot in H.
    replace (p <? 0) with false in H by lia. rewrite H, Hfree. reflexivity. }
  destruct (placeCard_effect w p card c Hp H15 Hslot Hc)
    as (r & w' & Hrun & -> & Hgrid & Hstates & Htot & Hwidth & Hheight
        & Hcards & Hplayers & _).
  pose proof Hwf as (Hw0 & Hh0 & Htot0 & Hlen & Hlens).
  assert (Hwf' : GridSpec.wf (World.gridSystem w')).
  { unfold GridSpec.wf.
    rewrite Hgrid, Hstates, Htot, Hwidth, Hheight, !length_insert. exact Hwf. }
  assert (Hin : GridSpec.cardIn (World.gridSystem w') p = Some card).
  { unfold GridSpec.cardIn. rewrite Hgrid, list_lookup_insert_eq by lia.
    reflexivity. }
  exists w', (Card.placed p (World.clock w) c).
  split; [exact Hrun |]. split.
  { rewrite (getCardAt_in_range w') by (rewrite Htot; exact Hp).
    rewrite Hin. reflexivity. }
  split.
  { unfold isPositionAvailable, bind, getGridSystem, gets, ret.
    rewrite (gridSlot_wf _ p Hwf') by (rewrite Htot; exact Hp). rewrite Hin.
    rewrite bool_decide_eq_false_2 by discriminate.
    rewrite andb_false_r. reflexivity. }
  split; [rewrite Hstates; apply list_lookup_insert_eq; lia |].
  split; [rewrite Hcards; apply lookup_insert_eq |].
  do 5 (split; [reflexivity |]).
  split.
  { intros q Hq Hq0. unfold GridSpec.cardIn. rewrite Hgrid.
    rewrite list_lookup_insert_ne by lia. reflexivity. }
  split.
  { intros r Hr. rewrite Hcards. apply lookup_insert_ne. congruence. }
  split; assumption.
Qed.

Lemma placeCard_then_getCardAt_witness :
  exists w' c',
    placeCard Sample.paperCard 7 Sample.bluffed = Ok (true, w')
    /\ getCardAt 7 w' = Ok (Some Sample.paperCard, w')
    /\ World.cards w' !! Sample.paperCard = Some c'
    /\ Card.position c' = Some 7 /\ Card.state c' = PLACED.
Proof.
  destruct (placeCard_then_getCardAt Sample.bluffed 7 Sample.paperCard
              (Card.setOwner Sample.ai (Card.new PAPER "card_1" 0)))
    as (w' & c' & H1 & H2 & _ & _ & H3 & H4 & H5 & _).
  - unfold GridSpec.wf. vm_compute.
    repeat split; try reflexivity; intros Hcmp; discriminate Hcmp.
  - vm_compute. split; [intros Hcmp; discriminate Hcmp | reflexivity].
  - vm_compute. reflexivity.
  - vm_compute. reflexivity.
  - vm_compute. reflexivity.
  - exists w', c'. auto.
Defined.

(** X8. [placeCard] throws, for every world, when the position is out of the
    range of the grid, when its slot is not free, when the card is not a card
    of the store, and also when the position is 15 or more, whatever the size
    of the grid: [Card.place] accepts the 15 positions of the default grid
    only. *)
Theorem placeCard_throws (w : World.t) (p : Z) (card : CardRef) :
  p < 0 \/ GridSystem.totalPositions (World.gridSystem w) <= p
  \/ GAME_CONFIG.TOTAL_POSITIONS <= p
  \/ gridSlot (World.gridSystem w) p <> Some None
  \/ World.cards w !! card = None ->
  exists msg, placeCard card p w = Throw msg.
Proof.
  intros Hbad. unfold placeCard, bind at 1, isCard, gets.
  destruct (bool_decide (is_Some (World.cards w !! card))) eqn:Hcard;
    cbn [negb]; [| eexists; reflexivity].
  unfold bind at 1, isPositionAvailable, bind at 1, getGridSystem, gets, ret.
  destruct ((0 <=? p) && (p <? GridSystem.totalPositions (World.gridSystem w))
            && bool_decide (gridSlot (World.gridSystem w) p = Some None))
    eqn:Havail; cbn [negb]; [| eexists; reflexivity].
  apply andb_true_iff in Havail as [Hrange Hfree].
  apply bool_decide_eq_true in Hfree. apply bool_decide_eq_true in Hcard.
  destruct Hbad as [H | [H | [H | [H | H]]]]; try lia; try contradiction.
  - unfold bind, getGridSystem, setGridSystem, gets, modify, place, throw.
    replace (GAME_CONFIG.TOTAL_POSITIONS <=? p) with true by lia.
    rewrite orb_true_r. eexists; reflexivity.
  - rewrite H in Hcard. destruct Hcard as [x Hx]. discriminate Hx.
Qed.

Lemma placeCard_throws_witness :
  (exists msg, placeCard Sample.paperCard 16 SampleWide.world = Throw msg)
  /\ (exists msg, placeCard Sample.paperCard 3 Sample.bluffed = Throw msg)
  /\ isPositionAvailable 16 SampleWide.world = Ok (true, SampleWide.world).
Proof.
  split; [| split].
  - apply (placeCard_throws SampleWide.world 16 Sample.paperCard).
    right. right. left. vm_compute. intros Hcmp. discriminate Hcmp.
  - apply (placeCard_throws Sample.bluffed 3 Sample.paperCard).
    right. right. right. left. vm_compute. intros Hcmp. discriminate Hcmp.
  - vm_compute. reflexivity.
Defined.

(** X9. Placing a card on a free slot and removing it again gives the card
    back and leaves the slots of the grid as they were before the two calls
    (and the position states too, when the state of the slot was EMPTY),
    while the card still records the position and the state 'placed'. *)
Theorem placeCard_then_removeCard (w : World.t) (p : Z) (card : CardRef) (c : Card.t) :
  GridSpec.wf (World.gridSystem w) ->
  0 <= p < GridSystem.totalPositions (World.gridSystem w) ->
  p < GAME_CONFIG.TOTAL_POSITIONS ->
  GridSpec.cardIn (World.gridSystem w) p = None ->
  World.cards w !! card = Some c ->
  exists w1 w2 c',
    placeCard card p w = Ok (true, w1)
    /\ removeCard p w1 = Ok (Some card, w2)
    /\ GridSystem.grid (World.gridSystem w2) = GridSystem.grid (World.gridSystem w)
    /\ (GridSystem.positionStates (World.gridSystem w) !! Z.to_nat p = Some EMPTY ->
        GridSystem.positionStates (World.gridSystem w2)
        = GridSystem.positionStates (World.gridSystem w))
    /\ World.cards w2 !! card = Some c'
    /\ Card.position c' = Some p /\ Card.state c' = PLACED
    /\ World.players w2 = World.players w.
Proof.
  intros Hwf Hp H15 Hfree Hc.
  assert (Hslot : GridSystem.grid (World.gridSystem w) !! Z.to_nat p = Some None).
  { pose proof (gridSlot_wf _ p Hwf Hp) as H. unfold gridSlot in H.
    replace (p <? 0) with false in H by lia. rewrite H, Hfree. reflexivity. }
  destruct (placeCard_effect w p card c Hp H15 Hslot Hc)
    as (r & w1 & Hrun & -> & Hgrid & Hstates & Htot & _ & _
        & Hcards & Hplayers & _).
  pose proof Hwf as (_ & _ & _ & Hlen & Hlens).
  assert (Hin : GridSpec.cardIn (World.gridSystem w1) p = Some card).
  { unfold GridSpec.cardIn. rewrite Hgrid, list_lookup_insert_eq by lia.
    reflexivity. }
  assert (Hc1 : World.cards w1 !! card = Some (Card.placed p (World.clock w) c))
    by (rewrite Hcards; apply lookup_insert_eq).
  destruct (removeCard_runs w1 p card _ ltac:(rewrite Htot; exact Hp) Hin Hc1)
    as (r & w2 & Hrun2 & -> & Hgrid2 & Hstates2 & _ & _ & _ & Hcards2
        & Hplayers2 & _).
  exists w1, w2, (Card.placed p (World.clock w) c).
  split; [exact Hrun |]. split; [exact Hrun2 |]. split.
  { rewrite Hgrid2, Hgrid, list_insert_insert_eq. apply list_insert_id, Hslot. }
  split.
  { intros Hempty. rewrite Hstates2, Hstates, list_insert_insert_eq.
    apply list_insert_id, Hempty. }
  split; [rewrite Hcards2; exact Hc1 |].
  repeat split. congruence.
Qed.

Lemma placeCard_then_removeCard_witness :
  exists w1 w2 c',
    placeCard Sample.paperCard 7 Sample.bluffed = Ok (true, w1)
    /\ removeCard 7 w1 = Ok (Some Sample.paperCard, w2)
    /\ GridSystem.grid (World.gridSystem w2)
       = GridSystem.grid (World.gridSystem Sample.bluffed)
    /\ World.cards w2 !! Sample.paperCard = Some c'
    /\ Card.position c' = Some 7.
Proof.
  destruct (placeCard_then_removeCard Sample.bluffed 7 Sample.paperCard
              (Card.setOwner Sample.ai (Card.new PAPER "card_1" 0)))
    as (w1 & w2 & c' & H1 & H2 & H3 & _ & H4 & H5 & _).
  - unfold GridSpec.wf. vm_compute.
    repeat split; try reflexivity; intros Hcmp; discriminate Hcmp.
  - vm_compute. split; [intros Hcmp; discriminate Hcmp | reflexivity].
  - vm_compute. reflexivity.
  - vm_compute. reflexivity.
  - vm_compute. reflexivity.
  - exists w1, w2, c'. auto.
Defined.

(** * The change history of the grid *)

Lemma recordChange_spec (w : World.t) (action : string) (p : Z)
    (card : CardRef) (c : Card.t) :
  World.cards w !! card = Some c ->
  recordChange action p card w
  = Ok (tt,
        World.set_gridSystem
          (GridSystem.set_changeHistory
             (pushChange (GridSystem.changeHistory (World.gridSystem w))
                (Change.mk action p (Some (Card.id c)) (World.clock w)))
             (GridSystem.set_lastModified (World.clock w) (World.gridSystem w)))
          w).
Proof.
  intros Hc. unfold recordChange.
  rewrite (bind_Ok _ _ _ _ _ (getCard_Some _ _ _ Hc)).
  unfold bind, now, getGridSystem, setGridSystem, gets, modify, ret, pushChange.
  cbn.
  destruct (100 <? Z.of_nat
              (length (GridSystem.changeHistory (World.gridSystem w) ++
                       [Change.mk action p (Some (Card.id c)) (World.clock w)])));
    destruct w as [? ? ? [] ? ? ? ? ?]; reflexivity.
Qed.

Lemma runs_recordChange (w : World.t) (action : string) (p : Z)
    (card : CardRef) (c : Card.t) (Q : unit -> World.t -> Prop) :
  World.cards w !! card = Some c ->
  Q tt (World.set_gridSystem
          (GridSystem.set_changeHistory
             (pushChange (GridSystem.changeHistory (World.gridSystem w))
                (Change.mk action p (Some (Card.id c)) (World.clock w)))
             (GridSystem.set_lastModified (World.clock w) (World.gridSystem w)))
          w) ->
  runs (recordChange action p card) w Q.
Proof.
  intros Hc HQ. eexists _, _.
  split; [apply recordChange_spec; exact Hc | exact HQ].
Qed.

Ltac wp_history :=
  first
    [ lazymatch goal with
      | |- runs (recordChange _ _ _) _ _ =>
          eapply runs_recordChange; [solve_lookup |]
      end
    | wp_step ].

Lemma pushChange_eq (history : list Change.t) (change : Change.t) :
  (length history <= 100)%nat ->
  pushChange history change
  = (if bool_decide (length history = 100%nat) then tail history else history)
      ++ [change]
  /\ length (pushChange history change) = Nat.min 100 (S (length history)).
Proof.
  intros Hlen. unfold pushChange. rewrite length_app. cbn [length].
  destruct (decide (length history = 100%nat)) as [Hfull | Hroom].
  - rewrite bool_decide_eq_true_2 by exact Hfull.
    rewrite (proj2 (Z.ltb_lt 100 (Z.of_nat (length history + 1)))) by lia.
    destruct history as [| x history]; [discriminate Hfull |].
    cbn [app tail]. split; [reflexivity |].
    rewrite length_app. cbn [length] in *.
    destruct (Nat.min_spec 100 (S (S (length history)))) as [[? ->] | [? ->]]; lia.
  - rewrite bool_decide_eq_false_2 by exact Hroom.
    rewrite (proj2 (Z.ltb_ge 100 (Z.of_nat (length history + 1)))) by lia.
    split; [reflexivity |]. rewrite length_app. cbn [length].
    destruct (Nat.min_spec 100 (S (length history))) as [[? ->] | [? ->]]; lia.
Qed.

(** X10. The change history of the grid is bounded: when it holds at most
    100 entries, it still does after [placeCard] on a free slot and after
    [removeCard] on an occupied slot. Each of them appends one entry to the
    entries there were, in their order; the new entry names the action, the
    position and the id of the card, with the current time; and when there
    were 100 entries already, the oldest one (the first) is dropped and all
    the others are kept. The time of the last modification is set to the
    current time. *)
Theorem changeHistory_bounded (w : World.t) (p : Z) (card : CardRef) (c : Card.t) :
  (length (GridSystem.changeHistory (World.gridSystem w)) <= 100)%nat ->
  0 <= p < GridSystem.totalPositions (World.gridSystem w) ->
  World.cards w !! card = Some c ->
  let history := GridSystem.changeHistory (World.gridSystem w) in
  let kept :=
    if bool_decide (length history = 100%nat) then tail history else history in
  (GridSpec.cardIn (World.gridSystem w) p = Some card ->
   exists w',
     removeCard p w = Ok (Some card, w')
     /\ GridSystem.changeHistory (World.gridSystem w')
        = kept ++ [Change.mk "remove" p (Some (Card.id c)) (World.clock w)]
     /\ length (GridSystem.changeHistory (World.gridSystem w'))
        = Nat.min 100 (S (length history))
     /\ (length (GridSystem.changeHistory (World.gridSystem w')) <= 100)%nat
     /\ GridSystem.lastModified (World.gridSystem w') = World.clock w)
  /\ (GridSystem.grid (World.gridSystem w) !! Z.to_nat p = Some None ->
      p < GAME_CONFIG.TOTAL_POSITIONS ->
      exists w',
        placeCard card p w = Ok (true, w')
        /\ GridSystem.changeHistory (World.gridSystem w')
           = kept ++ [Change.mk "place" p (Some (Card.id c)) (World.clock w)]
        /\ length (GridSystem.changeHistory (World.gridSystem w'))
           = Nat.min 100 (S (length history))
        /\ (length (GridSystem.changeHistory (World.gridSystem w')) <= 100)%nat
        /\ GridSystem.lastModified (World.gridSystem w') = World.clock w).
Proof.
  intros Hlen Hp Hc. cbv zeta.
  destruct (pushChange_eq (GridSystem.changeHistory (World.gridSystem w))
              (Change.mk "remove" p (Some (Card.id c)) (World.clock w)) Hlen)
    as [Hr1 Hr2].
  destruct (pushChange_eq (GridSystem.changeHistory (World.gridSystem w))
              (Change.mk "place" p (Some (Card.id c)) (World.clock w)) Hlen)
    as [Hp1 Hp2].
  split.
  - intros Hcard.
    assert (Hrun : runs (removeCard p) w (fun r w' =>
      r = Some card
      /\ GridSystem.changeHistory (World.gridSystem w')
         = pushChange (GridSystem.changeHistory (World.gridSystem w))
             (Change.mk "remove" p (Some (Card.id c)) (World.clock w))
      /\ GridSystem.lastModified (World.gridSystem w') = World.clock w)).
    { unfold removeCard. apply runs_bind, runs_gets.
      replace (p <? 0) with false by lia.
      replace (GridSystem.totalPositions (World.gridSystem w) <=? p)
        with false by lia.
      cbn [orb]. unfold gridSlot. replace (p <? 0) with false by lia.
      rewrite (cardIn_Some _ _ _ Hcard). cbn [default from_option id].
      repeat wp_history. world_simpl. cbn. auto. }
    destruct Hrun as (r & w' & Hrun & -> & Hhist & Hmod).
    exists w'. split; [exact Hrun |].
    split; [rewrite Hhist; exact Hr1 |].
    split; [rewrite Hhist; exact Hr2 |].
    split; [rewrite Hhist, Hr2; apply Nat.le_min_l | exact Hmod].
  - intros Hfree H15.
    assert (Hrun : runs (placeCard card p) w (fun r w' =>
      r = true
      /\ GridSystem.changeHistory (World.gridSystem w')
         = pushChange (GridSystem.changeHistory (World.gridSystem w))
             (Change.mk "place" p (Some (Card.id c)) (World.clock w))
      /\ GridSystem.lastModified (World.gridSystem w') = World.clock w)).
    { unfold placeCard. apply runs_bind, runs_gets.
      rewrite bool_decide_eq_true_2 by (rewrite Hc; eauto). cbn [negb].
      apply runs_bind. unfold isPositionAvailable.
      apply runs_bind, runs_gets, runs_ret.
      unfold gridSlot. replace (p <? 0) with false by lia. rewrite Hfree.
      rewrite bool_decide_eq_true_2 by reflexivity.
      replace (0 <=? p) with true by lia.
      replace (p <? GridSystem.totalPositions (World.gridSystem w))
        with true by lia.
      cbn [andb negb]. unfold place.
      replace (p <? 0) with false by lia.
      replace (GAME_CONFIG.TOTAL_POSITIONS <=? p) with false by lia.
      cbn [orb].
      repeat wp_history. world_simpl. cbn. auto. }
    destruct Hrun as (r & w' & Hrun & -> & Hhist & Hmod).
    exists w'. split; [exact Hrun |].
    split; [rewrite Hhist; exact Hp1 |].
    split; [rewrite Hhist; exact Hp2 |].
    split; [rewrite Hhist, Hp2; apply Nat.le_min_l | exact Hmod].
Qed.

(** At the bound: the history holds 100 entries, [removeCard] drops the
    oldest one and keeps the 99 others before the new entry; [placeCard]
    on the slot freed does the same. *)
Lemma changeHistory_bounded_witness :
  (exists w',
     removeCard 5 SampleFull.world = Ok (Some Sample.paperCard, w')
     /\ GridSystem.changeHistory (World.gridSystem w')
        = replicate 99 SampleFull.later
            ++ [Change.mk "remove" 5 (Some "card_1") 0]
     /\ length (GridSystem.changeHistory (World.gridSystem w')) = 100%nat)
  /\ (exists w',
        placeCard Sample.paperCard 7 SampleFull.world = Ok (true, w')
        /\ GridSystem.changeHistory (World.gridSystem w')
           = replicate 99 SampleFull.later
               ++ [Change.mk "place" 7 (Some "card_1") 0]
        /\ length (GridSystem.changeHistory (World.gridSystem w')) = 100%nat).
Proof.
  split.
  - destruct (changeHistory_bounded SampleFull.world 5 Sample.paperCard
                (default (Card.new PAPER "card_1" 0)
                   (World.cards SampleFull.world !! Sample.paperCard)))
      as [H _].
    + vm_compute. lia.
    + vm_compute. split; [intros Hcmp; discriminate Hcmp | reflexivity].
    + vm_compute. reflexivity.
    + destruct H as (w' & H1 & H2 & H3 & _); [vm_compute; reflexivity |].
      exists w'. split; [exact H1 |].
      split; [rewrite H2 | rewrite H3]; vm_compute; reflexivity.
  - destruct (changeHistory_bounded SampleFull.world 7 Sample.paperCard
                (default (Card.new PAPER "card_1" 0)
                   (World.cards SampleFull.world !! Sample.paperCard)))
      as [_ H].
    + vm_compute. lia.
    + vm_compute. split; [intros Hcmp; discriminate Hcmp | reflexivity].
    + vm_compute. reflexivity.
    + destruct H as (w' & H1 & H2 & H3 & _);
        [vm_compute; reflexivity | vm_compute; reflexivity |].
      exists w'. split; [exact H1 |].
      split; [rewrite H2 | rewrite H3]; vm_compute; reflexivity.
Defined.

(** * Position states *)

Lemma world_eta_positionStates (w : World.t) :
  World.set_gridSystem
    (GridSystem.set_positionStates
       (GridSystem.positionStates (World.gridSystem w)) (World.gridSystem w)) w
  = w.
Proof. destruct w as [? ? ? [] ? ? ? ? ?]. reflexivity. Qed.

Lemma clearAllStates_loop_spec (n : nat) (i : Z) (w : World.t) :
  GridSpec.wf (World.gridSystem w) ->
  0 <= i -> i + Z.of_nat n = GridSystem.totalPositions (World.gridSystem w) ->
  exists states,
    clearAllStates_loop n i w
    = Ok (tt, World.set_gridSystem
                (GridSystem.set_positionStates states (World.gridSystem w)) w)
    /\ length states = length (GridSystem.positionStates (World.gridSystem w))
    /\ (forall j, 0 <= j ->
          states !! Z.to_nat j
          = if bool_decide (i <= j)
               && bool_decide (is_Some (GridSpec.cardIn (World.gridSystem w) j))
            then const OCCUPIED <$> GridSystem.positionStates (World.gridSystem w) !! Z.to_nat j
            else GridSystem.positionStates (World.gridSystem w) !! Z.to_nat j).
Proof.
  revert i w. induction n as [| n IH]; intros i w Hwf Hi Hend.
  - exists (GridSystem.positionStates (World.gridSystem w)).
    cbn [clearAllStates_loop]. rewrite world_eta_positionStates.
    split; [reflexivity |]. split; [reflexivity |].
    intros j Hj.
    destruct (bool_decide (i <= j)) eqn:Hij; [| reflexivity].
    apply bool_decide_eq_true in Hij.
    assert (Hout : GridSpec.cardIn (World.gridSystem w) j = None).
    { unfold GridSpec.cardIn. destruct Hwf as (_ & _ & _ & Hlen & _).
      rewrite lookup_ge_None_2 by lia. reflexivity. }
    rewrite Hout. reflexivity.
  - cbn [clearAllStates_loop]. unfold bind at 1, getGridSystem, gets.
    rewrite (gridSlot_wf _ i Hwf) by lia.
    pose proof Hwf as (Hw0 & Hh0 & Htot & Hlen & Hlens).
    destruct (GridSpec.cardIn (World.gridSystem w) i) as [c |] eqn:Hc.
    + rewrite bool_decide_eq_false_2 by discriminate. cbn [negb].
      unfold bind at 1, setGridSystem, modify.
      set (w1 := World.set_gridSystem
                   (GridSystem.set_positionStates
                      (<[Z.to_nat i := OCCUPIED]>
                         (GridSystem.positionStates (World.gridSystem w)))
                      (World.gridSystem w)) w).
      assert (Hwf1 : GridSpec.wf (World.gridSystem w1)).
      { unfold GridSpec.wf, w1. cbn. rewrite length_insert. exact Hwf. }
      destruct (IH (i + 1) w1 Hwf1 ltac:(lia) ltac:(unfold w1; cbn; lia))
        as (states & Hrun & Hlen' & Hlook).
      exists states. split; [rewrite Hrun; unfold w1; reflexivity |].
      split; [rewrite Hlen'; unfold w1; cbn; apply length_insert |].
      intros j Hj. rewrite (Hlook j Hj). unfold w1. cbn.
      change (GridSpec.cardIn
                (GridSystem.set_positionStates
                   (<[Z.to_nat i := OCCUPIED]>
                      (GridSystem.positionStates (World.gridSystem w)))
                   (World.gridSystem w)) j)
        with (GridSpec.cardIn (World.gridSystem w) j).
      destruct (Z.eq_dec i j) as [<- | Hne].
      * rewrite (bool_decide_eq_false_2 (i + 1 <= i)) by lia.
        rewrite (bool_decide_eq_true_2 (i <= i)) by lia.
        rewrite Hc, bool_decide_eq_true_2 by eauto. cbn [andb].
        rewrite list_lookup_insert_eq by lia.
        destruct (lookup_lt_is_Some_2
                    (GridSystem.positionStates (World.gridSystem w))
                    (Z.to_nat i) ltac:(lia)) as [s ->].
        reflexivity.
      * rewrite list_lookup_insert_ne by lia.
        destruct (bool_decide (i + 1 <= j)) eqn:H1;
          destruct (bool_decide (i <= j)) eqn:H2;
          try reflexivity;
          apply bool_decide_eq_true in H1 || apply bool_decide_eq_false in H1;
          apply bool_decide_eq_true in H2 || apply bool_decide_eq_false in H2;
          lia.
    + rewrite bool_decide_eq_true_2 by reflexivity. cbn [negb].
      unfold bind at 1, ret at 1.
      destruct (IH (i + 1) w Hwf ltac:(lia) ltac:(lia))
        as (states & Hrun & Hlen' & Hlook).
      exists states. split; [exact Hrun |]. split; [exact Hlen' |].
      intros j Hj. rewrite (Hlook j Hj).
      destruct (Z.eq_dec i j) as [<- | Hne].
      * rewrite (bool_decide_eq_false_2 (i + 1 <= i)) by lia.
        rewrite Hc, (bool_decide_eq_false_2 (is_Some None))
          by (intros [x Hx]; discriminate Hx).
        rewrite !andb_false_r. reflexivity.
      * destruct (bool_decide (i + 1 <= j)) eqn:H1;
          destruct (bool_decide (i <= j)) eqn:H2;
          try reflexivity;
          apply bool_decide_eq_true in H1 || apply bool_decide_eq_false in H1;
          apply bool_decide_eq_true in H2 || apply bool_decide_eq_false in H2;
          lia.
Qed.

(** X11. On a grid of [width * height] slots, whatever the position states
    were (selected, highlighted, or out of step with the slots),
    [clearAllStates] makes every position state match its slot: OCCUPIED
    where the slot holds a card, EMPTY elsewhere, which is then what
    [getPositionState] answers. It changes nothing but the position
    states. *)
Theorem clearAllStates_matches_slots (w : World.t) :
  GridSpec.wf (World.gridSystem w) ->
  exists states,
    clearAllStates w
    = Ok (tt, World.set_gridSystem
                (GridSystem.set_positionStates states (World.gridSystem w)) w)
    /\ states = stateOfSlot <$> GridSystem.grid (World.gridSystem w)
    /\ (forall p, 0 <= p < GridSystem.totalPositions (World.gridSystem w) ->
          states !! Z.to_nat p
          = Some (stateOfSlot (GridSpec.cardIn (World.gridSystem w) p)))
    /\ (forall p, 0 <= p < GridSystem.totalPositions (World.gridSystem w) ->
          let w' := World.set_gridSystem
                      (GridSystem.set_positionStates states (World.gridSystem w)) w in
          getPositionState p w'
          = Ok (Some (stateOfSlot (GridSpec.cardIn (World.gridSystem w) p)), w')).
Proof.
  intros Hwf. pose proof Hwf as (Hw0 & Hh0 & Htot & Hlen & Hlens).
  assert (Hn : 0 <= GridSystem.totalPositions (World.gridSystem w)) by nia.
  unfold clearAllStates, bind at 1, getGridSystem, gets.
  unfold bind at 1, setGridSystem at 1, modify.
  unfold bind at 1, getGridSystem, gets.
  set (w1 := World.set_gridSystem
               (GridSystem.set_positionStates
                  (replicate
                     (length (GridSystem.positionStates (World.gridSystem w)))
                     EMPTY) (World.gridSystem w)) w).
  assert (Hwf1 : GridSpec.wf (World.gridSystem w1)).
  { unfold GridSpec.wf, w1. cbn. rewrite length_replicate. exact Hwf. }
  destruct (clearAllStates_loop_spec
              (Z.to_nat (GridSystem.totalPositions (World.gridSystem w1))) 0 w1
              Hwf1 ltac:(lia) ltac:(unfold w1; cbn; lia))
    as (states & Hrun & Hlen' & Hlook).
  exists states. split; [rewrite Hrun; unfold w1; reflexivity |].
  assert (Hstates : forall p,
            0 <= p < GridSystem.totalPositions (World.gridSystem w) ->
            states !! Z.to_nat p
            = Some (stateOfSlot (GridSpec.cardIn (World.gridSystem w) p))).
  { intros p Hp. rewrite (Hlook p ltac:(lia)). unfold w1. cbn.
    change (GridSpec.cardIn
              (GridSystem.set_positionStates
                 (replicate
                    (length (GridSystem.positionStates (World.gridSystem w)))
                    EMPTY) (World.gridSystem w)) p)
      with (GridSpec.cardIn (World.gridSystem w) p).
    rewrite (bool_decide_eq_true_2 (0 <= p)) by lia. cbn [andb].
    rewrite lookup_replicate_2 by lia.
    destruct (GridSpec.cardIn (World.gridSystem w) p) as [c |].
    - rewrite bool_decide_eq_true_2 by eauto. reflexivity.
    - rewrite bool_decide_eq_false_2 by (intros [x Hx]; discriminate Hx).
      reflexivity. }
  split; [| split; [exact Hstates |]].
  2:{ intros p Hp. cbv zeta.
      unfold getPositionState, bind, getGridSystem, gets, ret. world_simpl. cbn.
      replace (0 <=? p) with true by lia.
      replace (p <? GridSystem.totalPositions (World.gridSystem w)) with true by lia.
      cbn [andb]. rewrite (Hstates p Hp). reflexivity. }
  apply list_eq. intros k. rewrite list_lookup_fmap.
  destruct (Nat.lt_ge_cases k (length (GridSystem.grid (World.gridSystem w))))
    as [Hk | Hk].
  - specialize (Hstates (Z.of_nat k) ltac:(lia)).
    rewrite Nat2Z.id in Hstates. rewrite Hstates.
    unfold GridSpec.cardIn. rewrite Nat2Z.id.
    destruct (lookup_lt_is_Some_2 _ _ Hk) as [slot ->]. reflexivity.
  - rewrite (lookup_ge_None_2 (GridSystem.grid (World.gridSystem w))) by lia.
    apply lookup_ge_None_2. rewrite Hlen'. unfold w1. cbn.
    rewrite length_replicate. lia.
Qed.

Lemma clearAllStates_matches_slots_witness :
  exists states,
    clearAllStates (Sample.after (setPositionState 4 HIGHLIGHTED) Sample.crowded)
    = Ok (tt, World.set_gridSystem
                (GridSystem.set_positionStates states
                   (World.gridSystem Sample.crowded)) Sample.crowded)
    /\ states !! 4%nat = Some OCCUPIED /\ states !! 3%nat = Some EMPTY.
Proof.
  destruct (clearAllStates_matches_slots
              (Sample.after (setPositionState 4 HIGHLIGHTED) Sample.crowded))
    as (states & H1 & H2 & _ & _).
  - unfold GridSpec.wf. vm_compute.
    repeat split; try reflexivity; intros Hcmp; discriminate Hcmp.
  - exists states. split.
    + rewrite H1. vm_compute. reflexivity.
    + rewrite H2. split; vm_compute; reflexivity.
Defined.

(** * Cards: the two battle rules, validation, serialisation *)

(** X12. The rule of [Card.determineBattleResult] (and [canDefeat]) and the
    rule of [BattleSystem.determineBattleOutcome] are one rule: for all
    cards, WIN, LOSE and ADVANCE from the first card's side are card1_wins,
    card2_wins and tie; swapping the two types swaps WIN and LOSE and keeps
    ADVANCE; [canDefeat] holds exactly for WIN. *)
Theorem determineBattleResult_agrees_with_outcome (card1 card2 : Card.t) :
  let r12 := determineBattleResult (Card.type card1) (Card.type card2) in
  let r21 := determineBattleResult (Card.type card2) (Card.type card1) in
  let o := BattleOutcome.outcome (determineBattleOutcome card1 card2) in
  (r12 = WIN <-> o = card1_wins)
  /\ (r12 = LOSE <-> o = card2_wins)
  /\ (r12 = ADVANCE <-> o = tie)
  /\ (r12 = WIN <-> r21 = LOSE)
  /\ (r12 = LOSE <-> r21 = WIN)
  /\ (r12 = ADVANCE <-> r21 = ADVANCE)
  /\ (canDefeat card1 (Card.type card2) = true <-> r12 = WIN).
Proof.
  unfold determineBattleResult, determineBattleOutcome, canDefeat.
  destruct (Card.type card1), (Card.type card2); cbn;
    repeat split; intros H; first [reflexivity | discriminate H].
Qed.

Lemma validate_placed (pos now : Z) (c : Card.t) :
  0 <= pos < GAME_CONFIG.TOTAL_POSITIONS ->
  CardMethods.validate (Card.placed pos now c) = true.
Proof.
  intros Hpos. unfold CardMethods.validate, isPlaced. cbn.
  replace (pos <? 0) with false by lia.
  replace (GAME_CONFIG.TOTAL_POSITIONS <=? pos) with false by lia.
  reflexivity.
Qed.

Lemma validate_revealed (now : Z) (c : Card.t) :
  CardMethods.validate (Card.revealed now c) = true
  <-> exists p, Card.position c = Some p /\ 0 <= p < GAME_CONFIG.TOTAL_POSITIONS.
Proof.
  unfold CardMethods.validate, isPlaced. cbn.
  destruct (Card.position c) as [p |]; cbn.
  - destruct (p <? 0) eqn:H0; destruct (GAME_CONFIG.TOTAL_POSITIONS <=? p) eqn:H1;
      cbn; split; intros H;
      try discriminate H; try reflexivity;
      try (destruct H as (q & Hq & Hr); injection Hq as <-; lia).
    exists p. split; [reflexivity | lia].
  - split; intros H; [discriminate H | destruct H as (q & Hq & _); discriminate Hq].
Qed.

(** X13. [Card.place] on a card of the store: for a position from 0 to 14 it
    returns, and the card is then placed at that position and passes
    [validate], whatever its state was; for any other position it throws. *)
Theorem place_then_validate (w : World.t) (this : CardRef) (position : Z)
    (c : Card.t) :
  World.cards w !! this = Some c ->
  (0 <= position < GAME_CONFIG.TOTAL_POSITIONS ->
     runs (place this position) w (fun _ w' =>
       exists c',
         World.cards w' !! this = Some c'
         /\ isPlaced c' = true
         /\ Card.position c' = Some position
         /\ CardMethods.validate c' = true
         /\ World.gridSystem w' = World.gridSystem w))
  /\ (~ 0 <= position < GAME_CONFIG.TOTAL_POSITIONS ->
        place this position w = Throw "Invalid grid position").
Proof.
  intros Hc. split; intros Hpos; unfold place.
  - replace (position <? 0) with false by lia.
    replace (GAME_CONFIG.TOTAL_POSITIONS <=? position) with false by lia.
    cbn [orb]. repeat wp_step.
    exists (Card.placed position (World.clock w) c). world_simpl.
    split; [apply lookup_insert_eq |].
    split; [reflexivity |]. split; [reflexivity |].
    split; [apply validate_placed; exact Hpos | reflexivity].
  - destruct (position <? 0) eqn:H0; [reflexivity |].
    destruct (GAME_CONFIG.TOTAL_POSITIONS <=? position) eqn:H1; [reflexivity |].
    exfalso. apply Hpos. lia.
Qed.

Lemma place_then_validate_witness :
  runs (place Sample.rockCard 14) Sample.world (fun _ w' =>
    exists c',
      World.cards w' !! Sample.rockCard = Some c'
      /\ isPlaced c' = true
      /\ Card.position c' = Some 14
      /\ CardMethods.validate c' = true
      /\ World.gridSystem w' = World.gridSystem Sample.world)
  /\ place Sample.rockCard 15 Sample.world = Throw "Invalid grid position".
Proof.
  destruct (place_then_validate Sample.world Sample.rockCard 14
              (Card.setOwner Sample.ai (Card.new ROCK "card_0" 0))
              ltac:(reflexivity)) as [Hin _].
  destruct (place_then_validate Sample.world Sample.rockCard 15
              (Card.setOwner Sample.ai (Card.new ROCK "card_0" 0))
              ltac:(reflexivity)) as [_ Hout].
  split.
  - apply Hin. unfold GAME_CONFIG.TOTAL_POSITIONS. lia.
  - apply Hout. unfold GAME_CONFIG.TOTAL_POSITIONS. lia.
Defined.

(** X14. [Card.reveal] returns on every card of the store, and the revealed
    card passes [validate] exactly when it holds a position from 0 to 14:
    revealing a placed card keeps it valid, revealing a card that was never
    placed leaves a card that [validate] rejects. *)
Theorem reveal_validate_iff_positioned (w : World.t) (this : CardRef) (c : Card.t) :
  World.cards w !! this = Some c ->
  runs (reveal this) w (fun _ w' =>
    exists c',
      World.cards w' !! this = Some c'
      /\ Card.isRevealed c' = true
      /\ Card.position c' = Card.position c
      /\ (CardMethods.validate c' = true
          <-> exists p, Card.position c = Some p
                        /\ 0 <= p < GAME_CONFIG.TOTAL_POSITIONS)).
Proof.
  intros Hc. repeat wp_step.
  exists (Card.revealed (World.clock w) c). world_simpl.
  split; [apply lookup_insert_eq |].
  split; [reflexivity |]. split; [reflexivity |].
  apply validate_revealed.
Qed.

Lemma reveal_validate_iff_positioned_witness :
  runs (reveal Sample.rockCard) Sample.world (fun _ w' =>
    exists c',
      World.cards w' !! Sample.rockCard = Some c'
      /\ Card.isRevealed c' = true
      /\ Card.position c' = None
      /\ CardMethods.validate c' = false).
Proof.
  eapply runs_weaken;
    [apply (reveal_validate_iff_positioned Sample.world Sample.rockCard
              (Card.setOwner Sample.ai (Card.new ROCK "card_0" 0)));
     reflexivity |].
  intros [] w' (c' & H1 & H2 & H3 & H4).
  exists c'. split; [exact H1 |]. split; [exact H2 |]. split; [exact H3 |].
  destruct (CardMethods.validate c'); [| reflexivity].
  destruct H4 as [H4 _]. destruct (H4 eq_refl) as (p & Hp & _).
  discriminate Hp.
Defined.

(** The card without its owner. *)
Lemma deserialize_of_card (c : Card.t) (owner : option string)
    (fresh : string) (now : Z) :
  Card.id c <> EmptyString ->
  CardMethods.deserialize
    (CardData.mk (Card.id c) (Card.type c) (Card.state c) (Card.claimedType c)
       (Card.position c) (Card.isRevealed c) (Card.createdAt c)
       (Card.placedAt c) (Card.revealedAt c) (Card.battleHistory c) owner)
    fresh now
  = Card.mk (Card.id c) (Card.type c) (Card.state c) (Card.claimedType c) None
      (Card.position c) (Card.isRevealed c) (Card.battleHistory c)
      (Card.createdAt c) (Card.placedAt c) (Card.revealedAt c).
Proof.
  intros Hid. unfold CardMethods.deserialize. cbn.
  rewrite bool_decide_eq_false_2 by exact Hid. reflexivity.
Qed.

(** X15. [Card.deserialize] after [Card.serialize]: for a card of the store
    whose id is not empty and whose owner, if any, is a player of the store,
    [serialize] returns without changing anything, and deserialising its
    result gives back the card, field for field, except that the owner is
    [null]; the outcome depends neither on the time nor on the id the
    constructor would generate. *)
Theorem serialize_then_deserialize (w : World.t) (this : CardRef) (c : Card.t) :
  World.cards w !! this = Some c ->
  Card.id c <> EmptyString ->
  (forall o, Card.owner c = Some o -> is_Some (World.players w !! o)) ->
  runs (CardMethods.serialize this) w (fun data w' =>
    w' = w
    /\ CardData.owner data
       = (o ← Card.owner c; Player.id <$> World.players w !! o)
    /\ forall fresh now,
         CardMethods.deserialize data fresh now
         = Card.mk (Card.id c) (Card.type c) (Card.state c) (Card.claimedType c)
             None (Card.position c) (Card.isRevealed c) (Card.battleHistory c)
             (Card.createdAt c) (Card.placedAt c) (Card.revealedAt c)).
Proof.
  intros Hc Hid Hown. unfold CardMethods.serialize.
  wp_step. wp_step. wp_step.
  destruct (Card.owner c) as [o |] eqn:Ho.
  - destruct (Hown o eq_refl) as [p Hp].
    repeat wp_step.
    split; [reflexivity |]. cbn. rewrite Hp. split; [reflexivity |].
    intros fresh now. apply deserialize_of_card. exact Hid.
  - repeat wp_step.
    split; [reflexivity |]. split; [reflexivity |].
    intros fresh now. apply deserialize_of_card. exact Hid.
Qed.

Lemma serialize_then_deserialize_witness :
  runs (CardMethods.serialize Sample.paperCard) Sample.bluffed (fun data w' =>
    w' = Sample.bluffed
    /\ CardData.owner data = Some "ai"
    /\ forall fresh now,
         Card.owner (CardMethods.deserialize data fresh now) = None).
Proof.
  eapply runs_weaken.
  - apply (serialize_then_deserialize Sample.bluffed Sample.paperCard
             (Card.setOwner Sample.ai (Card.new PAPER "card_1" 0))).
    + reflexivity.
    + discriminate.
    + intros o Ho. injection Ho as <-. vm_compute. eauto.
  - intros data w' (H1 & H2 & H3). split; [exact H1 |].
    split; [rewrite H2; vm_compute; reflexivity |].
    intros fresh now. rewrite H3. reflexivity.
Defined.

(** * The grid's own validation *)

Lemma validate_cards_spec (w : World.t) (n : nat) (i : Z) :
  GridMethods.validate_cards w n i = true
  <-> forall j, i <= j < i + Z.of_nat n -> cardSlotOk w j = true.
Proof.
  revert i. induction n as [| n IH]; intros i; cbn [GridMethods.validate_cards].
  - split; [intros _ j Hj; lia | reflexivity].
  - assert (Hstep : forall b,
              (b = true /\ GridMethods.validate_cards w n (i + 1) = true)
              <-> (forall j, i <= j < i + Z.of_nat (S n) ->
                     (if Z.eq_dec j i then b else cardSlotOk w j) = true)).
    { intros b. rewrite IH. split.
      - intros [Hb Hrest] j Hj. destruct (Z.eq_dec j i); [exact Hb |].
        apply Hrest. lia.
      - intros Hall. split.
        + specialize (Hall i ltac:(lia)).
          destruct (Z.eq_dec i i); [exact Hall | contradiction].
        + intros j Hj. specialize (Hall j ltac:(lia)).
          destruct (Z.eq_dec j i); [lia | exact Hall]. }
    assert (Hsame : (forall j, i <= j < i + Z.of_nat (S n) ->
                       (if Z.eq_dec j i then cardSlotOk w i else cardSlotOk w j) = true)
                    <-> (forall j, i <= j < i + Z.of_nat (S n) -> cardSlotOk w j = true)).
    { split; intros H j Hj; specialize (H j Hj);
        destruct (Z.eq_dec j i) as [-> |]; exact H. }
    rewrite <- Hsame, <- Hstep. unfold cardSlotOk at 1.
    destruct (gridSlot (World.gridSystem w) i) as [[card |] |].
    + destruct (World.cards w !! card) as [c |].
      * destruct (CardMethods.validate c); cbn [negb andb].
        -- destruct (bool_decide (Card.position c = Some i)); cbn [negb].
           ++ split; [intros H; split; [reflexivity | exact H] | intros [_ H]; exact H].
           ++ split; [discriminate | intros [H _]; discriminate H].
        -- split; [discriminate | intros [H _]; discriminate H].
      * split; [discriminate | intros [H _]; discriminate H].
    + split; [intros H; split; [reflexivity | exact H] | intros [_ H]; exact H].
    + split; [discriminate | intros [H _]; discriminate H].
Qed.

Lemma validate_states_spec (g : GridSystem.t) (n : nat) (i : Z) :
  GridMethods.validate_states g n i = true
  <-> forall j, i <= j < i + Z.of_nat n -> stateSlotOk g j = true.
Proof.
  revert i. induction n as [| n IH]; intros i; cbn [GridMethods.validate_states].
  - split; [intros _ j Hj; lia | reflexivity].
  - fold (stateSlotOk g i).
    destruct (stateSlotOk g i) eqn:Hi; cbn [negb].
    + rewrite IH. split; intros H j Hj.
      * destruct (Z.eq_dec j i) as [-> |]; [exact Hi | apply H; lia].
      * apply H. lia.
    + split; [discriminate |]. intros H.
      rewrite (H i ltac:(lia)) in Hi. discriminate Hi.
Qed.

(** [validate] always returns, changes nothing, and answers true exactly when
    the five conditions hold. *)
Lemma validate_true_iff (w : World.t) :
  exists b,
    GridMethods.validate w = Ok (b, w)
    /\ (b = true
        <-> 0 < GridSystem.width (World.gridSystem w)
            /\ 0 < GridSystem.height (World.gridSystem w)
            /\ Z.of_nat (length (GridSystem.grid (World.gridSystem w)))
               = GridSystem.totalPositions (World.gridSystem w)
            /\ (forall j, 0 <= j < GridSystem.totalPositions (World.gridSystem w) ->
                  cardSlotOk w j = true)
            /\ (forall j, 0 <= j < GridSystem.totalPositions (World.gridSystem w) ->
                  stateSlotOk (World.gridSystem w) j = true)).
Proof.
  unfold GridMethods.validate, bind, getGridSystem, gets, ret.
  set (g := World.gridSystem w).
  destruct (GridSystem.width g <=? 0) eqn:Hw; cbn [orb].
  { eexists. split; [reflexivity |]. split; [discriminate | intros (H & _); lia]. }
  destruct (GridSystem.height g <=? 0) eqn:Hh.
  { eexists. split; [reflexivity |]. split; [discriminate | intros (_ & H & _); lia]. }
  destruct (Z.of_nat (length (GridSystem.grid g)) =? GridSystem.totalPositions g) eqn:Hl;
    cbn [negb].
  2:{ eexists. split; [reflexivity |].
      split; [discriminate | intros (_ & _ & H & _); lia]. }
  destruct (GridMethods.validate_cards w (Z.to_nat (GridSystem.totalPositions g)) 0)
    eqn:Hc; cbn [negb].
  2:{ eexists. split; [reflexivity |]. split; [discriminate |].
      intros (_ & _ & _ & H & _).
      assert (Hc' : GridMethods.validate_cards w
                      (Z.to_nat (GridSystem.totalPositions g)) 0 = true)
        by (apply validate_cards_spec; intros j Hj; apply H; lia).
      congruence. }
  destruct (GridMethods.validate_states g (Z.to_nat (GridSystem.totalPositions g)) 0)
    eqn:Hs; cbn [negb].
  2:{ eexists. split; [reflexivity |]. split; [discriminate |].
      intros (_ & _ & _ & _ & H).
      assert (Hs' : GridMethods.validate_states g
                      (Z.to_nat (GridSystem.totalPositions g)) 0 = true)
        by (apply validate_states_spec; intros j Hj; apply H; lia).
      congruence. }
  eexists. split; [reflexivity |]. split; [| reflexivity]. intros _.
  split; [lia |]. split; [lia |]. split; [lia |].
  split; intros j Hj.
  - apply (proj1 (validate_cards_spec _ _ _) Hc). lia.
  - apply (proj1 (validate_states_spec _ _ _) Hs). lia.
Qed.

Lemma validate_true (w : World.t) :
  0 < GridSystem.width (World.gridSystem w) ->
  0 < GridSystem.height (World.gridSystem w) ->
  Z.of_nat (length (GridSystem.grid (World.gridSystem w)))
  = GridSystem.totalPositions (World.gridSystem w) ->
  (forall j, 0 <= j < GridSystem.totalPositions (World.gridSystem w) ->
     cardSlotOk w j = true) ->
  (forall j, 0 <= j < GridSystem.totalPositions (World.gridSystem w) ->
     stateSlotOk (World.gridSystem w) j = true) ->
  GridMethods.validate w = Ok (true, w).
Proof.
  intros H1 H2 H3 H4 H5. destruct (validate_true_iff w) as (b & Hrun & Hb).
  rewrite Hrun. destruct Hb as [_ Hb]. rewrite Hb by auto. reflexivity.
Qed.

Lemma validate_false (w : World.t) (j : Z) :
  0 <= j < GridSystem.totalPositions (World.gridSystem w) ->
  cardSlotOk w j = false ->
  GridMethods.validate w = Ok (false, w).
Proof.
  intros Hj Hbad. destruct (validate_true_iff w) as (b & Hrun & Hb).
  rewrite Hrun. destruct b; [| reflexivity].
  destruct Hb as [Hb _]. destruct (Hb eq_refl) as (_ & _ & _ & Hcards & _).
  rewrite (Hcards j Hj) in Hbad. discriminate Hbad.
Qed.

Lemma validate_inv (w : World.t) :
  GridMethods.validate w = Ok (true, w) ->
  0 < GridSystem.width (World.gridSystem w)
  /\ 0 < GridSystem.height (World.gridSystem w)
  /\ Z.of_nat (length (GridSystem.grid (World.gridSystem w)))
     = GridSystem.totalPositions (World.gridSystem w)
  /\ (forall j, 0 <= j < GridSystem.totalPositions (World.gridSystem w) ->
        cardSlotOk w j = true)
  /\ (forall j, 0 <= j < GridSystem.totalPositions (World.gridSystem w) ->
        stateSlotOk (World.gridSystem w) j = true).
Proof.
  intros Hv. destruct (validate_true_iff w) as (b & Hrun & Hb).
  rewrite Hrun in Hv. injection Hv as ->. apply Hb. reflexivity.
Qed.

(** X16. [placeCard] keeps the grid valid when the card is not yet on the
    grid: on a grid of [width * height] slots that passes [validate], placing
    a card of the store that no slot holds on a free position (among the 15 a
    card accepts) returns true and the grid passes [validate] again. *)
Theorem placeCard_keeps_validate (w : World.t) (p : Z) (card : CardRef) (c : Card.t) :
  GridSpec.wf (World.gridSystem w) ->
  GridMethods.validate w = Ok (true, w) ->
  0 <= p < GridSystem.totalPositions (World.gridSystem w) ->
  p < GAME_CONFIG.TOTAL_POSITIONS ->
  GridSpec.cardIn (World.gridSystem w) p = None ->
  World.cards w !! card = Some c ->
  (forall q, GridSpec.cardIn (World.gridSystem w) q <> Some card) ->
  exists w',
    placeCard card p w = Ok (true, w')
    /\ GridMethods.validate w' = Ok (true, w').
Proof.
  intros Hwf Hv Hp H15 Hfree Hc Hnew.
  destruct (validate_inv w Hv) as (Hw & Hh & Hl & Hcards & Hstates).
  pose proof Hwf as (_ & _ & Htot0 & Hlen & Hlens).
  assert (Hslot : GridSystem.grid (World.gridSystem w) !! Z.to_nat p = Some None).
  { pose proof (gridSlot_wf _ p Hwf Hp) as H. unfold gridSlot in H.
    replace (p <? 0) with false in H by lia. rewrite H, Hfree. reflexivity. }
  destruct (placeCard_effect w p card c Hp H15 Hslot Hc)
    as (r & w' & Hrun & -> & Hgrid & Hst & Htot & Hwidth & Hheight
        & Hcs & _).
  exists w'. split; [exact Hrun |].
  apply validate_true.
  - rewrite Hwidth. exact Hw.
  - rewrite Hheight. exact Hh.
  - rewrite Hgrid, Htot, length_insert. exact Hl.
  - intros j Hj. rewrite Htot in Hj. unfold cardSlotOk, gridSlot.
    replace (j <? 0) with false by lia. rewrite Hgrid, Hcs.
    destruct (Z.eq_dec j p) as [-> | Hne].
    + rewrite list_lookup_insert_eq by lia. rewrite lookup_insert_eq.
      rewrite validate_placed by lia. cbn.
      apply bool_decide_eq_true_2. reflexivity.
    + rewrite list_lookup_insert_ne by lia.
      specialize (Hcards j Hj). unfold cardSlotOk, gridSlot in Hcards.
      replace (j <? 0) with false in Hcards by lia.
      destruct (GridSystem.grid (World.gridSystem w) !! Z.to_nat j)
        as [[card' |] |] eqn:Hg; [| reflexivity | discriminate Hcards].
      assert (card' <> card).
      { intros ->. apply (Hnew j). unfold GridSpec.cardIn. rewrite Hg. reflexivity. }
      rewrite lookup_insert_ne by congruence. exact Hcards.
  - intros j Hj. rewrite Htot in Hj. unfold stateSlotOk, gridSlot.
    replace (j <? 0) with false by lia. rewrite Hgrid, Hst.
    destruct (Z.eq_dec j p) as [-> | Hne].
    + rewrite !list_lookup_insert_eq by lia.
      rewrite bool_decide_eq_false_2 by discriminate.
      rewrite bool_decide_eq_true_2 by reflexivity. reflexivity.
    + rewrite !list_lookup_insert_ne by lia.
      specialize (Hstates j Hj). unfold stateSlotOk, gridSlot in Hstates.
      replace (j <? 0) with false in Hstates by lia. exact Hstates.
Qed.

(** X17. Placing a card that is already on the grid breaks the grid's
    validity: when a slot [q] holds the card and the card is placed on
    another, free position [p], [placeCard] returns true, both slots then
    hold the card, the card records [p] only, and [validate] answers
    false. *)
Theorem placeCard_twice_breaks_validate (w : World.t) (p q : Z) (card : CardRef)
    (c : Card.t) :
  0 <= p < GridSystem.totalPositions (World.gridSystem w) ->
  p < GAME_CONFIG.TOTAL_POSITIONS ->
  GridSystem.grid (World.gridSystem w) !! Z.to_nat p = Some None ->
  World.cards w !! card = Some c ->
  0 <= q < GridSystem.totalPositions (World.gridSystem w) ->
  GridSpec.cardIn (World.gridSystem w) q = Some card ->
  exists w' c',
    placeCard card p w = Ok (true, w')
    /\ GridSpec.cardIn (World.gridSystem w') p = Some card
    /\ GridSpec.cardIn (World.gridSystem w') q = Some card
    /\ World.cards w' !! card = Some c'
    /\ Card.position c' = Some p
    /\ GridMethods.validate w' = Ok (false, w').
Proof.
  intros Hp H15 Hslot Hc Hq Hon.
  assert (Hqp : q <> p).
  { intros ->. unfold GridSpec.cardIn in Hon. rewrite Hslot in Hon.
    discriminate Hon. }
  destruct (placeCard_effect w p card c Hp H15 Hslot Hc)
    as (r & w' & Hrun & -> & Hgrid & Hst & Htot & Hwidth & Hheight
        & Hcs & _).
  assert (Hlenp : (Z.to_nat p < length (GridSystem.grid (World.gridSystem w)))%nat).
  { apply lookup_lt_is_Some. eauto. }
  assert (Hgq : GridSystem.grid (World.gridSystem w) !! Z.to_nat q = Some (Some card)).
  { apply cardIn_Some. exact Hon. }
  exists w', (Card.placed p (World.clock w) c).
  split; [exact Hrun |].
  split.
  { unfold GridSpec.cardIn. rewrite Hgrid, list_lookup_insert_eq by lia.
    reflexivity. }
  split.
  { unfold GridSpec.cardIn. rewrite Hgrid, list_lookup_insert_ne by lia.
    rewrite Hgq. reflexivity. }
  split; [rewrite Hcs; apply lookup_insert_eq |].
  split; [reflexivity |].
  apply (validate_false w' q); [rewrite Htot; exact Hq |].
  unfold cardSlotOk, gridSlot. replace (q <? 0) with false by lia.
  rewrite Hgrid, list_lookup_insert_ne by lia. rewrite Hgq, Hcs, lookup_insert_eq.
  cbn [Card.position Card.placed].
  rewrite (bool_decide_eq_false_2 (Some p = Some q)) by congruence.
  apply andb_false_r.
Qed.

Lemma placeCard_keeps_validate_witness :
  exists w',
    placeCard Sample.paperCard 7 Sample.bluffed = Ok (true, w')
    /\ GridMethods.validate w' = Ok (true, w').
Proof.
  apply (placeCard_keeps_validate Sample.bluffed 7 Sample.paperCard
           (Card.setOwner Sample.ai (Card.new PAPER "card_1" 0))).
  - unfold GridSpec.wf. vm_compute.
    repeat split; try reflexivity; intros Hcmp; discriminate Hcmp.
  - vm_compute. reflexivity.
  - vm_compute. split; [intros Hcmp; discriminate Hcmp | reflexivity].
  - reflexivity.
  - vm_compute. reflexivity.
  - vm_compute. reflexivity.
  - intros q. unfold GridSpec.cardIn.
    change (GridSystem.grid (World.gridSystem Sample.bluffed))
      with (<[3%nat := Some Sample.rockCard]> (replicate 15 (@None CardRef))).
    destruct (decide (Z.to_nat q = 3%nat)) as [-> | Hne].
    + cbn. discriminate.
    + rewrite list_lookup_insert_ne by congruence.
      destruct (replicate 15 None !! Z.to_nat q) as [slot |] eqn:Hq;
        [| discriminate].
      apply lookup_replicate in Hq as [-> _]. discriminate.
Defined.

Lemma placeCard_twice_breaks_validate_witness :
  exists w' c',
    placeCard Sample.rockCard 8 Sample.bluffed = Ok (true, w')
    /\ GridSpec.cardIn (World.gridSystem w') 8 = Some Sample.rockCard
    /\ GridSpec.cardIn (World.gridSystem w') 3 = Some Sample.rockCard
    /\ World.cards w' !! Sample.rockCard = Some c'
    /\ Card.position c' = Some 8
    /\ GridMethods.validate w' = Ok (false, w').
Proof.
  eapply (placeCard_twice_breaks_validate Sample.bluffed 8 3 Sample.rockCard).
  - vm_compute. split; [intros Hcmp; discriminate Hcmp | reflexivity].
  - reflexivity.
  - vm_compute. reflexivity.
  - vm_compute. reflexivity.
  - vm_compute. split; [intros Hcmp; discriminate Hcmp | reflexivity].
  - vm_compute. reflexivity.
Defined.

(** X18. [removeCard] keeps the grid valid: on a grid of [width * height]
    slots that passes [validate], [removeCard] at any position of the grid
    returns (the card of the slot, or null for a free slot) and the grid
    passes [validate] again. *)
Theorem removeCard_keeps_validate (w : World.t) (p : Z) :
  GridSpec.wf (World.gridSystem w) ->
  GridMethods.validate w = Ok (true, w) ->
  0 <= p < GridSystem.totalPositions (World.gridSystem w) ->
  exists w',
    removeCard p w = Ok (GridSpec.cardIn (World.gridSystem w) p, w')
    /\ GridSpec.cardIn (World.gridSystem w') p = None
    /\ GridMethods.validate w' = Ok (true, w').
Proof.
  intros Hwf Hv Hp.
  destruct (validate_inv w Hv) as (Hw & Hh & Hl & Hcards & Hstates).
  pose proof Hwf as (_ & _ & Htot0 & Hlen & Hlens).
  destruct (GridSpec.cardIn (World.gridSystem w) p) as [card |] eqn:Hin.
  - pose proof (Hcards p Hp) as Hok. unfold cardSlotOk in Hok.
    rewrite (gridSlot_wf _ p Hwf Hp), Hin in Hok.
    destruct (World.cards w !! card) as [c |] eqn:Hc; [| discriminate Hok].
    destruct (removeCard_runs w p card c Hp Hin Hc)
      as (r & w' & Hrun & -> & Hgrid & Hst & Htot & Hwidth & Hheight & Hcs & _).
    exists w'. split; [exact Hrun |].
    split.
    { unfold GridSpec.cardIn. rewrite Hgrid, list_lookup_insert_eq by lia.
      reflexivity. }
    apply validate_true.
    + rewrite Hwidth. exact Hw.
    + rewrite Hheight. exact Hh.
    + rewrite Hgrid, Htot, length_insert. exact Hl.
    + intros j Hj. rewrite Htot in Hj. unfold cardSlotOk, gridSlot.
      replace (j <? 0) with false by lia. rewrite Hgrid, Hcs.
      destruct (Z.eq_dec j p) as [-> | Hne].
      * rewrite list_lookup_insert_eq by lia. reflexivity.
      * rewrite list_lookup_insert_ne by lia.
        specialize (Hcards j Hj). unfold cardSlotOk, gridSlot in Hcards.
        replace (j <? 0) with false in Hcards by lia. exact Hcards.
    + intros j Hj. rewrite Htot in Hj. unfold stateSlotOk, gridSlot.
      replace (j <? 0) with false by lia. rewrite Hgrid, Hst.
      destruct (Z.eq_dec j p) as [-> | Hne].
      * rewrite !list_lookup_insert_eq by lia.
        rewrite bool_decide_eq_true_2 by reflexivity.
        rewrite bool_decide_eq_false_2 by discriminate. reflexivity.
      * rewrite !list_lookup_insert_ne by lia.
        specialize (Hstates j Hj). unfold stateSlotOk, gridSlot in Hstates.
        replace (j <? 0) with false in Hstates by lia. exact Hstates.
  - exists w. split.
    { unfold removeCard, bind, getGridSystem, gets.
      replace (p <? 0) with false by lia.
      replace (GridSystem.totalPositions (World.gridSystem w) <=? p) with false by lia.
      cbn [orb]. rewrite (gridSlot_wf _ p Hwf Hp), Hin. reflexivity. }
    split; [exact Hin | exact Hv].
Qed.

Lemma removeCard_keeps_validate_witness :
  exists w',
    removeCard 3 Sample.bluffed = Ok (Some Sample.rockCard, w')
    /\ GridSpec.cardIn (World.gridSystem w') 3 = None
    /\ GridMethods.validate w' = Ok (true, w').
Proof.
  apply (removeCard_keeps_validate Sample.bluffed 3).
  - unfold GridSpec.wf. vm_compute.
    repeat split; try reflexivity; intros Hcmp; discriminate Hcmp.
  - vm_compute. reflexivity.
  - vm_compute. split; [intros Hcmp; discriminate Hcmp | reflexivity].
Defined.

(** * Players: the behaviour profile, playing a card, the hand *)

Lemma recentActions_updated (actionType : ActionType) (actionData : ActionData)
    (now : Z) (p : Player.t) :
  BehaviorProfile.recentActions
    (Player.behaviorProfile (Player.updatedBehaviorProfile actionType actionData now p))
  = let pushed :=
      BehaviorProfile.recentActions (Player.behaviorProfile p)
        ++ [Action.mk actionType actionData now] in
    if 20 <? Z.of_nat (length pushed) then tail pushed else pushed.
Proof.
  unfold Player.updatedBehaviorProfile.
  destruct actionType; [destruct actionData | |]; reflexivity.
Qed.

Lemma updatedBehaviorProfile_others (actionType : ActionType)
    (actionData : ActionData) (now : Z) (p : Player.t) :
  let p' := Player.updatedBehaviorProfile actionType actionData now p in
  Player.score p' = Player.score p
  /\ Player.stats p' = Player.stats p
  /\ Player.hand p' = Player.hand p
  /\ Player.placedCards p' = Player.placedCards p
  /\ Player.selectedCard p' = Player.selectedCard p
  /\ Player.id p' = Player.id p
  /\ Player.name p' = Player.name p.
Proof. repeat split; reflexivity. Qed.

Lemma tail_app_last {A} (l : list A) (x : A) :
  l <> [] -> tail (l ++ [x]) = tail l ++ [x].
Proof. destruct l; [contradiction | reflexivity]. Qed.

(** X19. [updateBehaviorProfile] keeps the last 20 actions: on a player
    whose profile holds at most 20 actions, any update appends the new action
    last, stamped with the current time, drops the oldest action when there
    were 20 already, and leaves at most 20; score, statistics and cards of
    the player are untouched. *)
Theorem updateBehaviorProfile_keeps_last_20 (w : World.t) (this : PlayerRef)
    (p : Player.t) (actionType : ActionType) (actionData : ActionData) :
  World.players w !! this = Some p ->
  (length (BehaviorProfile.recentActions (Player.behaviorProfile p)) <= 20)%nat ->
  runs (updateBehaviorProfile this actionType actionData) w (fun _ w' =>
    exists p',
      let old := BehaviorProfile.recentActions (Player.behaviorProfile p) in
      let recent := BehaviorProfile.recentActions (Player.behaviorProfile p') in
      World.players w' !! this = Some p'
      /\ recent
         = (if bool_decide (length old = 20%nat) then tail old else old)
             ++ [Action.mk actionType actionData (World.clock w)]
      /\ length recent = Nat.min 20 (S (length old))
      /\ Player.score p' = Player.score p
      /\ Player.stats p' = Player.stats p
      /\ Player.hand p' = Player.hand p
      /\ Player.placedCards p' = Player.placedCards p
      /\ World.events w' = World.events w).
Proof.
  intros Hp Hlen. repeat wp_step.
  exists (Player.updatedBehaviorProfile actionType actionData (World.clock w) p).
  world_simpl. split; [apply lookup_insert_eq |].
  rewrite recentActions_updated. cbv zeta.
  set (old := BehaviorProfile.recentActions (Player.behaviorProfile p)) in *.
  rewrite length_app. cbn [length].
  destruct (decide (length old = 20%nat)) as [H20 | H20].
  - rewrite bool_decide_eq_true_2 by exact H20.
    rewrite (proj2 (Z.ltb_lt 20 (Z.of_nat (length old + 1)))) by lia.
    assert (old <> []) by (intros E; rewrite E in H20; discriminate H20).
    rewrite tail_app_last by assumption.
    split; [reflexivity |]. split; [| repeat split; reflexivity].
    rewrite length_app, length_tl. cbn [length]. lia.
  - rewrite bool_decide_eq_false_2 by exact H20.
    rewrite (proj2 (Z.ltb_ge 20 (Z.of_nat (length old + 1)))) by lia.
    split; [reflexivity |]. split; [| repeat split; reflexivity].
    rewrite length_app. cbn [length]. lia.
Qed.

Lemma updateBehaviorProfile_keeps_last_20_witness :
  runs (updateBehaviorProfile Sample.human challengeMade
          (ChallengeMadeData "ai" true ROCK PAPER)) Sample.bluffed (fun _ w' =>
    exists p',
      World.players w' !! Sample.human = Some p'
      /\ BehaviorProfile.recentActions (Player.behaviorProfile p')
         = [Action.mk challengeMade (ChallengeMadeData "ai" true ROCK PAPER) 0]).
Proof.
  eapply runs_weaken.
  - apply (updateBehaviorProfile_keeps_last_20 Sample.bluffed Sample.human
             (Player.new "human" "Player" HUMAN 0)).
    + reflexivity.
    + cbn. lia.
  - intros [] w' (p' & H1 & H2 & _). exists p'. split; [exact H1 |].
    rewrite H2. reflexivity.
Defined.

Lemma spliceOut_Permutation (card : CardRef) (hand : list CardRef) :
  card ∈ hand -> hand ≡ₚ card :: spliceOut card hand.
Proof.
  induction hand as [| c rest IH]; intros Hin.
  - apply elem_of_nil in Hin. contradiction.
  - cbn [spliceOut]. destruct (decide (c = card)) as [-> | Hne].
    + rewrite bool_decide_eq_true_2 by reflexivity. reflexivity.
    + rewrite bool_decide_eq_false_2 by exact Hne.
      apply elem_of_cons in Hin as [-> | Hin]; [contradiction |].
      rewrite (IH Hin) at 1. apply Permutation_swap.
Qed.

Lemma spliceOut_length (card : CardRef) (hand : list CardRef) :
  card ∈ hand -> S (length (spliceOut card hand)) = length hand.
Proof.
  intros Hin. rewrite (Permutation_length (spliceOut_Permutation card hand Hin)).
  reflexivity.
Qed.

Lemma spliceOut_NoDup (card : CardRef) (hand : list CardRef) :
  card ∈ hand -> NoDup hand -> card ∉ spliceOut card hand.
Proof.
  intros Hin Hnd. rewrite (spliceOut_Permutation card hand Hin) in Hnd.
  apply NoDup_cons in Hnd as [Hnot _]. exact Hnot.
Qed.

(** [playCard] on a card of the player's hand, with everything it changes. *)
Lemma playCard_effect (w : World.t) (this : PlayerRef) (card : CardRef)
    (position : Z) (claimedType : CardType) (p : Player.t) (c : Card.t) :
  World.players w !! this = Some p ->
  World.cards w !! card = Some c ->
  card ∈ Player.hand p ->
  0 <= position < GAME_CONFIG.TOTAL_POSITIONS ->
  runs (playCard this card position claimedType) w (fun r w' =>
    exists p' c',
      r = true
      /\ World.players w' !! this = Some p'
      /\ World.cards w' !! card = Some c'
      /\ Player.hand p' = spliceOut card (Player.hand p)
      /\ Player.placedCards p' = Player.placedCards p ++ [card]
      /\ Player.selectedCard p' = None
      /\ Player.score p' = Player.score p
      /\ Stats.cardsPlayed (Player.stats p') = Stats.cardsPlayed (Player.stats p) + 1
      /\ Stats.bluffsAttempted (Player.stats p')
         = Stats.bluffsAttempted (Player.stats p)
           + (if bool_decide (claimedType = Card.type c) then 0 else 1)
      /\ BehaviorProfile.cardTypePreferences (Player.behaviorProfile p') !! Card.type c
         = Some (default 0 (BehaviorProfile.cardTypePreferences
                              (Player.behaviorProfile p) !! Card.type c) + 1)
      /\ c' = Card.placed position (World.clock w) (Card.setClaim claimedType c)
      /\ (forall r, r <> this -> World.players w' !! r = World.players w !! r)
      /\ (forall r, r <> card -> World.cards w' !! r = World.cards w !! r)
      /\ World.gridSystem w' = World.gridSystem w
      /\ World.challengeSystem w' = World.challengeSystem w
      /\ World.timers w' = World.timers w
      /\ World.events w'
         = World.events w ++ [PLAY_CONFIRMED this card position claimedType]).
Proof.
  intros Hp Hc Hin Hpos. unfold playCard.
  apply runs_bind, runs_gets.
  rewrite bool_decide_eq_true_2 by (rewrite Hc; eauto). cbn [negb].
  wp_step. wp_step.
  rewrite bool_decide_eq_true_2 by exact Hin. cbn [negb].
  replace (position <? 0) with false by lia.
  replace (GAME_CONFIG.TOTAL_POSITIONS <=? position) with false by lia.
  cbn [orb]. unfold place.
  replace (position <? 0) with false by lia.
  replace (GAME_CONFIG.TOTAL_POSITIONS <=? position) with false by lia.
  cbn [orb].
  do 22 wp_step.
  assert (Hbluff : Card.isBluffing
                     (Card.placed position (World.clock w)
                        (Card.setClaim claimedType c))
                   = negb (bool_decide (claimedType = Card.type c)))
    by reflexivity.
  rewrite Hbluff.
  destruct (bool_decide (claimedType = Card.type c)) eqn:Hclaim; cbn [negb];
    repeat wp_step; world_simpl;
    (eexists; eexists; split; [reflexivity |];
     split; [apply lookup_insert_eq |];
     split; [apply lookup_insert_eq |];
     do 3 (split; [reflexivity |]);
     split; [reflexivity |];
     split; [cbn; reflexivity |];
     split; [cbn; lia |];
     split; [cbn; apply lookup_insert_eq |];
     split; [reflexivity |];
     split; [intros r Hr; rewrite !lookup_insert_ne by congruence; reflexivity |];
     split; [intros r Hr; rewrite !lookup_insert_ne by congruence; reflexivity |];
     repeat split; reflexivity).
Qed.

Lemma playCard_not_in_hand (w : World.t) (this : PlayerRef) (card : CardRef)
    (position : Z) (claimedType : CardType) (p : Player.t) (c : Card.t) :
  World.players w !! this = Some p ->
  World.cards w !! card = Some c ->
  card ∉ Player.hand p ->
  playCard this card position claimedType w = Throw "Card not in player hand".
Proof.
  intros Hp Hc Hnot. unfold playCard, bind at 1, isCard, gets.
  rewrite bool_decide_eq_true_2 by (rewrite Hc; eauto). cbn [negb].
  unfold bind at 1. rewrite (getPlayer_Some _ _ _ Hp).
  rewrite bool_decide_eq_false_2 by exact Hnot. reflexivity.
Qed.

(** X20. [Player.playCard] on a card of the player's hand and a position from
    0 to 14 returns true and moves the card from the hand to the placed
    cards: the hand loses this one card, the placed cards gain it at the end,
    the selection is cleared, the score is unchanged, [cardsPlayed] grows by
    one and [bluffsAttempted] by one exactly when the claimed type differs
    from the card's type; the card records the claim, the position and the
    state 'placed' and keeps its type; the preference counter of the card's
    actual type grows by one. The grid is not touched: putting the card on
    the grid is left to the caller. One PLAY_CONFIRMED event is emitted. *)
Theorem playCard_moves_card (w : World.t) (this : PlayerRef) (card : CardRef)
    (position : Z) (claimedType : CardType) (p : Player.t) (c : Card.t) :
  World.players w !! this = Some p ->
  World.cards w !! card = Some c ->
  card ∈ Player.hand p ->
  0 <= position < GAME_CONFIG.TOTAL_POSITIONS ->
  exists w' p' c',
    playCard this card position claimedType w = Ok (true, w')
    /\ World.players w' !! this = Some p'
    /\ World.cards w' !! card = Some c'
    /\ Player.hand p ≡ₚ card :: Player.hand p'
    /\ Player.placedCards p' = Player.placedCards p ++ [card]
    /\ (length (Player.hand p') + length (Player.placedCards p')
        = length (Player.hand p) + length (Player.placedCards p))%nat
    /\ Player.selectedCard p' = None
    /\ Player.score p' = Player.score p
    /\ Stats.cardsPlayed (Player.stats p') = Stats.cardsPlayed (Player.stats p) + 1
    /\ Stats.bluffsAttempted (Player.stats p')
       = Stats.bluffsAttempted (Player.stats p)
         + (if bool_decide (claimedType = Card.type c) then 0 else 1)
    /\ BehaviorProfile.cardTypePreferences (Player.behaviorProfile p') !! Card.type c
       = Some (default 0 (BehaviorProfile.cardTypePreferences
                            (Player.behaviorProfile p) !! Card.type c) + 1)
    /\ Card.claimedType c' = Some claimedType
    /\ Card.type c' = Card.type c
    /\ Card.state c' = PLACED
    /\ Card.position c' = Some position
    /\ World.gridSystem w' = World.gridSystem w
    /\ World.events w'
       = World.events w ++ [PLAY_CONFIRMED this card position claimedType].
Proof.
  intros Hp Hc Hin Hpos.
  destruct (playCard_effect w this card position claimedType p c Hp Hc Hin Hpos)
    as (r & w' & Hrun & p' & c' & -> & Hp' & Hc' & Hhand & Hplaced & Hsel
        & Hscore & Hplayed & Hbluffs & Hpref & -> & _ & _ & Hgrid & _ & _ & Hev).
  exists w', p', (Card.placed position (World.clock w) (Card.setClaim claimedType c)).
  split; [exact Hrun |]. split; [exact Hp' |]. split; [exact Hc' |].
  split; [rewrite Hhand; apply spliceOut_Permutation; exact Hin |].
  split; [exact Hplaced |].
  split.
  { rewrite Hhand, Hplaced, length_app. cbn [length].
    pose proof (spliceOut_length card (Player.hand p) Hin). lia. }
  split; [exact Hsel |]. split; [exact Hscore |]. split; [exact Hplayed |].
  split; [exact Hbluffs |]. split; [exact Hpref |].
  do 4 (split; [reflexivity |]).
  split; [exact Hgrid | exact Hev].
Qed.

Lemma playCard_moves_card_witness :
  exists w' p' c',
    playCard Sample.ai Sample.rockCard 3 PAPER Sample.world = Ok (true, w')
    /\ World.players w' !! Sample.ai = Some p'
    /\ World.cards w' !! Sample.rockCard = Some c'
    /\ Player.hand p' = [Sample.paperCard; Sample.scissorsCard]
    /\ Player.placedCards p' = [Sample.rockCard]
    /\ Stats.bluffsAttempted (Player.stats p') = 1
    /\ Card.claimedType c' = Some PAPER
    /\ Card.type c' = ROCK
    /\ World.gridSystem w' = World.gridSystem Sample.world.
Proof.
  destruct (playCard_moves_card Sample.world Sample.ai Sample.rockCard 3 PAPER
              (Player.set_cards
                 [Sample.rockCard; Sample.paperCard; Sample.scissorsCard] [] None
                 (Player.new "ai" "AI Opponent" AI 0))
              (Card.setOwner Sample.ai (Card.new ROCK "card_0" 0)))
    as (w' & p' & c' & Hrun & Hp' & Hc' & _ & Hplaced & _ & _ & _ & _ & Hbl
        & _ & Hcl & Hty & _ & _ & Hgrid & _).
  - reflexivity.
  - reflexivity.
  - cbn. apply list_elem_of_In; cbn; auto.
  - unfold GAME_CONFIG.TOTAL_POSITIONS. lia.
  - exists w', p', c'.
    split; [exact Hrun |]. split; [exact Hp' |]. split; [exact Hc' |].
    assert (Hw' : w' = Sample.after (playCard Sample.ai Sample.rockCard 3 PAPER)
                         Sample.world).
    { unfold Sample.after. rewrite Hrun. reflexivity. }
    split.
    { rewrite Hw' in Hp'. vm_compute in Hp'. injection Hp' as <-. reflexivity. }
    split; [exact Hplaced |]. split; [exact Hbl |].
    split; [exact Hcl |]. split; [exact Hty | exact Hgrid].
Defined.

(** X21. A card is played at most once: when the hand holds the card once
    and [playCard] has returned for it, every further [playCard] of the same
    card by the same player throws "Card not in player hand", whatever the
    position and the claim; so does [playCard] of any card of the store that
    the hand does not hold. *)
Theorem playCard_only_once (w : World.t) (this : PlayerRef) (card : CardRef)
    (position : Z) (claimedType : CardType) (p : Player.t) (c : Card.t) :
  World.players w !! this = Some p ->
  World.cards w !! card = Some c ->
  card ∈ Player.hand p ->
  NoDup (Player.hand p) ->
  0 <= position < GAME_CONFIG.TOTAL_POSITIONS ->
  exists w',
    playCard this card position claimedType w = Ok (true, w')
    /\ (forall position' claimedType',
          playCard this card position' claimedType' w'
          = Throw "Card not in player hand")
    /\ (forall card' c' position' claimedType',
          World.cards w !! card' = Some c' ->
          card' ∉ Player.hand p ->
          playCard this card' position' claimedType' w
          = Throw "Card not in player hand").
Proof.
  intros Hp Hc Hin Hnd Hpos.
  destruct (playCard_effect w this card position claimedType p c Hp Hc Hin Hpos)
    as (r & w' & Hrun & p' & c' & -> & Hp' & Hc' & Hhand & _).
  exists w'. split; [exact Hrun |]. split.
  - intros position' claimedType'.
    apply (playCard_not_in_hand w' this card position' claimedType' p' c' Hp' Hc').
    rewrite Hhand. apply spliceOut_NoDup; assumption.
  - intros card' c'' position' claimedType' Hc'' Hnot.
    apply (playCard_not_in_hand w this card' position' claimedType' p c'' Hp Hc'' Hnot).
Qed.

Lemma playCard_only_once_witness :
  exists w',
    playCard Sample.ai Sample.rockCard 3 PAPER Sample.world = Ok (true, w')
    /\ playCard Sample.ai Sample.rockCard 4 ROCK w'
       = Throw "Card not in player hand".
Proof.
  destruct (playCard_only_once Sample.world Sample.ai Sample.rockCard 3 PAPER
           (Player.set_cards
              [Sample.rockCard; Sample.paperCard; Sample.scissorsCard] [] None
              (Player.new "ai" "AI Opponent" AI 0))
           (Card.setOwner Sample.ai (Card.new ROCK "card_0" 0)))
    as (w' & Hrun & Hagain & _).
  - reflexivity.
  - reflexivity.
  - cbn. apply list_elem_of_In; cbn; auto.
  - apply (bool_decide_unpack _). vm_compute. exact I.
  - unfold GAME_CONFIG.TOTAL_POSITIONS. lia.
  - exists w'. split; [exact Hrun | apply Hagain].
Defined.

Lemma filterByType_spec (w : World.t) (cardType : CardType) (hand : list CardRef) :
  Forall (fun card => is_Some (World.cards w !! card)) hand ->
  filterByType cardType hand w = Ok (ofType w cardType hand, w).
Proof.
  induction hand as [| card rest IH]; intros Hall.
  - reflexivity.
  - apply Forall_cons in Hall as [[c Hc] Hrest].
    cbn [filterByType]. unfold bind at 1. rewrite (getCard_Some _ _ _ Hc).
    unfold bind at 1. rewrite (IH Hrest). unfold ret, ofType.
    rewrite filter_cons. rewrite Hc. cbn [fmap option_fmap option_map].
    destruct (decide (Card.type c = cardType)) as [Heq | Hne].
    + rewrite bool_decide_eq_true_2 by exact Heq.
      rewrite decide_True by congruence. reflexivity.
    + rewrite bool_decide_eq_false_2 by exact Hne.
      rewrite decide_False by congruence. reflexivity.
Qed.

Lemma countTypes_spec (w : World.t) (hand : list CardRef)
    (composition : gmap CardType Z) :
  Forall (fun card => is_Some (World.cards w !! card)) hand ->
  exists composition',
    countTypes hand composition w = Ok (composition', w)
    /\ forall t,
         default 0 (composition' !! t)
         = default 0 (composition !! t) + Z.of_nat (length (ofType w t hand)).
Proof.
  revert composition. induction hand as [| card rest IH]; intros composition Hall.
  - exists composition. split; [reflexivity |]. intros t. cbn. lia.
  - apply Forall_cons in Hall as [[c Hc] Hrest].
    cbn [countTypes]. unfold bind at 1. rewrite (getCard_Some _ _ _ Hc).
    destruct (IH (<[Card.type c := default 0 (composition !! Card.type c) + 1]>
                    composition) Hrest) as (composition' & Hrun & Hcount).
    exists composition'. split; [exact Hrun |].
    intros t. rewrite Hcount. unfold ofType at 2.
    rewrite filter_cons, Hc. cbn [fmap option_fmap option_map].
    destruct (decide (Card.type c = t)) as [<- | Hne].
    + rewrite lookup_insert_eq, decide_True by reflexivity.
      cbn [default from_option id length]. fold (ofType w (Card.type c) rest). lia.
    + rewrite lookup_insert_ne by exact Hne.
      rewrite decide_False by congruence. reflexivity.
Qed.

Lemma ofType_total (w : World.t) (hand : list CardRef) :
  Forall (fun card => is_Some (World.cards w !! card)) hand ->
  (length (ofType w ROCK hand) + length (ofType w PAPER hand)
   + length (ofType w SCISSORS hand) = length hand)%nat.
Proof.
  induction hand as [| card rest IH]; intros Hall; [reflexivity |].
  apply Forall_cons in Hall as [[c Hc] Hrest]. specialize (IH Hrest).
  unfold ofType in *. rewrite !filter_cons, Hc.
  cbn [fmap option_fmap option_map].
  destruct (Card.type c);
    repeat first [ rewrite decide_True by reflexivity
                 | rewrite decide_False by discriminate ];
    cbn [length]; lia.
Qed.

(** X22. [getHandComposition] counts what [getCardsOfType] lists: for a
    player whose hand holds cards of the store, both return without changing
    anything, the composition has an entry for each of the three types, the
    entry of a type is the number of cards that [getCardsOfType] returns for
    it, and the three entries add up to the size of the hand; [canMove] is
    true exactly when that sum is positive. *)
Theorem getHandComposition_counts (w : World.t) (this : PlayerRef) (p : Player.t) :
  World.players w !! this = Some p ->
  Forall (fun card => is_Some (World.cards w !! card)) (Player.hand p) ->
  exists composition,
    getHandComposition this w = Ok (composition, w)
    /\ (forall t,
          getCardsOfType this t w = Ok (ofType w t (Player.hand p), w)
          /\ composition !! t
             = Some (Z.of_nat (length (ofType w t (Player.hand p)))))
    /\ default 0 (composition !! ROCK) + default 0 (composition !! PAPER)
       + default 0 (composition !! SCISSORS)
       = Z.of_nat (length (Player.hand p))
    /\ canMove this w
       = Ok (0 <? default 0 (composition !! ROCK)
                  + default 0 (composition !! PAPER)
                  + default 0 (composition !! SCISSORS), w).
Proof.
  intros Hp Hall.
  destruct (countTypes_spec w (Player.hand p)
              (<[SCISSORS := 0]> (<[PAPER := 0]> (<[ROCK := 0]> ∅))) Hall)
    as (composition & Hrun & Hcount).
  assert (Hentry : forall t,
            composition !! t
            = Some (Z.of_nat (length (ofType w t (Player.hand p))))).
  { intros t. specialize (Hcount t).
    destruct (composition !! t) as [n |] eqn:Hn.
    - cbn [default from_option id] in Hcount. rewrite Hcount.
      destruct t; reflexivity.
    - exfalso. clear Hcount. revert Hn Hrun. generalize (Player.hand p).
      assert (Hgen : forall hand comp comp',
                is_Some (comp !! t) ->
                countTypes hand comp w = Ok (comp', w) -> comp' !! t <> None).
      { induction hand as [| card rest IH]; intros comp comp' Hsome Hr.
        - injection Hr as <-. destruct Hsome as [x Hx]. congruence.
        - cbn [countTypes] in Hr. unfold bind at 1 in Hr.
          destruct (getCard card w) as [[c w1] | msg] eqn:Hg; [| discriminate Hr].
          assert (w1 = w) as ->.
          { unfold getCard in Hg. destruct (World.cards w !! card);
              [injection Hg as _ <-; reflexivity | discriminate Hg]. }
          apply (IH _ _ ltac:(
            destruct (decide (Card.type c = t)) as [<- | Hne];
              [rewrite lookup_insert_eq; eauto
              | rewrite lookup_insert_ne by exact Hne; exact Hsome]) Hr). }
      intros hand Hn Hr. apply (Hgen hand _ composition) in Hr; [contradiction |].
      destruct t; cbn; eauto. }
  exists composition. split.
  { unfold getHandComposition, bind. rewrite (getPlayer_Some _ _ _ Hp). exact Hrun. }
  split.
  { intros t. split; [| apply Hentry].
    unfold getCardsOfType, bind. rewrite (getPlayer_Some _ _ _ Hp).
    apply filterByType_spec. exact Hall. }
  rewrite !Hentry. cbn [default from_option id].
  pose proof (ofType_total w (Player.hand p) Hall) as Htotal.
  split; [lia |].
  unfold canMove, bind, ret. rewrite (getPlayer_Some _ _ _ Hp).
  do 2 f_equal. f_equal. lia.
Qed.

Lemma getHandComposition_counts_witness :
  exists composition,
    getHandComposition Sample.ai Sample.bluffed = Ok (composition, Sample.bluffed)
    /\ composition !! ROCK = Some 0
    /\ composition !! PAPER = Some 1
    /\ composition !! SCISSORS = Some 1.
Proof.
  destruct (getHandComposition_counts Sample.bluffed Sample.ai
              (default (Player.new "ai" "AI Opponent" AI 0)
                 (World.players Sample.bluffed !! Sample.ai)))
    as (composition & Hrun & Hentry & _).
  - vm_compute. reflexivity.
  - apply (bool_decide_unpack _). vm_compute. exact I.
  - exists composition. split; [exact Hrun |].
    split; [| split].
    + destruct (Hentry ROCK) as [_ ->]. vm_compute. reflexivity.
    + destruct (Hentry PAPER) as [_ ->]. vm_compute. reflexivity.
    + destruct (Hentry SCISSORS) as [_ ->]. vm_compute. reflexivity.
Defined.

(** * The challenge window *)

(** [registerPlay] of a card and a player of the store, with everything it
    changes. *)
Lemma registerPlay_effect (w : World.t) (card : CardRef) (player : PlayerRef)
    (claimedType : CardType) (position : Z) (c : Card.t) (pl : Player.t) :
  World.cards w !! card = Some c ->
  World.players w !! player = Some pl ->
  runs (registerPlay card player claimedType position) w (fun _ w' =>
    let play :=
      Play.mk card player claimedType (Card.type c) position (World.clock w) true in
    let cs := World.challengeSystem w in
    World.challengeSystem w'
    = ChallengeSystem.mk (ChallengeSystem.challengeHistory cs) (Some play)
        (ChallengeSystem.challengeTimeWindow cs) (Some (World.nextTimer w))
    /\ World.timers w'
       = {[World.nextTimer w]}
           ∪ match ChallengeSystem.challengeTimer cs with
             | Some h => World.timers w ∖ {[h]}
             | None => World.timers w
             end
    /\ World.nextTimer w' = Pos.succ (World.nextTimer w)
    /\ World.players w' = World.players w
    /\ World.cards w' = World.cards w
    /\ World.gridSystem w' = World.gridSystem w
    /\ World.clock w' = World.clock w
    /\ World.events w'
       = World.events w
         ++ [CHALLENGE_WINDOW_OPEN play (ChallengeSystem.challengeTimeWindow cs)]).
Proof.
  intros Hc Hpl. unfold registerPlay.
  apply runs_bind, runs_gets. apply runs_bind, runs_gets.
  rewrite !bool_decide_eq_true_2 by (first [rewrite Hc | rewrite Hpl]; eauto).
  cbn [negb orb].
  wp_step. wp_step. wp_step.
  destruct (ChallengeSystem.challengeTimer (World.challengeSystem w)) as [h |] eqn:Ht.
  - do 9 wp_step. unfold setTimeout at 1.
    eexists _, _. split; [reflexivity |].
    repeat wp_step. world_simpl. cbn.
    repeat split; reflexivity.
  - do 9 wp_step. unfold setTimeout at 1.
    eexists _, _. split; [reflexivity |].
    repeat wp_step. world_simpl. cbn.
    repeat split; reflexivity.
Qed.

Lemma canChallenge_eq (w : World.t) :
  canChallenge w
  = Ok (match ChallengeSystem.lastPlayedCard (World.challengeSystem w) with
        | None => false
        | Some play =>
            Play.challengeable play
            && (World.clock w - Play.timestamp play
                <? ChallengeSystem.challengeTimeWindow (World.challengeSystem w))
        end, w).
Proof. reflexivity. Qed.

(** X23. The challenge window lasts between one and thirty seconds: after
    [setChallengeTimeWindow] with any number of milliseconds and
    [registerPlay] of a card and a player of the store, the window is the
    number clamped to 1000..30000 (the number itself when it lies in that
    range), and [canChallenge], asked when the clock shows [t], answers true
    exactly when less than the window has passed since the play; so it is
    true during the first second and false from thirty seconds on, whatever
    was asked for. [getChallengeablePlay] then describes the play by the
    player's name, the claimed type and the position, with the time that
    remains of the window, and answers null once the window has passed. *)
Theorem challenge_window_clamped (w : World.t) (milliseconds : Z)
    (card : CardRef) (player : PlayerRef) (claimedType : CardType) (position : Z)
    (c : Card.t) (pl : Player.t) :
  World.cards w !! card = Some c ->
  World.players w !! player = Some pl ->
  exists w1 w2 window,
    ChallengeMethods.setChallengeTimeWindow milliseconds w = Ok (tt, w1)
    /\ registerPlay card player claimedType position w1 = Ok (tt, w2)
    /\ ChallengeSystem.challengeTimeWindow (World.challengeSystem w2) = window
    /\ 1000 <= window <= 30000
    /\ (1000 <= milliseconds <= 30000 -> window = milliseconds)
    /\ (forall t,
          canChallenge (World.set_clock t w2)
          = Ok (t - World.clock w <? window, World.set_clock t w2))
    /\ (forall t, t - World.clock w < 1000 ->
          canChallenge (World.set_clock t w2) = Ok (true, World.set_clock t w2))
    /\ (forall t, 30000 <= t - World.clock w ->
          canChallenge (World.set_clock t w2) = Ok (false, World.set_clock t w2))
    /\ (forall t,
          ChallengeMethods.getChallengeablePlay (World.set_clock t w2)
          = Ok (if t - World.clock w <? window
                then Some (ChallengeInfo.mk (Player.name pl) claimedType position
                             (Z.max 0 (window - (t - World.clock w))))
                else None, World.set_clock t w2)).
Proof.
  intros Hc Hpl.
  set (w1 := World.set_challengeSystem
               (ChallengeMethods.set_challengeTimeWindow
                  (Z.max 1000 (Z.min 30000 milliseconds))
                  (World.challengeSystem w)) w).
  destruct (registerPlay_effect w1 card player claimedType position c pl Hc Hpl)
    as ([] & w2 & Hrun & Hcs & _ & _ & Hplayers & _).
  exists w1, w2, (Z.max 1000 (Z.min 30000 milliseconds)).
  split; [reflexivity |]. split; [exact Hrun |].
  split; [rewrite Hcs; reflexivity |].
  split; [lia |]. split; [lia |].
  assert (Hcan : forall t,
            canChallenge (World.set_clock t w2)
            = Ok (t - World.clock w <? Z.max 1000 (Z.min 30000 milliseconds),
                  World.set_clock t w2)).
  { intros t. rewrite canChallenge_eq. world_simpl. rewrite Hcs. reflexivity. }
  split; [exact Hcan |].
  split; [intros t Ht; rewrite Hcan; do 2 f_equal; lia |].
  split; [intros t Ht; rewrite Hcan; do 2 f_equal; lia |].
  intros t. unfold ChallengeMethods.getChallengeablePlay.
  rewrite (bind_Ok _ _ _ _ _ (Hcan t)).
  destruct (t - World.clock w <? Z.max 1000 (Z.min 30000 milliseconds));
    [| reflexivity].
  cbn [negb]. unfold bind at 1, getChallengeSystem, gets. world_simpl.
  rewrite Hcs. cbn [ChallengeSystem.lastPlayedCard Play.player].
  assert (Hpl2 : World.players (World.set_clock t w2) !! player = Some pl)
    by (world_simpl; rewrite Hplayers; exact Hpl).
  rewrite (bind_Ok _ _ _ _ _ (getPlayer_Some _ _ _ Hpl2)).
  reflexivity.
Qed.

Lemma challenge_window_clamped_witness :
  exists w1 w2 window,
    ChallengeMethods.setChallengeTimeWindow 50 Sample.world = Ok (tt, w1)
    /\ registerPlay Sample.rockCard Sample.ai PAPER 3 w1 = Ok (tt, w2)
    /\ ChallengeSystem.challengeTimeWindow (World.challengeSystem w2) = window
    /\ 1000 <= window <= 30000
    /\ canChallenge (World.set_clock 999 w2) = Ok (true, World.set_clock 999 w2).
Proof.
  destruct (challenge_window_clamped Sample.world 50 Sample.rockCard Sample.ai
              PAPER 3 (Card.setOwner Sample.ai (Card.new ROCK "card_0" 0))
              (Player.set_cards
                 [Sample.rockCard; Sample.paperCard; Sample.scissorsCard] [] None
                 (Player.new "ai" "AI Opponent" AI 0)))
    as (w1 & w2 & window & H1 & H2 & H3 & H4 & _ & _ & H5 & _ & _).
  - reflexivity.
  - reflexivity.
  - exists w1, w2, window. repeat (split; [assumption |]).
    apply H5. vm_compute. reflexivity.
Defined.

(** * The timer of the challenge window *)

Lemma timers_cleared (w : World.t) :
  timersTracked w ->
  match ChallengeSystem.challengeTimer (World.challengeSystem w) with
  | Some h => World.timers w ∖ {[h]}
  | None => World.timers w
  end = ∅.
Proof.
  unfold timersTracked. intros Htr. apply set_eq. intros x.
  rewrite elem_of_empty.
  destruct (ChallengeSystem.challengeTimer (World.challengeSystem w)) as [h |].
  - rewrite elem_of_difference, elem_of_singleton. split; [| contradiction].
    intros [Hx Hne]. apply Htr, elem_of_singleton in Hx. contradiction.
  - split; [| contradiction]. intros Hx. apply Htr, elem_of_empty in Hx.
    exact Hx.
Qed.

Lemma timers_cleared_tracked (timers : gset TimerId) :
  timers = ∅ -> timers ⊆ ∅.
Proof. intros ->. reflexivity. Qed.

Lemma registerPlay_tracked (w : World.t) (card : CardRef) (player : PlayerRef)
    (claimedType : CardType) (position : Z) (c : Card.t) (pl : Player.t) :
  timersTracked w ->
  World.cards w !! card = Some c ->
  World.players w !! player = Some pl ->
  runs (registerPlay card player claimedType position) w (fun _ w' =>
    timersTracked w'
    /\ World.timers w' = {[World.nextTimer w]}
    /\ ChallengeSystem.challengeTimer (World.challengeSystem w')
       = Some (World.nextTimer w)
    /\ forall h, h <> World.nextTimer w -> fireTimer h w' = Ok (tt, w')).
Proof.
  intros Htr Hc Hpl.
  eapply runs_weaken;
    [apply (registerPlay_effect w card player claimedType position c pl Hc Hpl) |].
  intros [] w' (Hcs & Htimers & _). cbv zeta in Hcs.
  assert (Hone : World.timers w' = {[World.nextTimer w]}).
  { rewrite Htimers, (timers_cleared w Htr). apply union_empty_r_L. }
  split; [unfold timersTracked; rewrite Hcs, Hone; reflexivity |].
  split; [exact Hone |]. split; [rewrite Hcs; reflexivity |].
  intros h Hh. unfold fireTimer, bind, gets.
  rewrite bool_decide_eq_false_2
    by (rewrite Hone, elem_of_singleton; exact Hh).
  reflexivity.
Qed.

Lemma makeChallenge_tracked (challenger : PlayerRef) (w w' : World.t)
    (r : MakeChallengeResult.t) :
  timersTracked w ->
  makeChallenge challenger w = Ok (r, w') ->
  timersTracked w'.
Proof.
  intros Htr E. unfold makeChallenge in E.
  apply bind_inv in E as (ok & w0 & Hok & E).
  injection Hok as <- <-.
  destruct (bool_decide (is_Some (World.players w !! challenger)));
    cbn [negb] in E; [| discriminate].
  apply bind_inv in E as (cs & w0 & Hcs & E). injection Hcs as <- <-.
  destruct (ChallengeSystem.lastPlayedCard (World.challengeSystem w))
    as [play |] eqn:Hlast.
  2: { injection E as _ <-. exact Htr. }
  destruct (Play.challengeable play) eqn:Hch; cbn [negb] in E.
  2: { injection E as _ <-. exact Htr. }
  destruct (bool_decide (challenger = Play.player play)).
  { injection E as _ <-. exact Htr. }
  apply bind_inv in E as (u & w0 & Htimer & E).
  assert (Htr0 : timersTracked w0).
  { unfold timersTracked in *.
    destruct (ChallengeSystem.challengeTimer (World.challengeSystem w))
      as [h |] eqn:Ht.
    - injection Htimer as _ <-. world_simpl. cbn.
      apply timers_cleared_tracked.
      pose proof (timers_cleared w) as Hcl. unfold timersTracked in Hcl.
      rewrite Ht in Hcl. apply Hcl. exact Htr.
    - injection Htimer as _ <-. rewrite Ht. exact Htr. }
  apply bind_inv in E as (cr & w1 & Hproc & E).
  destruct (processChallenge_frame challenger play) as (Hfcs & Hft & _).
  injection E as _ <-.
  unfold timersTracked in *. world_simpl. cbn.
  rewrite (Hfcs _ _ _ Hproc), (Hft _ _ _ Hproc). exact Htr0.
Qed.

Lemma clear_effect (w : World.t) :
  exists w',
    ChallengeMethods.clear w = Ok (tt, w')
    /\ World.challengeSystem w'
       = ChallengeSystem.mk [] None
           (ChallengeSystem.challengeTimeWindow (World.challengeSystem w)) None
    /\ World.timers w'
       = match ChallengeSystem.challengeTimer (World.challengeSystem w) with
         | Some h => World.timers w ∖ {[h]}
         | None => World.timers w
         end
    /\ World.players w' = World.players w
    /\ World.cards w' = World.cards w
    /\ World.events w' = World.events w.
Proof.
  unfold ChallengeMethods.clear, bind, getChallengeSystem, setChallengeSystem,
    gets, modify. world_simpl. cbn.
  destruct (ChallengeSystem.challengeTimer (World.challengeSystem w)) as [h |] eqn:Ht.
  - eexists. split; [reflexivity |]. world_simpl. cbn. repeat split; reflexivity.
  - eexists. split; [reflexivity |]. world_simpl.
    unfold ChallengeSystem.set_lastPlayedCard, ChallengeSystem.set_challengeHistory.
    cbn. rewrite Ht. repeat split; reflexivity.
Qed.

(** X24. The challenge system never leaves a timer behind. Call a world
    tracked when its pending timers are at most the one the challenge system
    holds in [challengeTimer]. From a tracked world: [registerPlay] (of a
    card and a player of the store) leaves exactly one pending timer, the new
    one, so that the callback of any older handle does nothing;
    [closeChallengeWindow] and [clear] leave no pending timer; [makeChallenge]
    (whenever it returns), a callback and [setChallengeTimeWindow] lead to a
    tracked world again. *)
Theorem timers_tracked (w : World.t) :
  timersTracked w ->
  (forall card player claimedType position c pl,
     World.cards w !! card = Some c ->
     World.players w !! player = Some pl ->
     exists w',
       registerPlay card player claimedType position w = Ok (tt, w')
       /\ timersTracked w'
       /\ World.timers w' = {[World.nextTimer w]}
       /\ forall h, h <> World.nextTimer w -> fireTimer h w' = Ok (tt, w'))
  /\ (forall challenger r w',
        makeChallenge challenger w = Ok (r, w') -> timersTracked w')
  /\ (exists w',
        closeChallengeWindow w = Ok (tt, w')
        /\ timersTracked w' /\ World.timers w' = ∅)
  /\ (exists w',
        ChallengeMethods.clear w = Ok (tt, w')
        /\ timersTracked w' /\ World.timers w' = ∅)
  /\ (forall h, exists w', fireTimer h w = Ok (tt, w') /\ timersTracked w')
  /\ (forall milliseconds,
        exists w',
          ChallengeMethods.setChallengeTimeWindow milliseconds w = Ok (tt, w')
          /\ timersTracked w').
Proof.
  intros Htr.
  assert (Hclose : forall w0, timersTracked w0 ->
            exists w', closeChallengeWindow w0 = Ok (tt, w')
                       /\ timersTracked w' /\ World.timers w' = ∅).
  { intros w0 Htr0.
    destruct (closeChallengeWindow_spec w0)
      as (w' & Hrun & _ & _ & Htimer & _ & _ & Htimers & _).
    exists w'. split; [exact Hrun |].
    assert (Hempty : World.timers w' = ∅)
      by (rewrite Htimers; apply timers_cleared; exact Htr0).
    split; [| exact Hempty].
    unfold timersTracked. rewrite Htimer, Hempty. reflexivity. }
  split.
  { intros card player claimedType position c pl Hc Hpl.
    destruct (registerPlay_tracked w card player claimedType position c pl
                Htr Hc Hpl) as ([] & w' & Hrun & H1 & H2 & _ & H3).
    exists w'. auto. }
  split; [intros challenger r w' E; exact (makeChallenge_tracked _ _ _ _ Htr E) |].
  split; [apply Hclose; exact Htr |].
  split.
  { destruct (clear_effect w) as (w' & Hrun & Hcs & Htimers & _).
    exists w'. split; [exact Hrun |].
    assert (Hempty : World.timers w' = ∅)
      by (rewrite Htimers; apply timers_cleared; exact Htr).
    split; [| exact Hempty].
    unfold timersTracked. rewrite Hcs, Hempty. reflexivity. }
  split.
  { intros h. unfold fireTimer, bind, gets.
    destruct (bool_decide (h ∈ World.timers w)) eqn:Hin.
    - cbn [modify].
      destruct (Hclose (World.set_timers (World.timers w ∖ {[h]}) w))
        as (w' & Hrun & Htr' & _).
      { unfold timersTracked in *. world_simpl. cbn.
        intros x Hx. apply elem_of_difference in Hx as [Hx _].
        apply Htr. exact Hx. }
      exists w'. split; [exact Hrun | exact Htr'].
    - exists w. split; [reflexivity | exact Htr]. }
  intros milliseconds. eexists. split; [reflexivity |]. exact Htr.
Qed.

Lemma timers_tracked_witness :
  timersTracked Sample.bluffed
  /\ (exists w',
        registerPlay Sample.paperCard Sample.ai PAPER 7 Sample.bluffed = Ok (tt, w')
        /\ World.timers w' = {[World.nextTimer Sample.bluffed]}
        /\ fireTimer 1%positive w' = Ok (tt, w')).
Proof.
  assert (Htr : timersTracked Sample.bluffed).
  { unfold timersTracked. apply (bool_decide_unpack _). vm_compute. exact I. }
  split; [exact Htr |].
  destruct (timers_tracked Sample.bluffed Htr) as (Hreg & _).
  destruct (Hreg Sample.paperCard Sample.ai PAPER 7
              (Card.setOwner Sample.ai (Card.new PAPER "card_1" 0))
              (default (Player.new "ai" "AI Opponent" AI 0)
                 (World.players Sample.bluffed !! Sample.ai)))
    as (w' & Hrun & _ & Htimers & Hstale).
  - reflexivity.
  - vm_compute. reflexivity.
  - exists w'. split; [exact Hrun |]. split; [exact Htimers |].
    apply Hstale. vm_compute. discriminate.
Defined.

Lemma processChallenge_frame_clock (challenger : PlayerRef) (playData : Play.t) :
  preserves World.clock (processChallenge challenger playData).
Proof.
  unfold processChallenge, addScore, reveal, updateBehaviorProfile.
  repeat frame_step.
Qed.

(** What a successful [makeChallenge] writes into the challenge system. *)
Lemma makeChallenge_history (challenger : PlayerRef) (w w' : World.t)
    (r : MakeChallengeResult.t) :
  makeChallenge challenger w = Ok (r, w') ->
  MakeChallengeResult.success r = true ->
  exists play cr,
    ChallengeSystem.lastPlayedCard (World.challengeSystem w) = Some play
    /\ MakeChallengeResult.result r = Some cr
    /\ ChallengeSystem.challengeHistory (World.challengeSystem w')
       = ChallengeSystem.challengeHistory (World.challengeSystem w)
         ++ [ChallengeRecord.mk challenger (Play.player play) (Play.card play)
               (Play.claimedType play) (Play.actualType play)
               (ChallengeOutcome.result cr) (World.clock w)
               (ChallengeOutcome.pointsChanged cr)]
    /\ ChallengeSystem.lastPlayedCard (World.challengeSystem w')
       = Some (Play.set_challengeable false play)
    /\ ChallengeSystem.challengeTimer (World.challengeSystem w') = None.
Proof.
  intros E Hsucc. unfold makeChallenge in E.
  apply bind_inv in E as (ok & w0 & Hok & E).
  injection Hok as <- <-.
  destruct (bool_decide (is_Some (World.players w !! challenger)));
    cbn [negb] in E; [| discriminate].
  apply bind_inv in E as (cs & w0 & Hcs & E). injection Hcs as <- <-.
  destruct (ChallengeSystem.lastPlayedCard (World.challengeSystem w))
    as [play |] eqn:Hlast.
  2: { injection E as <- <-. discriminate Hsucc. }
  destruct (Play.challengeable play) eqn:Hch; cbn [negb] in E.
  2: { injection E as <- <-. discriminate Hsucc. }
  destruct (bool_decide (challenger = Play.player play)).
  { injection E as <- <-. discriminate Hsucc. }
  apply bind_inv in E as (u & w0 & Htimer & E).
  assert (H0 : ChallengeSystem.lastPlayedCard (World.challengeSystem w0) = Some play
               /\ ChallengeSystem.challengeHistory (World.challengeSystem w0)
                  = ChallengeSystem.challengeHistory (World.challengeSystem w)
               /\ ChallengeSystem.challengeTimer (World.challengeSystem w0) = None
               /\ World.clock w0 = World.clock w).
  { destruct (ChallengeSystem.challengeTimer (World.challengeSystem w)) eqn:Ht;
      injection Htimer as _ <-; world_simpl; cbn; auto. }
  destruct H0 as (Hlast0 & Hhist0 & Htimer0 & Hclock0).
  apply bind_inv in E as (cr & w1 & Hproc & E).
  destruct (processChallenge_frame challenger play) as (Hfcs & _).
  pose proof (Hfcs _ _ _ Hproc) as Hcs1.
  pose proof (processChallenge_frame_clock challenger play _ _ _ Hproc) as Hclock1.
  injection E as <- <-.
  exists play, cr. split; [reflexivity |]. split; [reflexivity |].
  world_simpl. cbn. rewrite Hcs1, Hclock1, Hhist0, Hclock0, Hlast0, Htimer0.
  repeat split; reflexivity.
Qed.

(** X25. A registered play can be challenged by the other player, once:
    after [registerPlay] of a card and a player of the store, whatever play
    was pending before, [makeChallenge] by any other player of the store
    succeeds; the verdict is SUCCESSFUL exactly when the claimed type differs
    from the type the card had when the play was registered; one record with
    the claimed and the actual type is appended to the challenge history,
    the timer of the window is dropped, and a further [makeChallenge] finds
    no challengeable play and changes nothing. *)
Theorem registerPlay_then_makeChallenge (w : World.t) (card : CardRef)
    (player challenger : PlayerRef) (claimedType : CardType) (position : Z)
    (c : Card.t) (pl pc : Player.t) :
  World.cards w !! card = Some c ->
  World.players w !! player = Some pl ->
  World.players w !! challenger = Some pc ->
  challenger <> player ->
  exists w1 cr w2,
    registerPlay card player claimedType position w = Ok (tt, w1)
    /\ makeChallenge challenger w1
       = Ok (MakeChallengeResult.mk true None (Some cr), w2)
    /\ ChallengeOutcome.result cr
       = (if bool_decide (claimedType = Card.type c) then FAILED else SUCCESSFUL)
    /\ ChallengeSystem.challengeHistory (World.challengeSystem w2)
       = ChallengeSystem.challengeHistory (World.challengeSystem w)
         ++ [ChallengeRecord.mk challenger player card claimedType (Card.type c)
               (ChallengeOutcome.result cr) (World.clock w)
               (ChallengeOutcome.pointsChanged cr)]
    /\ ChallengeSystem.challengeTimer (World.challengeSystem w2) = None
    /\ makeChallenge challenger w2 = Ok (noChallengeablePlay, w2).
Proof.
  intros Hc Hpl Hpc Hne.
  destruct (registerPlay_effect w card player claimedType position c pl Hc Hpl)
    as ([] & w1 & Hreg & Hcs & _ & _ & Hplayers & Hcards & _ & Hclock & _).
  cbv zeta in Hcs.
  set (play := Play.mk card player claimedType (Card.type c) position
                 (World.clock w) true) in *.
  assert (Hlast : ChallengeSystem.lastPlayedCard (World.challengeSystem w1)
                  = Some play) by (rewrite Hcs; reflexivity).
  assert (Hpc1 : World.players w1 !! challenger = Some pc)
    by (rewrite Hplayers; exact Hpc).
  assert (Hpl1 : World.players w1 !! Play.player play = Some pl)
    by (rewrite Hplayers; exact Hpl).
  assert (Hc1 : World.cards w1 !! Play.card play = Some c)
    by (rewrite Hcards; exact Hc).
  assert (Hverdict : exists cr w2,
            makeChallenge challenger w1
            = Ok (MakeChallengeResult.mk true None (Some cr), w2)
            /\ ChallengeOutcome.result cr
               = (if bool_decide (claimedType = Card.type c)
                  then FAILED else SUCCESSFUL)
            /\ is_Some (scoreOf w2 challenger)).
  { destruct (decide (claimedType = Card.type c)) as [Heq | Hdiff].
    - rewrite bool_decide_eq_true_2 by exact Heq.
      destruct (makeChallenge_truthful w1 challenger play pc pl c Hlast
                  eq_refl Heq Hne Hpc1 Hpl1 Hc1)
        as (cr & w2 & Hrun & Hres & Hscore & _).
      exists cr, w2. rewrite Hscore. eauto.
    - rewrite bool_decide_eq_false_2 by exact Hdiff.
      destruct (makeChallenge_bluff w1 challenger play pc pl c Hlast
                  eq_refl Hdiff Hne Hpc1 Hpl1 Hc1)
        as (cr & w2 & Hrun & Hres & _ & _ & Hscore).
      exists cr, w2. rewrite Hscore. unfold scoreOf. rewrite Hpc1. eauto. }
  destruct Hverdict as (cr & w2 & Hrun & Hres & Hstill).
  destruct (makeChallenge_history challenger w1 w2 _ Hrun eq_refl)
    as (play' & cr' & Hlast' & Hcr' & Hhist & Hlast2 & Htimer2).
  rewrite Hlast in Hlast'. injection Hlast' as <-.
  cbn in Hcr'. injection Hcr' as <-.
  exists w1, cr, w2. split; [exact Hreg |]. split; [exact Hrun |].
  split; [exact Hres |].
  split; [rewrite Hhist, Hcs, Hclock; reflexivity |].
  split; [exact Htimer2 |].
  apply closed_makeChallenge.
  - unfold closed. rewrite Hlast2. reflexivity.
  - unfold scoreOf in Hstill.
    destruct (World.players w2 !! challenger) as [p2 |]; [eauto |].
    destruct Hstill as [x Hx]. discriminate Hx.
Qed.

Lemma registerPlay_then_makeChallenge_witness :
  exists w1 cr w2,
    registerPlay Sample.paperCard Sample.ai ROCK 7 Sample.bluffed = Ok (tt, w1)
    /\ makeChallenge Sample.human w1
       = Ok (MakeChallengeResult.mk true None (Some cr), w2)
    /\ ChallengeOutcome.result cr = SUCCESSFUL
    /\ makeChallenge Sample.human w2 = Ok (noChallengeablePlay, w2).
Proof.
  destruct (registerPlay_then_makeChallenge Sample.bluffed Sample.paperCard
              Sample.ai Sample.human ROCK 7
              (Card.setOwner Sample.ai (Card.new PAPER "card_1" 0))
              (default (Player.new "ai" "AI Opponent" AI 0)
                 (World.players Sample.bluffed !! Sample.ai))
              (Player.new "human" "Player" HUMAN 0))
    as (w1 & cr & w2 & H1 & H2 & H3 & _ & _ & H4).
  - reflexivity.
  - vm_compute. reflexivity.
  - reflexivity.
  - discriminate.
  - exists w1, cr, w2. split; [exact H1 |]. split; [exact H2 |].
    split; [exact H3 | exact H4].
Defined.

(** * Battles *)

Lemma runsB_ret {A} (x : A) a (Q : A -> Arena.t -> Prop) :
  Q x a -> runsB (retB x) a Q.
Proof. intros H. exists x, a. split; [reflexivity | exact H]. Qed.

Lemma runsB_bind {A C} (m : B A) (k : A -> B C) a (Q : C -> Arena.t -> Prop) :
  runsB m a (fun x a' => runsB (k x) a' Q) -> runsB (bindB m k) a Q.
Proof.
  intros (x & a' & Hm & y & a'' & Hk & HQ). exists y, a''.
  split; [unfold bindB; rewrite Hm; exact Hk | exact HQ].
Qed.

Lemma runsB_liftM {A} (m : M A) a (Q : A -> Arena.t -> Prop) :
  runs m (Arena.world a) (fun x w' => Q x (Arena.set_world w' a)) ->
  runsB (liftM m) a Q.
Proof.
  intros (x & w' & Hm & HQ). exists x, (Arena.set_world w' a).
  split; [unfold liftM; rewrite Hm; reflexivity | exact HQ].
Qed.

Lemma runsB_setCurrentBattle v a (Q : unit -> Arena.t -> Prop) :
  Q tt (Arena.set_currentBattle v a) -> runsB (setCurrentBattle v) a Q.
Proof. intros H. eexists _, _. split; [reflexivity | exact H]. Qed.

Lemma runsB_emitBattle e a (Q : unit -> Arena.t -> Prop) :
  Q tt (Arena.set_battleEvents
          (Arena.battleEvents a ++ [(length (World.events (Arena.world a)), e)]) a) ->
  runsB (emitBattle e) a Q.
Proof. intros H. eexists _, _. split; [reflexivity | exact H]. Qed.

Ltac arena_simpl :=
  cbn [Arena.world Arena.currentBattle Arena.battleEvents Arena.set_world
       Arena.set_currentBattle Arena.set_battleEvents].

(** One step of symbolic execution in the arena. *)
Ltac wpB_step :=
  lazymatch goal with
  | |- runsB (bindB _ _) _ _ => apply runsB_bind
  | |- runsB (retB _) _ _ => apply runsB_ret
  | |- runsB (liftM _) _ _ => apply runsB_liftM; arena_simpl
  | |- runsB (setCurrentBattle _) _ _ => apply runsB_setCurrentBattle
  | |- runsB (emitBattle _) _ _ => apply runsB_emitBattle
  | |- runs (withOwner (Some _) _) _ _ => unfold withOwner
  | |- runs (withOwner None _) _ _ => unfold withOwner
  | |- runs _ _ _ => wp_step
  end.

Ltac battle_exec :=
  repeat first
    [ wpB_step
    | progress cbn [default from_option id Card.owner Card.id Card.type
                    pushBattleRecord]
    | match goal with
      | H : Card.owner _ = _ |- context [Card.owner _] => rewrite H
      end ].

(** The players after a battle, one player at a time. *)
Ltac battle_player :=
  let r := fresh "r" in
  let p := fresh "p" in
  let Hr := fresh "Hr" in
  intros r p Hr;
  repeat match goal with
         | |- context [bool_decide (Some ?o = Some r)] =>
             destruct (decide (o = r)) as [-> | ?];
             [ rewrite (bool_decide_eq_true_2 (Some r = Some r)) by reflexivity
             | rewrite (bool_decide_eq_false_2 (Some o = Some r)) by congruence ]
         | |- context [bool_decide (None = Some r)] =>
             rewrite (bool_decide_eq_false_2 (None = Some r)) by discriminate
         end;
  repeat match goal with
         | H : World.players _ !! r = Some ?q |- _ =>
             lazymatch q with
             | p => fail
             | _ => rewrite Hr in H; injection H as <-
             end
         end;
  eexists;
  (split;
   [ repeat first [ rewrite lookup_insert_eq
                  | rewrite lookup_insert_ne by congruence ];
     first [ reflexivity | exact Hr ]
   | cbn; repeat split; lia ]).

Lemma processBattle_effect (a : Arena.t) (battle : Battle.t) (c1 c2 : Card.t) :
  Battle.card1 battle <> Battle.card2 battle ->
  World.cards (Arena.world a) !! Battle.card1 battle = Some c1 ->
  World.cards (Arena.world a) !! Battle.card2 battle = Some c2 ->
  (forall o, Card.owner c1 = Some o -> is_Some (World.players (Arena.world a) !! o)) ->
  (forall o, Card.owner c2 = Some o -> is_Some (World.players (Arena.world a) !! o)) ->
  runsB (processBattle battle) a (battleDone a battle c1 c2).
Proof.
  intros Hne Hc1 Hc2 Hown1 Hown2.
  assert (Hne' : Battle.card2 battle <> Battle.card1 battle) by congruence.
  unfold processBattle, battleDone, ownerOfWinner, ownerOfLoser.
  destruct (Card.owner c1) as [o1 |] eqn:Ho1;
    [destruct (Hown1 o1 eq_refl) as [p1 Hp1] |];
    (destruct (Card.owner c2) as [o2 |] eqn:Ho2;
     [destruct (Hown2 o2 eq_refl) as [p2 Hp2] |]);
    clear Hown1 Hown2;
    try (destruct (decide (o1 = o2)) as [-> | Hoo];
         [rewrite Hp1 in Hp2; injection Hp2 as <- |]);
    (destruct (BattleOutcome.outcome (determineBattleOutcome c1 c2)) eqn:Hout;
     repeat wpB_step; rewrite Hout; cbv beta iota;
     battle_exec; arena_simpl; world_simpl;
     rewrite ?(bool_decide_eq_true_2 (Some (Battle.card1 battle) = Some (Battle.card1 battle)))
       by reflexivity;
     rewrite ?(bool_decide_eq_true_2 (Some (Battle.card2 battle) = Some (Battle.card2 battle)))
       by reflexivity;
     rewrite ?(bool_decide_eq_false_2 (Some (Battle.card1 battle) = Some (Battle.card2 battle)))
       by congruence;
     rewrite ?(bool_decide_eq_false_2 (Some (Battle.card2 battle) = Some (Battle.card1 battle)))
       by congruence;
     rewrite ?(bool_decide_eq_false_2 (None = Some (Battle.card1 battle)))
       by discriminate;
     rewrite ?(bool_decide_eq_false_2 (None = Some (Battle.card2 battle)))
       by discriminate;
     cbn [Card.id Card.type pushBattleRecord];
     (split; [reflexivity |]);
     (split; [battle_player |]);
     (split; [reflexivity |]);
     (split; [reflexivity |]);
     (split; [reflexivity |]);
     (split; [rewrite ?app_nil_r; rewrite ?Hp1, ?Hp2; reflexivity |]);
     (split; [reflexivity |]);
     rewrite <- app_assoc; reflexivity).
Qed.

(** X26. [processBattle] on two different cards of the store, whose owners,
    if any, are players of the store, returns the result of the rock, paper,
    scissors rule on the cards' actual types. The owner of the winning card
    gets BATTLE_WIN points through [addScore] (the score becomes the larger
    of 0 and score + BATTLE_WIN) and one won battle, the owner of the losing
    card one lost battle and no change of score; a tie, or a winning card
    without owner, changes no score. No player's hand or placed cards change, the grid is
    not touched (the losing card stays in its slot), and BATTLE_START and
    BATTLE_RESULT are emitted around the score update. *)
Theorem processBattle_awards_winner (a : Arena.t) (battle : Battle.t)
    (c1 c2 : Card.t) :
  Battle.card1 battle <> Battle.card2 battle ->
  World.cards (Arena.world a) !! Battle.card1 battle = Some c1 ->
  World.cards (Arena.world a) !! Battle.card2 battle = Some c2 ->
  (forall o, Card.owner c1 = Some o -> is_Some (World.players (Arena.world a) !! o)) ->
  (forall o, Card.owner c2 = Some o -> is_Some (World.players (Arena.world a) !! o)) ->
  exists result a',
    processBattle battle a = Ok (result, a')
    /\ BattleResultData.outcome result = resolve (Card.type c1) (Card.type c2)
    /\ BattleResultData.pointsAwarded result
       = (if bool_decide (Card.type c1 = Card.type c2) then 0 else SCORING.BATTLE_WIN)
    /\ (forall r p,
          World.players (Arena.world a) !! r = Some p ->
          exists p',
            World.players (Arena.world a') !! r = Some p'
            /\ Player.score p'
               = (if bool_decide (ownerOfWinner c1 c2 = Some r)
                  then Z.max 0 (Player.score p + SCORING.BATTLE_WIN)
                  else Player.score p)
            /\ Stats.battlesWon (Player.stats p')
               = Stats.battlesWon (Player.stats p)
                 + (if bool_decide (ownerOfWinner c1 c2 = Some r) then 1 else 0)
            /\ Stats.battlesLost (Player.stats p')
               = Stats.battlesLost (Player.stats p)
                 + (if bool_decide (ownerOfLoser c1 c2 = Some r) then 1 else 0)
            /\ Player.hand p' = Player.hand p
            /\ Player.placedCards p' = Player.placedCards p)
    /\ World.gridSystem (Arena.world a') = World.gridSystem (Arena.world a)
    /\ Arena.currentBattle a' = None
    /\ Arena.battleEvents a'
       = Arena.battleEvents a
         ++ [(length (World.events (Arena.world a)), BATTLE_START battle);
             (length (World.events (Arena.world a')), BATTLE_RESULT result)]
    /\ (length (World.events (Arena.world a'))
        = length (World.events (Arena.world a))
          + (if bool_decide (is_Some (ownerOfWinner c1 c2)) then 1 else 0))%nat.
Proof.
  intros Hne Hc1 Hc2 Hown1 Hown2.
  destruct (processBattle_effect a battle c1 c2 Hne Hc1 Hc2 Hown1 Hown2)
    as (result & a' & Hrun & Hres & Hplayers & _ & Hgrid & _ & Hev & Hcur & Hbev).
  exists result, a'. split; [exact Hrun |].
  split; [rewrite Hres; apply determineBattleOutcome_resolve |].
  split.
  { rewrite Hres. cbn [BattleResultData.pointsAwarded].
    unfold determineBattleOutcome.
    destruct (bool_decide (Card.type c1 = Card.type c2)); [reflexivity |].
    destruct (bool_decide (CardInfo.defeats (CARD_INFO (Card.type c1)) = Card.type c2));
      reflexivity. }
  split; [exact Hplayers |]. split; [exact Hgrid |]. split; [exact Hcur |].
  split; [exact Hbev |].
  rewrite Hev, length_app.
  assert (Howner : forall o, ownerOfWinner c1 c2 = Some o ->
                     is_Some (World.players (Arena.world a) !! o)).
  { unfold ownerOfWinner. intros o.
    destruct (BattleOutcome.outcome (determineBattleOutcome c1 c2));
      [discriminate | apply Hown1 | apply Hown2]. }
  destruct (ownerOfWinner c1 c2) as [o |].
  - destruct (Howner o eq_refl) as [p ->].
    rewrite bool_decide_eq_true_2 by eauto. reflexivity.
  - rewrite bool_decide_eq_false_2 by (intros [x Hx]; discriminate Hx).
    reflexivity.
Qed.

Lemma processBattle_awards_winner_witness :
  exists result a' p',
    processBattle SampleArena.battle SampleArena.arena = Ok (result, a')
    /\ BattleResultData.outcome result = card2_wins
    /\ World.players (Arena.world a') !! Sample.ai = Some p'
    /\ Player.score p' = 1
    /\ Stats.battlesWon (Player.stats p') = 1
    /\ Stats.battlesLost (Player.stats p') = 1
    /\ World.gridSystem (Arena.world a') = World.gridSystem Sample.crowded.
Proof.
  destruct (processBattle_awards_winner SampleArena.arena SampleArena.battle
              SampleArena.paper SampleArena.scissors)
    as (result & a' & Hrun & Hout & _ & Hplayers & Hgrid & _).
  - discriminate.
  - vm_compute. reflexivity.
  - vm_compute. reflexivity.
  - intros o Ho. vm_compute in Ho. injection Ho as <-. vm_compute. eauto.
  - intros o Ho. vm_compute in Ho. injection Ho as <-. vm_compute. eauto.
  - destruct (Hplayers Sample.ai
                (default (Player.new "ai" "AI Opponent" AI 0)
                   (World.players Sample.crowded !! Sample.ai)))
      as (p' & Hp' & Hscore & Hwon & Hlost & _).
    { vm_compute. reflexivity. }
    exists result, a', p'. split; [exact Hrun |]. split; [exact Hout |].
    split; [exact Hp' |].
    split; [rewrite Hscore; vm_compute; reflexivity |].
    split; [rewrite Hwon; vm_compute; reflexivity |].
    split; [rewrite Hlost; vm_compute; reflexivity | exact Hgrid].
Defined.

(** X27. [processBattle] adds one record to the battle history of each of
    the two cards and changes nothing else of any card: in particular no
    card is revealed, moved or removed by a battle. The two records mirror
    each other: they carry the results of [Card.determineBattleResult] from
    each card's side, with a tie recorded as "tie", and swapped positions.
    The record of the second card always names the first card as opponent;
    the record of the first card names the losing card, so it names the
    second card unless the first card lost, in which case it names the first
    card itself. *)
Theorem processBattle_records_both (a : Arena.t) (battle : Battle.t)
    (c1 c2 : Card.t) :
  Battle.card1 battle <> Battle.card2 battle ->
  World.cards (Arena.world a) !! Battle.card1 battle = Some c1 ->
  World.cards (Arena.world a) !! Battle.card2 battle = Some c2 ->
  (forall o, Card.owner c1 = Some o -> is_Some (World.players (Arena.world a) !! o)) ->
  (forall o, Card.owner c2 = Some o -> is_Some (World.players (Arena.world a) !! o)) ->
  exists result a' r1 r2,
    processBattle battle a = Ok (result, a')
    /\ World.cards (Arena.world a') !! Battle.card1 battle
       = Some (pushBattleRecord r1 c1)
    /\ World.cards (Arena.world a') !! Battle.card2 battle
       = Some (pushBattleRecord r2 c2)
    /\ (forall r, r <> Battle.card1 battle -> r <> Battle.card2 battle ->
          World.cards (Arena.world a') !! r = World.cards (Arena.world a) !! r)
    /\ BattleRecord.result r1
       = recorded (determineBattleResult (Card.type c1) (Card.type c2))
    /\ BattleRecord.result r2
       = recorded (determineBattleResult (Card.type c2) (Card.type c1))
    /\ BattleRecord.opponent r2 = Card.id c1
    /\ BattleRecord.opponentType r2 = Card.type c1
    /\ BattleRecord.opponent r1
       = match BattleRecord.result r1 with
         | Some LOSE => Card.id c1
         | _ => Card.id c2
         end
    /\ BattleRecord.opponentType r1
       = match BattleRecord.result r1 with
         | Some LOSE => Card.type c1
         | _ => Card.type c2
         end
    /\ BattleRecord.position r1 = Battle.position1 battle
    /\ BattleRecord.opponentPosition r1 = Battle.position2 battle
    /\ BattleRecord.position r2 = Battle.position2 battle
    /\ BattleRecord.opponentPosition r2 = Battle.position1 battle
    /\ BattleRecord.timestamp r1 = World.clock (Arena.world a)
    /\ BattleRecord.timestamp r2 = World.clock (Arena.world a).
Proof.
  intros Hne Hc1 Hc2 Hown1 Hown2.
  destruct (processBattle_effect a battle c1 c2 Hne Hc1 Hc2 Hown1 Hown2)
    as (result & a' & Hrun & _ & _ & Hcards & _).
  cbv zeta in Hcards.
  eexists result, a', _, _. split; [exact Hrun |].
  split; [rewrite Hcards, lookup_insert_ne by congruence; apply lookup_insert_eq |].
  split; [rewrite Hcards; apply lookup_insert_eq |].
  split.
  { intros r Hr1 Hr2. rewrite Hcards, !lookup_insert_ne by congruence.
    reflexivity. }
  cbn [BattleRecord.result BattleRecord.opponent BattleRecord.opponentType
       BattleRecord.position BattleRecord.opponentPosition BattleRecord.timestamp].
  unfold determineBattleOutcome, determineBattleResult.
  destruct (Card.type c1), (Card.type c2); cbn; repeat split; reflexivity.
Qed.

Lemma processBattle_records_both_witness :
  exists result a' r1 r2,
    processBattle SampleArena.battle SampleArena.arena = Ok (result, a')
    /\ World.cards (Arena.world a') !! Sample.paperCard
       = Some (pushBattleRecord r1 SampleArena.paper)
    /\ World.cards (Arena.world a') !! Sample.scissorsCard
       = Some (pushBattleRecord r2 SampleArena.scissors)
    /\ BattleRecord.result r1 = Some LOSE
    /\ BattleRecord.result r2 = Some WIN
    /\ BattleRecord.opponent r1 = "card_1"
    /\ BattleRecord.opponent r2 = "card_1".
Proof.
  destruct (processBattle_records_both SampleArena.arena SampleArena.battle
              SampleArena.paper SampleArena.scissors)
    as (result & a' & r1 & r2 & Hrun & H1 & H2 & _ & Hr1 & Hr2 & Ho2 & _ & Ho1 & _).
  - discriminate.
  - vm_compute. reflexivity.
  - vm_compute. reflexivity.
  - intros o Ho. vm_compute in Ho. injection Ho as <-. vm_compute. eauto.
  - intros o Ho. vm_compute in Ho. injection Ho as <-. vm_compute. eauto.
  - exists result, a', r1, r2. split; [exact Hrun |].
    split; [exact H1 |]. split; [exact H2 |].
    split; [rewrite Hr1; reflexivity |]. split; [rewrite Hr2; reflexivity |].
    split; [rewrite Ho1, Hr1; reflexivity | rewrite Ho2; reflexivity].
Defined.

(** * Looking ahead: the battles a new card would fight *)

Lemma simulateBattle_Some (w : World.t) (card1 card2 : CardRef) (c1 c2 : Card.t) :
  World.cards w !! card1 = Some c1 ->
  World.cards w !! card2 = Some c2 ->
  simulateBattle card1 card2 w = Ok (determineBattleOutcome c1 c2, w).
Proof.
  intros H1 H2. unfold simulateBattle, bind, ret.
  rewrite (getCard_Some _ _ _ H1), (getCard_Some _ _ _ H2). reflexivity.
Qed.

Lemma perspective_second (c1 c2 : Card.t) :
  match BattleOutcome.outcome (determineBattleOutcome c1 c2) with
  | card2_wins => scenario_win
  | card1_wins => scenario_lose
  | tie => scenario_tie
  end
  = perspective (determineBattleResult (Card.type c2) (Card.type c1)).
Proof.
  unfold determineBattleOutcome, determineBattleResult.
  destruct (Card.type c1), (Card.type c2); reflexivity.
Qed.

Lemma perspective_first (c1 c2 : Card.t) :
  match BattleOutcome.outcome (determineBattleOutcome c1 c2) with
  | card1_wins => scenario_win
  | card2_wins => scenario_lose
  | tie => scenario_tie
  end
  = perspective (determineBattleResult (Card.type c1) (Card.type c2)).
Proof.
  unfold determineBattleOutcome, determineBattleResult.
  destruct (Card.type c1), (Card.type c2); reflexivity.
Qed.

(** The scenarios of [analyzePotentialBattles], side by side. *)
Lemma analyzePotentialBattles_eq (w : World.t) (position : Z) (newCard : CardRef)
    (nc : Card.t) :
  GridSpec.wf (World.gridSystem w) ->
  0 <= position < GridSystem.totalPositions (World.gridSystem w) ->
  World.cards w !! newCard = Some nc ->
  (forall q card, GridSpec.cardIn (World.gridSystem w) q = Some card ->
     is_Some (World.cards w !! card)) ->
  analyzePotentialBattles position newCard w
  = Ok ((if 0 <? GridSpec.col (World.gridSystem w) position
         then match GridSpec.cardIn (World.gridSystem w) (position - 1) with
              | Some lc =>
                  match World.cards w !! lc with
                  | Some c =>
                      [Scenario.mk "left_battle" lc (position - 1)
                         (perspective
                            (determineBattleResult (Card.type nc) (Card.type c)))
                         (BattleOutcome.explanation (determineBattleOutcome c nc))]
                  | None => []
                  end
              | None => []
              end
         else [])
        ++ (if GridSpec.col (World.gridSystem w) position
               <? GridSystem.width (World.gridSystem w) - 1
            then match GridSpec.cardIn (World.gridSystem w) (position + 1) with
                 | Some rc =>
                     match World.cards w !! rc with
                     | Some c =>
                         [Scenario.mk "right_battle" rc (position + 1)
                            (perspective
                               (determineBattleResult (Card.type nc) (Card.type c)))
                            (BattleOutcome.explanation (determineBattleOutcome nc c))]
                     | None => []
                     end
                 | None => []
                 end
            else []), w).
Proof.
  intros Hwf Hp Hnc Hstore.
  destruct (coords_in_range _ position Hwf Hp) as (Hpos & Hrow & Hcol & Hrem & Hsum).
  pose proof Hwf as (_ & _ & Htot & _).
  unfold analyzePotentialBattles.
  rewrite (bind_Ok _ _ _ _ _ (getHorizontalNeighbors_in_range w position Hwf Hp)).
  cbn [HorizontalNeighbors.left HorizontalNeighbors.right].
  unfold GridSpec.col in *.
  assert (Hleft :
    (match (if 0 <? position mod GridSystem.width (World.gridSystem w)
            then Some (position - 1) else None) with
     | Some l =>
         let* leftCard := getCardAt l in
         match leftCard with
         | Some lc =>
             let* battleResult := simulateBattle lc newCard in
             ret [Scenario.mk "left_battle" lc l
                    match BattleOutcome.outcome battleResult with
                    | card2_wins => scenario_win
                    | card1_wins => scenario_lose
                    | tie => scenario_tie
                    end
                    (BattleOutcome.explanation battleResult)]
         | None => ret []
         end
     | None => ret []
     end) w
    = Ok (if 0 <? position mod GridSystem.width (World.gridSystem w)
          then match GridSpec.cardIn (World.gridSystem w) (position - 1) with
               | Some lc =>
                   match World.cards w !! lc with
                   | Some c =>
                       [Scenario.mk "left_battle" lc (position - 1)
                          (perspective
                             (determineBattleResult (Card.type nc) (Card.type c)))
                          (BattleOutcome.explanation (determineBattleOutcome c nc))]
                   | None => []
                   end
               | None => []
               end
          else [], w)).
  { destruct (0 <? position mod GridSystem.width (World.gridSystem w)) eqn:Hl;
      [| reflexivity].
    rewrite (bind_Ok _ _ _ _ _ (getCardAt_in_range w (position - 1) ltac:(nia))).
    destruct (GridSpec.cardIn (World.gridSystem w) (position - 1)) as [lc |] eqn:Hlc;
      [| reflexivity].
    destruct (Hstore _ _ Hlc) as [c Hc]. rewrite Hc.
    rewrite (bind_Ok _ _ _ _ _ (simulateBattle_Some w lc newCard c nc Hc Hnc)).
    unfold ret. rewrite perspective_second. reflexivity. }
  rewrite (bind_Ok _ _ _ _ _ Hleft). clear Hleft.
  destruct (position mod GridSystem.width (World.gridSystem w)
            <? GridSystem.width (World.gridSystem w) - 1) eqn:Hr.
  2:{ unfold ret. rewrite app_nil_r. reflexivity. }
  rewrite (bind_Ok _ _ _ _ _ (getCardAt_in_range w (position + 1) ltac:(nia))).
  destruct (GridSpec.cardIn (World.gridSystem w) (position + 1)) as [rc |] eqn:Hrc.
  2:{ unfold ret. rewrite app_nil_r. reflexivity. }
  destruct (Hstore _ _ Hrc) as [c Hc]. rewrite Hc.
  rewrite (bind_Ok _ _ _ _ _ (simulateBattle_Some w newCard rc nc c Hnc Hc)).
  unfold ret. rewrite perspective_first. reflexivity.
Qed.

(** X28. [analyzePotentialBattles] judges every scenario from the side of
    the new card. On a grid of [width * height] slots whose cards are cards
    of the store, for a position of the grid and a new card of the store, it
    returns at most two scenarios and changes nothing; each scenario is
    against the card in the slot just left ("left_battle") or just right
    ("right_battle") of the position, in the same row, and its outcome is
    win, lose or tie exactly when [Card.determineBattleResult] of the new
    card's type against the opponent's type is WIN, LOSE or ADVANCE, on both
    sides alike; every occupied neighbour in the row gives a scenario. *)
Theorem analyzePotentialBattles_from_new_card (w : World.t) (position : Z)
    (newCard : CardRef) (nc : Card.t) :
  GridSpec.wf (World.gridSystem w) ->
  0 <= position < GridSystem.totalPositions (World.gridSystem w) ->
  World.cards w !! newCard = Some nc ->
  (forall q card, GridSpec.cardIn (World.gridSystem w) q = Some card ->
     is_Some (World.cards w !! card)) ->
  exists scenarios,
    analyzePotentialBattles position newCard w = Ok (scenarios, w)
    /\ (length scenarios <= 2)%nat
    /\ (forall s, s ∈ scenarios ->
          exists oc,
            GridSpec.cardIn (World.gridSystem w) (Scenario.position s)
            = Some (Scenario.opponent s)
            /\ World.cards w !! Scenario.opponent s = Some oc
            /\ ((Scenario.type s = "left_battle"
                 /\ Scenario.position s = position - 1
                 /\ 0 < GridSpec.col (World.gridSystem w) position)
                \/ (Scenario.type s = "right_battle"
                    /\ Scenario.position s = position + 1
                    /\ GridSpec.col (World.gridSystem w) position
                       < GridSystem.width (World.gridSystem w) - 1))
            /\ Scenario.outcome s
               = perspective (determineBattleResult (Card.type nc) (Card.type oc)))
    /\ (forall q card,
          (q = position - 1 /\ 0 < GridSpec.col (World.gridSystem w) position)
          \/ (q = position + 1
              /\ GridSpec.col (World.gridSystem w) position
                 < GridSystem.width (World.gridSystem w) - 1) ->
          GridSpec.cardIn (World.gridSystem w) q = Some card ->
          exists s, s ∈ scenarios
                    /\ Scenario.position s = q /\ Scenario.opponent s = card).
Proof.
  intros Hwf Hp Hnc Hstore.
  eexists. split; [apply (analyzePotentialBattles_eq w position newCard nc);
                   assumption |].
  set (left := if 0 <? GridSpec.col (World.gridSystem w) position then _ else _).
  set (right := if GridSpec.col (World.gridSystem w) position
                   <? GridSystem.width (World.gridSystem w) - 1 then _ else _).
  assert (Hleft : forall s, s ∈ left ->
            0 < GridSpec.col (World.gridSystem w) position
            /\ exists lc c,
                 GridSpec.cardIn (World.gridSystem w) (position - 1) = Some lc
                 /\ World.cards w !! lc = Some c
                 /\ s = Scenario.mk "left_battle" lc (position - 1)
                          (perspective
                             (determineBattleResult (Card.type nc) (Card.type c)))
                          (BattleOutcome.explanation (determineBattleOutcome c nc))).
  { intros s Hs. subst left.
    destruct (0 <? GridSpec.col (World.gridSystem w) position) eqn:Hl;
      [| apply elem_of_nil in Hs; contradiction].
    split; [lia |].
    destruct (GridSpec.cardIn (World.gridSystem w) (position - 1)) as [lc |];
      [| apply elem_of_nil in Hs; contradiction].
    destruct (World.cards w !! lc) as [c |] eqn:Hc;
      [| apply elem_of_nil in Hs; contradiction].
    apply list_elem_of_singleton in Hs. eauto. }
  assert (Hright : forall s, s ∈ right ->
            GridSpec.col (World.gridSystem w) position
            < GridSystem.width (World.gridSystem w) - 1
            /\ exists rc c,
                 GridSpec.cardIn (World.gridSystem w) (position + 1) = Some rc
                 /\ World.cards w !! rc = Some c
                 /\ s = Scenario.mk "right_battle" rc (position + 1)
                          (perspective
                             (determineBattleResult (Card.type nc) (Card.type c)))
                          (BattleOutcome.explanation (determineBattleOutcome nc c))).
  { intros s Hs. subst right.
    destruct (GridSpec.col (World.gridSystem w) position
              <? GridSystem.width (World.gridSystem w) - 1) eqn:Hl;
      [| apply elem_of_nil in Hs; contradiction].
    split; [lia |].
    destruct (GridSpec.cardIn (World.gridSystem w) (position + 1)) as [rc |];
      [| apply elem_of_nil in Hs; contradiction].
    destruct (World.cards w !! rc) as [c |] eqn:Hc;
      [| apply elem_of_nil in Hs; contradiction].
    apply list_elem_of_singleton in Hs. eauto. }
  split.
  { rewrite length_app.
    assert (length left <= 1)%nat.
    { subst left. repeat match goal with
                         | |- context [if ?b then _ else _] => destruct b
                         | |- context [match ?x with _ => _ end] => destruct x
                         end; cbn; lia. }
    assert (length right <= 1)%nat.
    { subst right. repeat match goal with
                          | |- context [if ?b then _ else _] => destruct b
                          | |- context [match ?x with _ => _ end] => destruct x
                          end; cbn; lia. }
    lia. }
  split.
  { intros s Hs. apply elem_of_app in Hs as [Hs | Hs].
    - destruct (Hleft s Hs) as (Hcol & lc & c & Hlc & Hc & ->).
      exists c. cbn. split; [exact Hlc |]. split; [exact Hc |].
      split; [left; auto | reflexivity].
    - destruct (Hright s Hs) as (Hcol & rc & c & Hrc & Hc & ->).
      exists c. cbn. split; [exact Hrc |]. split; [exact Hc |].
      split; [right; auto | reflexivity]. }
  intros q card [[-> Hcol] | [-> Hcol]] Hcard.
  - destruct (Hstore _ _ Hcard) as [c Hc].
    eexists. split.
    + apply elem_of_app. left. subst left.
      replace (0 <? GridSpec.col (World.gridSystem w) position) with true by lia.
      rewrite Hcard, Hc. apply list_elem_of_singleton. reflexivity.
    + split; reflexivity.
  - destruct (Hstore _ _ Hcard) as [c Hc].
    eexists. split.
    + apply elem_of_app. right. subst right.
      replace (GridSpec.col (World.gridSystem w) position
               <? GridSystem.width (World.gridSystem w) - 1) with true by lia.
      rewrite Hcard, Hc. apply list_elem_of_singleton. reflexivity.
    + split; reflexivity.
Qed.

Lemma crowded_cards_in_store (q : Z) (card : CardRef) :
  GridSpec.cardIn (World.gridSystem Sample.crowded) q = Some card ->
  is_Some (World.cards Sample.crowded !! card).
Proof.
  intros Hq.
  assert (Hcases : card = Sample.rockCard \/ card = Sample.paperCard
                   \/ card = Sample.scissorsCard).
  { unfold GridSpec.cardIn in Hq.
    destruct (GridSystem.grid (World.gridSystem Sample.crowded) !! Z.to_nat q)
      as [slot |] eqn:Hslot; [| discriminate Hq].
    cbn in Hq. subst slot. apply list_elem_of_lookup_2 in Hslot.
    apply list_elem_of_In in Hslot. vm_compute in Hslot.
    repeat match type of Hslot with
           | _ \/ _ => destruct Hslot as [Hslot | Hslot]
           end;
      first [ discriminate Hslot | contradiction
            | injection Hslot as <-; auto ]. }
  destruct Hcases as [-> | [-> | ->]]; vm_compute; eauto.
Qed.

Lemma analyzePotentialBattles_from_new_card_witness :
  exists scenarios,
    analyzePotentialBattles 7 Sample.rockCard Sample.crowded
    = Ok (scenarios, Sample.crowded)
    /\ exists s,
         s ∈ scenarios
         /\ Scenario.position s = 6
         /\ Scenario.opponent s = Sample.scissorsCard
         /\ Scenario.outcome s = scenario_win.
Proof.
  destruct (analyzePotentialBattles_from_new_card Sample.crowded 7
              Sample.rockCard
              (default (Card.new ROCK "card_0" 0)
                 (World.cards Sample.crowded !! Sample.rockCard)))
    as (scenarios & Hrun & _ & Hall & Hsome).
  - unfold GridSpec.wf. vm_compute.
    repeat split; try reflexivity; intros Hcmp; discriminate Hcmp.
  - vm_compute. split; [intros Hcmp; discriminate Hcmp | reflexivity].
  - vm_compute. reflexivity.
  - apply crowded_cards_in_store.
  - exists scenarios. split; [exact Hrun |].
    destruct (Hsome 6 Sample.scissorsCard) as (s & Hs & Hpos & Hopp).
    { left. split; [reflexivity | vm_compute; reflexivity]. }
    { vm_compute. reflexivity. }
    exists s. split; [exact Hs |]. split; [exact Hpos |]. split; [exact Hopp |].
    destruct (Hall s Hs) as (oc & _ & Hoc & _ & Hout).
    rewrite Hopp in Hoc. vm_compute in Hoc. injection Hoc as <-.
    rewrite Hout. reflexivity.
Defined.

(** * Advancement and control points *)

Lemma runs_Ok {A} (m : M A) (w w' : World.t) (x : A) (Q : A -> World.t -> Prop) :
  m w = Ok (x, w') -> Q x w' -> runs m w Q.
Proof. intros Hm HQ. exists x, w'. auto. Qed.

Lemma controlPoints_loop_spec (w : World.t) (positions : list Z) (card : CardRef)
    (c : Card.t) (n : Z) :
  Forall (fun q => 0 <= q < GridSystem.totalPositions (World.gridSystem w)) positions ->
  (forall q ac, GridSpec.cardIn (World.gridSystem w) q = Some ac ->
     is_Some (World.cards w !! ac)) ->
  World.cards w !! card = Some c ->
  controlPoints_loop positions card n w
  = Ok (n + Z.of_nat
              (length (filter (fun q => friendAt w (Card.owner c) q = true)
                         positions)), w).
Proof.
  intros Hrange Hstore Hc. revert n.
  induction positions as [| q rest IH]; intros n.
  - cbn [controlPoints_loop]. unfold ret. rewrite filter_nil. cbn [length].
    do 2 f_equal. lia.
  - apply Forall_cons in Hrange as [Hq Hrest]. specialize (IH Hrest).
    cbn [controlPoints_loop].
    rewrite (bind_Ok _ _ _ _ _ (getCardAt_in_range w q Hq)).
    rewrite filter_cons.
    destruct (GridSpec.cardIn (World.gridSystem w) q) as [ac |] eqn:Hac.
    + destruct (Hstore _ _ Hac) as [a Ha].
      assert (Hf : friendAt w (Card.owner c) q
                   = bool_decide (Card.owner a = Card.owner c))
        by (unfold friendAt; rewrite Hac, Ha; reflexivity).
      unfold bind at 1. unfold bind at 1. rewrite (getCard_Some _ _ _ Ha).
      unfold bind at 1. rewrite (getCard_Some _ _ _ Hc). unfold ret at 1.
      rewrite IH.
      destruct (bool_decide (Card.owner a = Card.owner c)) eqn:Hb.
      * rewrite decide_True by exact Hf. cbn [length].
        unfold SCORING.CONTROL. do 2 f_equal. lia.
      * rewrite decide_False by (rewrite Hf; discriminate). reflexivity.
    + assert (Hf : friendAt w (Card.owner c) q = false)
        by (unfold friendAt; rewrite Hac; reflexivity).
      unfold bind at 1, ret at 1. rewrite IH.
      rewrite decide_False by (rewrite Hf; discriminate). reflexivity.
Qed.

Lemma filter_length_lt {A} (P : A -> Prop) `{forall x, Decision (P x)}
    (l : list A) (x : A) :
  x ∈ l -> ~ P x -> (length (filter P l) < length l)%nat.
Proof.
  induction l as [| y l IH]; intros Hin Hnot.
  - apply elem_of_nil in Hin. contradiction.
  - rewrite filter_cons. apply elem_of_cons in Hin as [-> | Hin].
    + rewrite decide_False by exact Hnot. cbn [length].
      pose proof (length_filter P l). lia.
    + specialize (IH Hin Hnot). destruct (decide (P y)); cbn [length]; lia.
Qed.

(** The points of a card: at most four, since a free slot to the right is no
    friend. *)
Lemma advancement_points_le_4 (w : World.t) (owner : option PlayerRef) (p : Z) :
  GridSpec.wf (World.gridSystem w) ->
  0 <= p < GridSystem.totalPositions (World.gridSystem w) ->
  0 <= controlOf w owner p
  /\ (if canAdvance (World.gridSystem w) p then 1 else 0) + controlOf w owner p <= 4.
Proof.
  intros Hwf Hp. unfold controlOf. cbv zeta.
  set (adjacent := omap _ directions4).
  assert (Hlen : (length adjacent <= 4)%nat).
  { subst adjacent. etransitivity; [apply omap_length_le | cbn; lia]. }
  pose proof (length_filter (fun q => friendAt w owner q = true) adjacent) as Hle.
  split; [lia |].
  destruct (canAdvance (World.gridSystem w) p) eqn:Hadv; [| lia].
  unfold canAdvance in Hadv. apply andb_true_iff in Hadv as [Hcol Hfree].
  apply bool_decide_eq_true in Hfree.
  assert (Hin : p + 1 ∈ adjacent).
  { subst adjacent.
    apply (stepTo_adjacent (World.gridSystem w) p (p + 1) false Hwf Hp).
    pose proof (sameRowNextCol_iff (World.gridSystem w) p Hwf Hp) as Hsame.
    rewrite Hcol in Hsame. unfold GridSpec.sameRowNextCol in Hsame.
    apply andb_true_iff in Hsame as [Hrow Hnext].
    destruct (coords_in_range _ p Hwf Hp) as (Hpos & Hr & Hc & _ & Hsum).
    pose proof Hwf as (_ & _ & Htot & _).
    unfold adjacency, GridSpec.row, GridSpec.col in *.
    apply Z.ltb_lt in Hcol. apply Z.eqb_eq in Hrow. apply Z.eqb_eq in Hnext.
    assert ((p / GridSystem.width (World.gridSystem w) + 1)
            * GridSystem.width (World.gridSystem w)
            <= GridSystem.height (World.gridSystem w)
               * GridSystem.width (World.gridSystem w)) by nia.
    split; [lia | lia]. }
  assert (Hnot : ~ friendAt w owner (p + 1) = true).
  { unfold friendAt. rewrite Hfree. discriminate. }
  pose proof (filter_length_lt (fun q => friendAt w owner q = true) adjacent
                (p + 1) Hin Hnot).
  lia.
Qed.

Lemma right_neighbour_free (w : World.t) (p : Z) :
  GridSpec.wf (World.gridSystem w) ->
  0 <= p < GridSystem.totalPositions (World.gridSystem w) ->
  match (if GridSpec.col (World.gridSystem w) p
            <? GridSystem.width (World.gridSystem w) - 1
         then Some (p + 1) else None) with
  | Some r => isPositionAvailable r
  | None => ret false
  end w
  = Ok (canAdvance (World.gridSystem w) p, w).
Proof.
  intros Hwf Hp. unfold canAdvance.
  destruct (GridSpec.col (World.gridSystem w) p
            <? GridSystem.width (World.gridSystem w) - 1) eqn:Hcol;
    [| reflexivity].
  destruct (coords_in_range _ p Hwf Hp) as (Hpos & Hr & Hc & _ & Hsum).
  pose proof Hwf as (_ & _ & Htot & _).
  unfold GridSpec.col in Hcol. apply Z.ltb_lt in Hcol.
  assert ((p / GridSystem.width (World.gridSystem w) + 1)
          * GridSystem.width (World.gridSystem w)
          <= GridSystem.height (World.gridSystem w)
             * GridSystem.width (World.gridSystem w)) by nia.
  assert (Hp1 : 0 <= p + 1 < GridSystem.totalPositions (World.gridSystem w)) by lia.
  unfold isPositionAvailable, bind, getGridSystem, gets, ret.
  rewrite (gridSlot_wf _ (p + 1) Hwf Hp1).
  replace (0 <=? p + 1) with true by lia.
  replace (p + 1 <? GridSystem.totalPositions (World.gridSystem w)) with true by lia.
  cbn [andb]. do 2 f_equal.
  destruct (GridSpec.cardIn (World.gridSystem w) (p + 1)).
  - rewrite !bool_decide_eq_false_2 by discriminate. reflexivity.
  - rewrite !bool_decide_eq_true_2 by reflexivity. reflexivity.
Qed.

Lemma adjacent_in_range (g : GridSystem.t) (p : Z) :
  GridSpec.wf g -> 0 <= p < GridSystem.totalPositions g ->
  Forall (fun q => 0 <= q < GridSystem.totalPositions g)
    (omap (stepTo g (Coords.mk (GridSpec.row g p) (GridSpec.col g p))) directions4).
Proof.
  intros Hwf Hp. apply Forall_forall. intros q Hq.
  apply (stepTo_adjacent g p q false Hwf Hp) in Hq as [Hq _]. exact Hq.
Qed.

(** X29. [processCardAdvancement] of a card of the store at a position of
    the grid awards the card's owner one ADVANCEMENT point when the slot to
    the right, in the same row, is free, and one CONTROL point for each of
    the slots above, left, right and below that holds a card of the same
    owner: at most four points in all. The owner gets that total through
    [addScore] (the score becomes the larger of 0 and score + total; no call
    is made when the total is 0); no other player's score changes, no card
    changes and the grid is not touched, so the card does not move. A
    POINTS_AWARDED event is emitted exactly when the total is positive. *)
Theorem processCardAdvancement_points (a : Arena.t) (card : CardRef) (p : Z)
    (c : Card.t) :
  GridSpec.wf (World.gridSystem (Arena.world a)) ->
  0 <= p < GridSystem.totalPositions (World.gridSystem (Arena.world a)) ->
  (forall q ac, GridSpec.cardIn (World.gridSystem (Arena.world a)) q = Some ac ->
     is_Some (World.cards (Arena.world a) !! ac)) ->
  World.cards (Arena.world a) !! card = Some c ->
  (forall o, Card.owner c = Some o -> is_Some (World.players (Arena.world a) !! o)) ->
  exists a' total,
    processCardAdvancement card p a = Ok (tt, a')
    /\ total
       = (if canAdvance (World.gridSystem (Arena.world a)) p
          then SCORING.ADVANCEMENT else 0)
         + controlOf (Arena.world a) (Card.owner c) p
    /\ 0 <= total <= 4
    /\ (forall r pl,
          World.players (Arena.world a) !! r = Some pl ->
          exists pl',
            World.players (Arena.world a') !! r = Some pl'
            /\ Player.score pl'
               = (if bool_decide (Card.owner c = Some r) && (0 <? total)
                  then Z.max 0 (Player.score pl + total)
                  else Player.score pl)
            /\ Player.hand pl' = Player.hand pl
            /\ Player.placedCards pl' = Player.placedCards pl)
    /\ World.cards (Arena.world a') = World.cards (Arena.world a)
    /\ World.gridSystem (Arena.world a') = World.gridSystem (Arena.world a)
    /\ Arena.battleEvents a'
       = Arena.battleEvents a
         ++ (if 0 <? total
             then [(length (World.events (Arena.world a')),
                    POINTS_AWARDED card (Card.owner c)
                      (canAdvance (World.gridSystem (Arena.world a)) p)
                      (controlOf (Arena.world a) (Card.owner c) p) total)]
             else []).
Proof.
  intros Hwf Hp Hstore Hc Hown.
  destruct (advancement_points_le_4 (Arena.world a) (Card.owner c) p Hwf Hp)
    as [Hcontrol Hle].
  set (w := Arena.world a) in *.
  set (advanced := canAdvance (World.gridSystem w) p) in *.
  set (control := controlOf w (Card.owner c) p) in *.
  assert (Hrun : runsB (processCardAdvancement card p) a (fun _ a' =>
    let total := (if advanced then SCORING.ADVANCEMENT else 0) + control in
    (forall r pl,
       World.players w !! r = Some pl ->
       exists pl',
         World.players (Arena.world a') !! r = Some pl'
         /\ Player.score pl'
            = (if bool_decide (Card.owner c = Some r) && (0 <? total)
               then Z.max 0 (Player.score pl + total)
               else Player.score pl)
         /\ Player.hand pl' = Player.hand pl
         /\ Player.placedCards pl' = Player.placedCards pl)
    /\ World.cards (Arena.world a') = World.cards w
    /\ World.gridSystem (Arena.world a') = World.gridSystem w
    /\ Arena.battleEvents a'
       = Arena.battleEvents a
         ++ (if 0 <? total
             then [(length (World.events (Arena.world a')),
                    POINTS_AWARDED card (Card.owner c) advanced control total)]
             else []))).
  { unfold processCardAdvancement.
    apply runsB_bind, runsB_liftM.
    eapply runs_Ok; [apply (getHorizontalNeighbors_in_range _ p Hwf Hp) |].
    cbn [HorizontalNeighbors.right].
    apply runsB_bind, runsB_liftM. arena_simpl.
    eapply runs_Ok; [apply (right_neighbour_free _ p Hwf Hp) |].
    apply runsB_bind, runsB_liftM. arena_simpl.
    eapply runs_Ok; [apply (getAdjacentPositions_in_range _ p false Hwf Hp) |].
    apply runsB_bind, runsB_liftM. arena_simpl.
    eapply runs_Ok;
      [apply (controlPoints_loop_spec _ _ card c 0
                (adjacent_in_range _ p Hwf Hp) Hstore Hc) |].
    fold w. rewrite Z.add_0_l. fold (controlOf w (Card.owner c) p).
    fold advanced control. arena_simpl.
    set (total := (if advanced then SCORING.ADVANCEMENT else 0) + control).
    assert (Hev : advanced || (0 <? control) = (0 <? total)).
    { subst total. unfold SCORING.ADVANCEMENT in *.
      destruct advanced; cbn [orb]; lia. }
    rewrite Hev. cbv zeta.
    destruct (0 <? total) eqn:Hpos.
    - destruct (Card.owner c) as [o |] eqn:Ho.
      + destruct (Hown o eq_refl) as [po Hpo].
        repeat wpB_step. rewrite Ho. repeat wpB_step. rewrite Ho.
        arena_simpl. world_simpl.
        split; [| repeat split; reflexivity].
        intros r pl Hr. rewrite andb_true_r.
        destruct (decide (o = r)) as [-> | Hne].
        * rewrite bool_decide_eq_true_2 by reflexivity.
          rewrite Hr in Hpo. injection Hpo as <-.
          eexists. split; [apply lookup_insert_eq |].
          replace (0 <? total) with true by lia.
          cbn. repeat split; reflexivity.
        * rewrite bool_decide_eq_false_2 by congruence.
          exists pl. split; [rewrite lookup_insert_ne by congruence; exact Hr |].
          repeat split; reflexivity.
      + repeat wpB_step. rewrite Ho. repeat wpB_step. rewrite Ho.
        arena_simpl. world_simpl.
        split; [| repeat split; reflexivity].
        intros r pl Hr. rewrite bool_decide_eq_false_2 by discriminate.
        exists pl. split; [exact Hr | repeat split; reflexivity].
    - repeat wpB_step. arena_simpl. world_simpl.
      split; [| repeat split; rewrite ?app_nil_r; reflexivity].
      intros r pl Hr. rewrite andb_false_r.
      exists pl. split; [exact Hr | repeat split; reflexivity]. }
  destruct Hrun as ([] & a' & Hrun & Hplayers & Hcards & Hgrid & Hev).
  exists a', ((if advanced then SCORING.ADVANCEMENT else 0) + control).
  split; [exact Hrun |]. split; [reflexivity |].
  split; [unfold SCORING.ADVANCEMENT; destruct advanced; lia |].
  split; [exact Hplayers |]. split; [exact Hcards |]. split; [exact Hgrid | exact Hev].
Qed.

Lemma processCardAdvancement_points_witness :
  exists a' pl',
    processCardAdvancement Sample.scissorsCard 6 SampleArena.arena = Ok (tt, a')
    /\ World.players (Arena.world a') !! Sample.ai = Some pl'
    /\ Player.score pl' = 2
    /\ World.gridSystem (Arena.world a') = World.gridSystem Sample.crowded.
Proof.
  destruct (processCardAdvancement_points SampleArena.arena Sample.scissorsCard 6
              SampleArena.scissors)
    as (a' & total & Hrun & Htotal & _ & Hplayers & _ & Hgrid & _).
  - unfold GridSpec.wf. vm_compute.
    repeat split; try reflexivity; intros Hcmp; discriminate Hcmp.
  - vm_compute. split; [intros Hcmp; discriminate Hcmp | reflexivity].
  - apply crowded_cards_in_store.
  - vm_compute. reflexivity.
  - intros o Ho. vm_compute in Ho. injection Ho as <-. vm_compute. eauto.
  - destruct (Hplayers Sample.ai
                (default (Player.new "ai" "AI Opponent" AI 0)
                   (World.players Sample.crowded !! Sample.ai)))
      as (pl' & Hpl' & Hscore & _).
    { vm_compute. reflexivity. }
    exists a', pl'. split; [exact Hrun |]. split; [exact Hpl' |].
    split; [| exact Hgrid].
    rewrite Hscore, Htotal. vm_compute. reflexivity.
Defined.

(** * Victory *)

Lemma hasWon_exclusive (p q : Player.t) :
  Player.hasWon p q = true -> Player.hasWon q p = false.
Proof.
  unfold Player.hasWon, GAME_CONFIG.VICTORY_POINTS, GAME_CONFIG.MIN_VICTORY_LEAD.
  intros H. apply andb_true_iff in H as [_ H].
  apply andb_false_iff. right. lia.
Qed.

Lemma checkVictoryConditions_eq (w : World.t) (x y : PlayerRef) (px py : Player.t) :
  World.players w !! x = Some px ->
  World.players w !! y = Some py ->
  checkVictoryConditions x y w
  = Ok (if Player.hasWon px py then Some x
        else if Player.hasWon py px then Some y else None, w).
Proof.
  intros Hx Hy. unfold checkVictoryConditions.
  rewrite (bind_Ok _ _ _ _ _ (getPlayer_Some _ _ _ Hx)).
  rewrite (bind_Ok _ _ _ _ _ (getPlayer_Some _ _ _ Hy)).
  destruct (Player.hasWon px py); [reflexivity |].
  rewrite (bind_Ok _ _ _ _ _ (getPlayer_Some _ _ _ Hy)).
  rewrite (bind_Ok _ _ _ _ _ (getPlayer_Some _ _ _ Hx)).
  destruct (Player.hasWon py px); reflexivity.
Qed.

(** X30. [checkVictoryConditions] names at most one winner, and the order of
    its two tests does not matter: for two players of the store it returns
    without changing anything; it returns the human player exactly when the
    human player has won against the AI player, the AI player exactly when
    the AI player has won against the human player, and the two cannot both
    have won; asking with the two players exchanged gives the same answer. A
    winner holds at least VICTORY_POINTS and strictly more points than the
    other player. *)
Theorem checkVictoryConditions_one_winner (w : World.t)
    (humanPlayer aiPlayer : PlayerRef) (h a : Player.t) :
  World.players w !! humanPlayer = Some h ->
  World.players w !! aiPlayer = Some a ->
  exists winner,
    checkVictoryConditions humanPlayer aiPlayer w = Ok (winner, w)
    /\ checkVictoryConditions aiPlayer humanPlayer w = Ok (winner, w)
    /\ ~ (Player.hasWon h a = true /\ Player.hasWon a h = true)
    /\ (Player.hasWon h a = true -> winner = Some humanPlayer)
    /\ (Player.hasWon a h = true -> winner = Some aiPlayer)
    /\ (Player.hasWon h a = false -> Player.hasWon a h = false -> winner = None)
    /\ (forall r p, winner = Some r -> World.players w !! r = Some p ->
          GAME_CONFIG.VICTORY_POINTS <= Player.score p
          /\ (r = humanPlayer /\ Player.score a < Player.score p
              \/ r = aiPlayer /\ Player.score h < Player.score p)).
Proof.
  intros Hh Ha.
  rewrite (checkVictoryConditions_eq w humanPlayer aiPlayer h a Hh Ha).
  rewrite (checkVictoryConditions_eq w aiPlayer humanPlayer a h Ha Hh).
  destruct (Player.hasWon h a) eqn:Hha.
  - pose proof (hasWon_exclusive h a Hha) as Hah. rewrite Hah.
    exists (Some humanPlayer). split; [reflexivity |]. split; [reflexivity |].
    split; [intros [_ H]; discriminate H |].
    split; [reflexivity |]. split; [discriminate |].
    split; [discriminate |].
    intros r p Hr Hp. injection Hr as <-. rewrite Hh in Hp. injection Hp as <-.
    unfold Player.hasWon, GAME_CONFIG.MIN_VICTORY_LEAD in Hha.
    apply andb_true_iff in Hha as [H1 H2]. split; [lia |]. left. split; [reflexivity | lia].
  - destruct (Player.hasWon a h) eqn:Hah.
    + exists (Some aiPlayer). split; [reflexivity |]. split; [reflexivity |].
      split; [intros [H _]; discriminate H |].
      split; [discriminate |]. split; [reflexivity |].
      split; [discriminate |].
      intros r p Hr Hp. injection Hr as <-. rewrite Ha in Hp. injection Hp as <-.
      unfold Player.hasWon, GAME_CONFIG.MIN_VICTORY_LEAD in Hah.
      apply andb_true_iff in Hah as [H1 H2]. split; [lia |].
      right. split; [reflexivity | lia].
    + exists None. split; [reflexivity |]. split; [reflexivity |].
      split; [intros [H _]; discriminate H |].
      split; [discriminate |]. split; [discriminate |].
      split; [reflexivity |]. intros r p Hr. discriminate Hr.
Qed.

Lemma checkVictoryConditions_one_winner_witness :
  checkVictoryConditions Sample.human Sample.ai
    (Sample.withHumanScore 10 Sample.world)
  = Ok (Some Sample.human, Sample.withHumanScore 10 Sample.world)
  /\ checkVictoryConditions Sample.ai Sample.human
       (Sample.withHumanScore 10 Sample.world)
     = Ok (Some Sample.human, Sample.withHumanScore 10 Sample.world).
Proof.
  destruct (checkVictoryConditions_one_winner
              (Sample.withHumanScore 10 Sample.world) Sample.human Sample.ai
              (Player.set_score 10 (Player.new "human" "Player" HUMAN 0))
              (Player.set_cards
                 [Sample.rockCard; Sample.paperCard; Sample.scissorsCard] [] None
                 (Player.new "ai" "AI Opponent" AI 0)))
    as (winner & H1 & H2 & _ & H3 & _).
  - reflexivity.
  - reflexivity.
  - rewrite (H3 eq_refl) in H1, H2. split; [exact H1 | exact H2].
Defined.
